(** * Giga Pong client: the synchronisation and presentation loop

    A shallow embedding of [src/js/game.js] (class [PongGame]) and of
    [src/js/config.js] (the [CONFIG] object), followed by the properties
    of the dimension reconciler, the inbound message handler, the input
    sampler, the outbound gate and the renderer.

    JavaScript numbers are IEEE-754 binary64 values.  The program text is
    embedded over an interface of the numeric operations it uses
    ([JSNumber]), which is instantiated with Rocq's primitive binary64
    floats: the arithmetic the program runs on. *)

From stdpp Require Import gmap strings.
From Stdlib Require Import ZArith QArith Qpower Lqa Floats Uint63 Ascii String.

Close Scope Q_scope.
Local Open Scope string_scope.

(** ** Numbers *)

(** The numeric operations that occur in [game.js]. *)
Class JSNumber (num : Type) := {
  num_lit : Z -> num;              (* an integer literal of the program *)
  num_nan : num;                   (* NaN *)
  num_div : num -> num -> num;     (* a / b *)
  num_mul : num -> num -> num;     (* a * b *)
  num_gt : num -> num -> bool;     (* a > b *)
  num_lt : num -> num -> bool;     (* a < b *)
  num_seq : num -> num -> bool;    (* a === b on two numbers *)
  num_truthy : num -> bool;        (* ToBoolean: neither a zero nor NaN *)
  num_finite : num -> bool;        (* neither an infinity nor NaN *)
  Math_PI : num                    (* Math.PI *)
}.

(** What the properties use of the numbers: a number that is [=== 0] is
    falsy. *)
Class JSNumberLaws (num : Type) `{JSNumber num} := {
  num_zero_falsy :
    forall n : num, num_seq n (num_lit 0) = true -> num_truthy n = false
}.

(** An integer literal as a binary64 value (exact below 2^53). *)
Definition float_lit (z : Z) : float :=
  match z with
  | Z0 => 0%float
  | Zpos _ => PrimFloat.of_uint63 (Uint63.of_Z z)
  | Zneg p => PrimFloat.opp (PrimFloat.of_uint63 (Uint63.of_Z (Zpos p)))
  end.

(** binary64: the numbers of the running program. *)
#[export] Instance float_number : JSNumber float := {|
  num_lit := float_lit;
  num_nan := PrimFloat.nan;
  num_div := PrimFloat.div;
  num_mul := PrimFloat.mul;
  num_gt := fun a b => PrimFloat.ltb b a;
  num_lt := PrimFloat.ltb;
  num_seq := PrimFloat.eqb;
  num_truthy := fun a => negb (PrimFloat.is_zero a || PrimFloat.is_nan a);
  num_finite := is_finite;
  Math_PI := 0x1.921fb54442d18p+1%float
|}.

(** ** Values *)

(** The values that [JSON.parse] can produce, and [undefined].  An object
    is the list of its own properties; a lookup takes the first entry
    with the key. *)
#[warnings="-register-all"]
Inductive value {num : Type} : Type :=
| VUndefined
| VNull
| VBool (b : bool)
| VNum (n : num)
| VStr (s : string)
| VArr (items : list value)
| VObj (props : list (string * value)).
Arguments value : clear implicits.

(** The content of an inbound [event.data]: text that [JSON.parse]
    rejects, or text that denotes a JSON value. *)
Inductive frame {num : Type} : Type :=
| Malformed
| Json (message : value num).
Arguments frame : clear implicits.

(** Exceptions of the platform that the program can meet. *)
Inductive exn : Type :=
| SyntaxError          (* JSON.parse on text that is not JSON *)
| TypeError            (* a property read on undefined or null; the
                          conversion of an object that has no callable
                          toString *)
| InvalidStateError    (* WebSocket.send while CONNECTING *)
| IndexSizeError.      (* CanvasRenderingContext2D.arc, negative radius *)

Inductive completion (A : Type) : Type :=
| Normal (a : A)
| Throw (e : exn).
Arguments Normal {A} a.
Arguments Throw {A} e.

(** ** CONFIG (config.js) *)

Module CONFIG.

(** [window.ENV?.BACKEND_WS_URL || 'ws://localhost:8000/api/v1/game/ws'];
    the argument is the value of [window.ENV?.BACKEND_WS_URL] when it is
    a string. *)
Definition WEBSOCKET_URL (env : option string) : string :=
  match env with
  | Some u => if String.eqb u "" then "ws://localhost:8000/api/v1/game/ws" else u
  | None => "ws://localhost:8000/api/v1/game/ws"
  end.

Definition CANVAS_WIDTH : Z := 800.
Definition CANVAS_HEIGHT : Z := 600.

Definition PADDLE_COLOR : string := "#FFFFFF".
Definition BALL_COLOR : string := "#FFFFFF".

Definition COLORS_BACKGROUND : string := "#000000".
Definition COLORS_TEXT : string := "#FFFFFF".
Definition COLORS_BOUNDARY : string := "#444444".

Record ControlScheme : Type := {
  UP : string;
  DOWN : string;
  LEFT : string;
  RIGHT : string
}.

Definition PLAYER1 : ControlScheme :=
  {| UP := "w"; DOWN := "s"; LEFT := "a"; RIGHT := "d" |}.

Definition PLAYER2 : ControlScheme :=
  {| UP := "ArrowUp"; DOWN := "ArrowDown";
     LEFT := "ArrowLeft"; RIGHT := "ArrowRight" |}.

End CONFIG.

(** ** Strings *)

(** A string is its text in UTF-8; a string of ASCII characters is the
    sequence of its characters.  On such a string
    [String.prototype.toLowerCase] maps A-Z to a-z and leaves every other
    character: [ascii_toLowerCase].  This is the case of the
    [CONFIG.CONTROLS] entries and of the key identifiers of a Latin
    keyboard; [toLowerCase] below hands every other string to the host. *)
Definition lower_ascii (c : ascii) : ascii :=
  let n := nat_of_ascii c in
  if (65 <=? n)%nat && (n <=? 90)%nat then ascii_of_nat (n + 32) else c.

Fixpoint ascii_toLowerCase (s : string) : string :=
  match s with
  | EmptyString => EmptyString
  | String c rest => String (lower_ascii c) (ascii_toLowerCase rest)
  end.

Fixpoint is_ascii (s : string) : bool :=
  match s with
  | EmptyString => true
  | String c rest => (nat_of_ascii c <? 128)%nat && is_ascii rest
  end.

(** ** The host platform *)

(** Functions of the platform whose results the program only passes
    on.  Every statement below holds for any host.
    - [StringToNumber]: ECMAScript's ToNumber on a string;
    - [NumberToString]: ECMAScript's ToString on a number;
    - [reflect_width n], [reflect_height n]: what [canvas.width] (resp.
      [canvas.height]) reads after a value that converts to the number
      [n] has been assigned to it (the conversion to an unsigned long of
      the DOM attribute);
    - [UnicodeToLowerCase]: [String.prototype.toLowerCase] on a string
      that has a character outside ASCII. *)
Class Host (num : Type) := {
  StringToNumber : string -> num;
  NumberToString : num -> string;
  reflect_width : num -> num;
  reflect_height : num -> num;
  UnicodeToLowerCase : string -> string
}.

Section Program.

Context {num : Type} `{JSNumber num} `{Host num}.

(** *** Operations on values *)

(** [String.prototype.toLowerCase]. *)
Definition toLowerCase (s : string) : string :=
  if is_ascii s then ascii_toLowerCase s else UnicodeToLowerCase s.

(** [Object.prototype.hasOwnProperty]. *)
Definition hasOwnProperty (props : list (string * value num)) (key : string)
  : bool :=
  existsb (fun entry => String.eqb (fst entry) key) props.

(** [Array.prototype.join] with the separator [","], over the conversion
    [convert] of an element to a string: the elements are converted from
    left to right, [undefined] and [null] as the empty string. *)
Definition Array_join (convert : value num -> completion string)
  : list (value num) -> completion string :=
  fix join (items : list (value num)) : completion string :=
    match items with
    | [] => Normal EmptyString
    | item :: rest =>
      match
        match item with
        | VUndefined | VNull => Normal EmptyString
        | _ => convert item
        end
      with
      | Throw e => Throw e
      | Normal first =>
        match rest with
        | [] => Normal first
        | _ :: _ =>
          match join rest with
          | Throw e => Throw e
          | Normal others => Normal (first +:+ "," +:+ others)
          end
        end
      end
    end.

(** ToString, as applied by a template literal and by the text argument
    of [fillText].  The objects are those of [JSON.parse], whose
    properties are data:
    - an object with an own property [toString] has no callable
      [toString], and what [valueOf] returns is no primitive (the object
      itself from [Object.prototype.valueOf], or nothing callable): the
      conversion raises a TypeError;
    - any other object converts through [Object.prototype.toString];
    - an array converts through [Array.prototype.join] (an array from
      [JSON.parse] has no own [toString] or [join]). *)
Fixpoint ToString (v : value num) : completion string :=
  match v with
  | VUndefined => Normal "undefined"
  | VNull => Normal "null"
  | VBool b => Normal (if b then "true" else "false")
  | VNum n => Normal (NumberToString n)
  | VStr s => Normal s
  | VArr items => Array_join ToString items
  | VObj props =>
    if hasOwnProperty props "toString" then Throw TypeError
    else Normal "[object Object]"
  end.

(** ToNumber, as applied by [/], by the assignment to [canvas.width] and
    [canvas.height] and by the numeric arguments of the canvas context.
    An array or an object is first converted to a primitive, which is its
    string. *)
Definition ToNumber (v : value num) : completion num :=
  match v with
  | VUndefined => Normal num_nan
  | VNull => Normal (num_lit 0)
  | VBool b => Normal (if b then num_lit 1 else num_lit 0)
  | VNum n => Normal n
  | VStr s => Normal (StringToNumber s)
  | VArr _ | VObj _ =>
    match ToString v with
    | Normal s => Normal (StringToNumber s)
    | Throw e => Throw e
    end
  end.

(** ToBoolean, as applied by [if], [!] and [&&]. *)
Definition ToBoolean (v : value num) : bool :=
  match v with
  | VUndefined | VNull => false
  | VBool b => b
  | VNum n => num_truthy n
  | VStr s => negb (String.eqb s "")
  | VArr _ | VObj _ => true
  end.

(** [v === 'literal']. *)
Definition is_string (v : value num) (literal : string) : bool :=
  match v with
  | VStr s => String.eqb s literal
  | _ => false
  end.

(** [n === v] for a number [n]: only a number can be strictly equal to
    a number. *)
Definition strict_equals_number (n : num) (v : value num) : bool :=
  match v with
  | VNum m => num_seq n m
  | _ => false
  end.

Fixpoint own_property (props : list (string * value num)) (key : string)
  : value num :=
  match props with
  | [] => VUndefined
  | (k, v) :: rest => if String.eqb k key then v else own_property rest key
  end.

(** The result of the property read [v.key], for the property names of
    the program ([type], [data], [message], [canvas_width], [x], ...):
    none of them is defined on the prototypes of booleans, numbers,
    strings or arrays, so the read gives [undefined] there.  On
    [undefined] and [null] the read raises a TypeError. *)
Definition property (v : value num) (key : string)
  : completion (value num) :=
  match v with
  | VUndefined | VNull => Throw TypeError
  | VObj props => Normal (own_property props key)
  | VBool _ | VNum _ | VStr _ | VArr _ => Normal VUndefined
  end.

(** *** The state *)

Inductive ready_state : Type := CONNECTING | OPEN | CLOSING | CLOSED.

(** A [WebSocket]: its URL, its [readyState], and the messages that
    [send] has queued for transmission, oldest first.  A message is kept
    as the value handed to [JSON.stringify]. *)
Record WebSocket : Type := {
  url : string;
  readyState : ready_state;
  sent : list (value num)
}.

(** Calls on the 2D context, in the order they are made.  Arguments
    that come from the snapshot are kept as the values passed. *)
Inductive ctx_call : Type :=
| SetFillStyle (color : string)
| SetStrokeStyle (color : string)
| SetLineWidth (w : num)
| SetLineDash (segments : list num)
| SetFont (font : string)
| SetTextAlign (align : string)
| BeginPath
| MoveTo (x y : num)
| LineTo (x y : num)
| Stroke
| Fill
| FillRect (x y w h : value num)
| Arc (x y radius : value num) (startAngle endAngle : num)
| FillText (text : value num) (x y : num).

(** Lines written to the console, one constructor per [console.log] /
    [console.error] of the program; the numbers that the program formats
    are kept as numbers. *)
Inductive log_entry : Type :=
| LogStarting (playerId : string)
| LogConnecting (wsUrl : string)
| LogConnected
| LogInitialDimensions (w h : num)
| LogDimensionsUpdated (w h : num)
| LogScalingApplied
| LogGameWorld (w h : value num)
| LogDisplaySize (w h : num)
| LogScaleFactor (s : num)
| LogMessage (m : value num)
| LogDisconnected
| LogWebSocketError.

(** A [PongGame] instance together with the parts of the page it reads
    and writes.
    - [width], [height]: [this.canvas.width], [this.canvas.height];
    - [style_width], [style_height]: the length in px assigned to
      [this.canvas.style.width] / [.height] ([None]: never assigned);
    - [clientWidth], [clientHeight]: the box of
      [this.canvas.parentElement] (the canvas is taken to have a parent);
    - [ctx]: the calls made on [this.ctx];
    - [connectionStatus]: the text of the element with id
      [connectionStatus] ([None]: the page has no such element). *)
Record PongGame : Type := {
  playerId : string;
  width : num;
  height : num;
  style_width : option num;
  style_height : option num;
  clientWidth : num;
  clientHeight : num;
  ctx : list ctx_call;
  scaleX : num;
  scaleY : num;
  initialDimensionsSet : bool;
  ws : option WebSocket;
  gameState : value num;
  connected : bool;
  pressedKeys : gset string;
  connectionStatus : option string;
  console : list log_entry
}.

(** Field updates. *)
Definition set_width (v : num) (g : PongGame) : PongGame :=
  {| playerId := playerId g; width := v; height := height g;
     style_width := style_width g; style_height := style_height g;
     clientWidth := clientWidth g; clientHeight := clientHeight g;
     ctx := ctx g; scaleX := scaleX g; scaleY := scaleY g;
     initialDimensionsSet := initialDimensionsSet g; ws := ws g;
     gameState := gameState g; connected := connected g;
     pressedKeys := pressedKeys g; connectionStatus := connectionStatus g;
     console := console g |}.

Definition set_height (v : num) (g : PongGame) : PongGame :=
  {| playerId := playerId g; width := width g; height := v;
     style_width := style_width g; style_height := style_height g;
     clientWidth := clientWidth g; clientHeight := clientHeight g;
     ctx := ctx g; scaleX := scaleX g; scaleY := scaleY g;
     initialDimensionsSet := initialDimensionsSet g; ws := ws g;
     gameState := gameState g; connected := connected g;
     pressedKeys := pressedKeys g; connectionStatus := connectionStatus g;
     console := console g |}.

Definition set_style_width (v : num) (g : PongGame) : PongGame :=
  {| playerId := playerId g; width := width g; height := height g;
     style_width := Some v; style_height := style_height g;
     clientWidth := clientWidth g; clientHeight := clientHeight g;
     ctx := ctx g; scaleX := scaleX g; scaleY := scaleY g;
     initialDimensionsSet := initialDimensionsSet g; ws := ws g;
     gameState := gameState g; connected := connected g;
     pressedKeys := pressedKeys g; connectionStatus := connectionStatus g;
     console := console g |}.

Definition set_style_height (v : num) (g : PongGame) : PongGame :=
  {| playerId := playerId g; width := width g; height := height g;
     style_width := style_width g; style_height := Some v;
     clientWidth := clientWidth g; clientHeight := clientHeight g;
     ctx := ctx g; scaleX := scaleX g; scaleY := scaleY g;
     initialDimensionsSet := initialDimensionsSet g; ws := ws g;
     gameState := gameState g; connected := connected g;
     pressedKeys := pressedKeys g; connectionStatus := connectionStatus g;
     console := console g |}.

Definition set_client_box (w h : num) (g : PongGame) : PongGame :=
  {| playerId := playerId g; width := width g; height := height g;
     style_width := style_width g; style_height := style_height g;
     clientWidth := w; clientHeight := h;
     ctx := ctx g; scaleX := scaleX g; scaleY := scaleY g;
     initialDimensionsSet := initialDimensionsSet g; ws := ws g;
     gameState := gameState g; connected := connected g;
     pressedKeys := pressedKeys g; connectionStatus := connectionStatus g;
     console := console g |}.

Definition set_ctx (v : list ctx_call) (g : PongGame) : PongGame :=
  {| playerId := playerId g; width := width g; height := height g;
     style_width := style_width g; style_height := style_height g;
     clientWidth := clientWidth g; clientHeight := clientHeight g;
     ctx := v; scaleX := scaleX g; scaleY := scaleY g;
     initialDimensionsSet := initialDimensionsSet g; ws := ws g;
     gameState := gameState g; connected := connected g;
     pressedKeys := pressedKeys g; connectionStatus := connectionStatus g;
     console := console g |}.

Definition set_scaleX (v : num) (g : PongGame) : PongGame :=
  {| playerId := playerId g; width := width g; height := height g;
     style_width := style_width g; style_height := style_height g;
     clientWidth := clientWidth g; clientHeight := clientHeight g;
     ctx := ctx g; scaleX := v; scaleY := scaleY g;
     initialDimensionsSet := initialDimensionsSet g; ws := ws g;
     gameState := gameState g; connected := connected g;
     pressedKeys := pressedKeys g; connectionStatus := connectionStatus g;
     console := console g |}.

Definition set_scaleY (v : num) (g : PongGame) : PongGame :=
  {| playerId := playerId g; width := width g; height := height g;
     style_width := style_width g; style_height := style_height g;
     clientWidth := clientWidth g; clientHeight := clientHeight g;
     ctx := ctx g; scaleX := scaleX g; scaleY := v;
     initialDimensionsSet := initialDimensionsSet g; ws := ws g;
     gameState := gameState g; connected := connected g;
     pressedKeys := pressedKeys g; connectionStatus := connectionStatus g;
     console := console g |}.

Definition set_initialDimensionsSet (v : bool) (g : PongGame) : PongGame :=
  {| playerId := playerId g; width := width g; height := height g;
     style_width := style_width g; style_height := style_height g;
     clientWidth := clientWidth g; clientHeight := clientHeight g;
     ctx := ctx g; scaleX := scaleX g; scaleY := scaleY g;
     initialDimensionsSet := v; ws := ws g;
     gameState := gameState g; connected := connected g;
     pressedKeys := pressedKeys g; connectionStatus := connectionStatus g;
     console := console g |}.

Definition set_ws (v : option WebSocket) (g : PongGame) : PongGame :=
  {| playerId := playerId g; width := width g; height := height g;
     style_width := style_width g; style_height := style_height g;
     clientWidth := clientWidth g; clientHeight := clientHeight g;
     ctx := ctx g; scaleX := scaleX g; scaleY := scaleY g;
     initialDimensionsSet := initialDimensionsSet g; ws := v;
     gameState := gameState g; connected := connected g;
     pressedKeys := pressedKeys g; connectionStatus := connectionStatus g;
     console := console g |}.

Definition set_gameState (v : value num) (g : PongGame) : PongGame :=
  {| playerId := playerId g; width := width g; height := height g;
     style_width := style_width g; style_height := style_height g;
     clientWidth := clientWidth g; clientHeight := clientHeight g;
     ctx := ctx g; scaleX := scaleX g; scaleY := scaleY g;
     initialDimensionsSet := initialDimensionsSet g; ws := ws g;
     gameState := v; connected := connected g;
     pressedKeys := pressedKeys g; connectionStatus := connectionStatus g;
     console := console g |}.

Definition set_connected (v : bool) (g : PongGame) : PongGame :=
  {| playerId := playerId g; width := width g; height := height g;
     style_width := style_width g; style_height := style_height g;
     clientWidth := clientWidth g; clientHeight := clientHeight g;
     ctx := ctx g; scaleX := scaleX g; scaleY := scaleY g;
     initialDimensionsSet := initialDimensionsSet g; ws := ws g;
     gameState := gameState g; connected := v;
     pressedKeys := pressedKeys g; connectionStatus := connectionStatus g;
     console := console g |}.

Definition set_pressedKeys (v : gset string) (g : PongGame) : PongGame :=
  {| playerId := playerId g; width := width g; height := height g;
     style_width := style_width g; style_height := style_height g;
     clientWidth := clientWidth g; clientHeight := clientHeight g;
     ctx := ctx g; scaleX := scaleX g; scaleY := scaleY g;
     initialDimensionsSet := initialDimensionsSet g; ws := ws g;
     gameState := gameState g; connected := connected g;
     pressedKeys := v; connectionStatus := connectionStatus g;
     console := console g |}.

Definition set_connectionStatus (v : option string) (g : PongGame)
  : PongGame :=
  {| playerId := playerId g; width := width g; height := height g;
     style_width := style_width g; style_height := style_height g;
     clientWidth := clientWidth g; clientHeight := clientHeight g;
     ctx := ctx g; scaleX := scaleX g; scaleY := scaleY g;
     initialDimensionsSet := initialDimensionsSet g; ws := ws g;
     gameState := gameState g; connected := connected g;
     pressedKeys := pressedKeys g; connectionStatus := v;
     console := console g |}.

Definition set_console (v : list log_entry) (g : PongGame) : PongGame :=
  {| playerId := playerId g; width := width g; height := height g;
     style_width := style_width g; style_height := style_height g;
     clientWidth := clientWidth g; clientHeight := clientHeight g;
     ctx := ctx g; scaleX := scaleX g; scaleY := scaleY g;
     initialDimensionsSet := initialDimensionsSet g; ws := ws g;
     gameState := gameState g; connected := connected g;
     pressedKeys := pressedKeys g; connectionStatus := connectionStatus g;
     console := v |}.

(** *** Computations: state and exceptions *)

(** A piece of the program: from a state to a completion and the state
    it leaves.  What was written before an exception stays written. *)
Definition JS (A : Type) : Type := PongGame -> completion A * PongGame.

#[export] Instance JS_ret : MRet JS := fun A a g => (Normal a, g).

#[export] Instance JS_bind : MBind JS := fun A B f m g =>
  match m g with
  | (Normal a, g') => f a g'
  | (Throw e, g') => (Throw e, g')
  end.

Definition read {A : Type} (f : PongGame -> A) : JS A :=
  fun g => (Normal (f g), g).

Definition write (f : PongGame -> PongGame) : JS unit :=
  fun g => (Normal tt, f g).

Definition lift {A : Type} (c : completion A) : JS A :=
  fun g => (c, g).

Definition when (b : bool) (body : JS unit) : JS unit :=
  if b then body else mret tt.

Definition console_log (entry : log_entry) : JS unit :=
  write (fun g => set_console (console g ++ [entry]) g).

Definition call_ctx (c : ctx_call) : JS unit :=
  write (fun g => set_ctx (ctx g ++ [c]) g).

(** *** The program (game.js) *)

(** [updateConnectionStatus(status)]: a page without the status element
    is left as it is. *)
Definition updateConnectionStatus (status : string) : JS unit :=
  write (fun g =>
    match connectionStatus g with
    | Some _ => set_connectionStatus (Some ("Status: " +:+ status)) g
    | None => g
    end).

(** [handleResize()]: the dimension reconciler.  Each [/] converts its
    operands to numbers, the left one first, and the template literal of
    the second log line converts the two dimensions to strings. *)
Definition handleResize : JS unit :=
  gs ← read gameState;
  dimensionsSet ← read initialDimensionsSet;
  if negb (ToBoolean gs) || negb dimensionsSet then mret tt
  else
    containerWidth ← read clientWidth;
    containerHeight ← read clientHeight;
    canvas_width ← lift (property gs "canvas_width");
    canvas_height ← lift (property gs "canvas_height");
    cw ← lift (ToNumber canvas_width);
    ch ← lift (ToNumber canvas_height);
    let gameAspectRatio := num_div cw ch in
    let containerAspectRatio := num_div containerWidth containerHeight in
    let '(displayWidth, displayHeight) :=
      if num_gt containerAspectRatio gameAspectRatio
      then (* the container is wider than the game: fit to height *)
        let displayHeight := containerHeight in
        (num_mul displayHeight gameAspectRatio, displayHeight)
      else (* the container is taller than the game: fit to width *)
        let displayWidth := containerWidth in
        (displayWidth, num_div displayWidth gameAspectRatio) in
    write (set_style_width displayWidth);;
    write (set_style_height displayHeight);;
    canvas_width ← lift (property gs "canvas_width");
    cw ← lift (ToNumber canvas_width);
    write (set_scaleX (num_div displayWidth cw));;
    canvas_height ← lift (property gs "canvas_height");
    ch ← lift (ToNumber canvas_height);
    write (set_scaleY (num_div displayHeight ch));;
    console_log LogScalingApplied;;
    canvas_width ← lift (property gs "canvas_width");
    _ ← lift (ToString canvas_width);
    canvas_height ← lift (property gs "canvas_height");
    _ ← lift (ToString canvas_height);
    console_log (LogGameWorld canvas_width canvas_height);;
    console_log (LogDisplaySize displayWidth displayHeight);;
    sx ← read scaleX;
    console_log (LogScaleFactor sx).

(** [this.ws.onopen]. *)
Definition onopen : JS unit :=
  console_log LogConnected;;
  write (set_connected true);;
  updateConnectionStatus "Connected".

(** [this.ws.onmessage], applied to [event.data].  An assignment to
    [canvas.width] or [canvas.height] converts the value to a number
    before the attribute changes. *)
Definition onmessage (data : frame num) : JS unit :=
  match data with
  | Malformed => lift (Throw SyntaxError)
  | Json message =>
    type ← lift (property message "type");
    if is_string type "game_state" then
      data ← lift (property message "data");
      write (set_gameState data);;
      gs ← read gameState;
      canvas_width ← lift (property gs "canvas_width");
      both ← (if ToBoolean canvas_width
              then canvas_height ← lift (property gs "canvas_height");
                   mret (ToBoolean canvas_height)
              else mret false);
      when both (
        dimensionsSet ← read initialDimensionsSet;
        w ← read width;
        h ← read height;
        canvas_width ← lift (property gs "canvas_width");
        canvas_height ← lift (property gs "canvas_height");
        when (negb dimensionsSet
              || negb (strict_equals_number w canvas_width)
              || negb (strict_equals_number h canvas_height)) (
          canvas_width ← lift (property gs "canvas_width");
          cw ← lift (ToNumber canvas_width);
          write (set_width (reflect_width cw));;
          canvas_height ← lift (property gs "canvas_height");
          ch ← lift (ToNumber canvas_height);
          write (set_height (reflect_height ch));;
          w ← read width;
          h ← read height;
          (if negb dimensionsSet
           then console_log (LogInitialDimensions w h);;
                write (set_initialDimensionsSet true)
           else console_log (LogDimensionsUpdated w h));;
          handleResize))
    else if is_string type "connected" then
      text ← lift (property message "message");
      console_log (LogMessage text)
    else if is_string type "player_disconnected" then
      text ← lift (property message "message");
      console_log (LogMessage text);;
      updateConnectionStatus "Waiting for other player..."
    else mret tt
  end.

(** [this.ws.onclose]. *)
Definition onclose : JS unit :=
  console_log LogDisconnected;;
  write (set_connected false);;
  updateConnectionStatus "Disconnected".

(** [this.ws.onerror]. *)
Definition onerror : JS unit :=
  console_log LogWebSocketError;;
  updateConnectionStatus "Connection error".

(** [connectWebSocket()]; [env] is [window.ENV?.BACKEND_WS_URL].  The
    URL is taken to be one that [new WebSocket] accepts. *)
Definition connectWebSocket (env : option string) : JS unit :=
  pid ← read playerId;
  let wsUrl := CONFIG.WEBSOCKET_URL env +:+ "/" +:+ pid in
  console_log (LogConnecting wsUrl);;
  write (set_ws (Some {| url := wsUrl; readyState := CONNECTING;
                         sent := [] |})).

(** [WebSocket.prototype.send]: an InvalidStateError while CONNECTING,
    the message queued for transmission while OPEN, the message
    discarded while CLOSING or CLOSED. *)
Definition WebSocket_send (w : WebSocket) (data : value num) : JS unit :=
  match readyState w with
  | CONNECTING => lift (Throw InvalidStateError)
  | OPEN =>
    write (set_ws (Some {| url := url w; readyState := readyState w;
                           sent := sent w ++ [data] |}))
  | CLOSING | CLOSED => mret tt
  end.

(** [resetGame()]. *)
Definition resetGame : JS unit :=
  socket ← read ws;
  isConnected ← read connected;
  match socket : option WebSocket with
  | Some w =>
    if isConnected : bool
    then WebSocket_send w (VObj [("type", VStr "reset")])
    else mret tt
  | None => mret tt
  end.

(** [sendInput(action)]. *)
Definition sendInput (action : value num) : JS unit :=
  socket ← read ws;
  isConnected ← read connected;
  match socket : option WebSocket with
  | Some w =>
    if isConnected : bool
    then WebSocket_send w (VObj [("type", VStr "input"); ("action", action)])
    else mret tt
  | None => mret tt
  end.

(** The [keydown] and [keyup] listeners, applied to [event.key]. *)
Definition keydown (key : string) : JS unit :=
  write (fun g => set_pressedKeys ({[ toLowerCase key ]} ∪ pressedKeys g) g).

Definition keyup (key : string) : JS unit :=
  write (fun g => set_pressedKeys (pressedKeys g ∖ {[ toLowerCase key ]}) g).

(** The control scheme chosen by the sampler. *)
Definition controls_of (pid : string) : CONFIG.ControlScheme :=
  if String.eqb pid "player1" then CONFIG.PLAYER1 else CONFIG.PLAYER2.

(** [this.pressedKeys.has(key)]. *)
Definition has (keys : gset string) (key : string) : bool :=
  bool_decide (key ∈ keys).

(** The callback of [setInterval]: one tick of the input sampler. *)
Definition tick : JS unit :=
  pid ← read playerId;
  let controls := controls_of pid in
  keys ← read pressedKeys;
  when (has keys (toLowerCase (CONFIG.UP controls)))
    (sendInput (VStr "UP"));;
  keys ← read pressedKeys;
  when (has keys (toLowerCase (CONFIG.DOWN controls)))
    (sendInput (VStr "DOWN"));;
  keys ← read pressedKeys;
  when (has keys (toLowerCase (CONFIG.LEFT controls)))
    (sendInput (VStr "LEFT"));;
  keys ← read pressedKeys;
  when (has keys (toLowerCase (CONFIG.RIGHT controls)))
    (sendInput (VStr "RIGHT")).

(** [setupKeyboardControls()]: the set of pressed keys starts empty; the
    listeners and the timer are [keydown], [keyup] and [tick]. *)
Definition setupKeyboardControls : JS unit :=
  write (set_pressedKeys ∅).

(** [CanvasRenderingContext2D.prototype.fillRect]: the arguments are
    converted to numbers from left to right, then the call is made. *)
Definition context_fillRect (x y w h : value num) : JS unit :=
  _ ← lift (ToNumber x);
  _ ← lift (ToNumber y);
  _ ← lift (ToNumber w);
  _ ← lift (ToNumber h);
  call_ctx (FillRect x y w h).

(** [CanvasRenderingContext2D.prototype.fillText] with two numbers for
    the position: the text is converted to a string, then the call is
    made. *)
Definition context_fillText (text : value num) (x y : num) : JS unit :=
  _ ← lift (ToString text);
  call_ctx (FillText text x y).

(** [CanvasRenderingContext2D.prototype.arc] with two numbers for the
    angles: the other arguments are converted to numbers from left to
    right; then, with all arguments finite and a negative radius, it
    raises an IndexSizeError; otherwise the call is made (with a
    non-finite argument it adds nothing to the path). *)
Definition context_arc (x y radius : value num) (startAngle endAngle : num)
  : JS unit :=
  nx ← lift (ToNumber x);
  ny ← lift (ToNumber y);
  nradius ← lift (ToNumber radius);
  if num_finite nx && num_finite ny && num_finite nradius
     && num_finite startAngle && num_finite endAngle
     && num_lt nradius (num_lit 0)
  then lift (Throw IndexSizeError)
  else call_ctx (Arc x y radius startAngle endAngle).

(** [drawText(text, x, y)]. *)
Definition drawText (text : string) (x y : num) : JS unit :=
  call_ctx (SetFillStyle CONFIG.COLORS_TEXT);;
  call_ctx (SetFont "24px Arial");;
  call_ctx (SetTextAlign "center");;
  context_fillText (VStr text) x y.

(** [drawCenterLine()]. *)
Definition drawCenterLine : JS unit :=
  call_ctx (SetStrokeStyle CONFIG.COLORS_BOUNDARY);;
  call_ctx (SetLineWidth (num_lit 2));;
  call_ctx (SetLineDash [num_lit 10; num_lit 10]);;
  call_ctx BeginPath;;
  w ← read width;
  call_ctx (MoveTo (num_div w (num_lit 2)) (num_lit 0));;
  w ← read width;
  h ← read height;
  call_ctx (LineTo (num_div w (num_lit 2)) h);;
  call_ctx Stroke;;
  call_ctx (SetLineDash []).

(** [drawPaddle(paddle)]. *)
Definition drawPaddle (paddle : value num) : JS unit :=
  call_ctx (SetFillStyle CONFIG.PADDLE_COLOR);;
  x ← lift (property paddle "x");
  y ← lift (property paddle "y");
  w ← lift (property paddle "width");
  h ← lift (property paddle "height");
  context_fillRect x y w h.

(** [drawBall(ball)]. *)
Definition drawBall (ball : value num) : JS unit :=
  call_ctx (SetFillStyle CONFIG.BALL_COLOR);;
  call_ctx BeginPath;;
  x ← lift (property ball "x");
  y ← lift (property ball "y");
  radius ← lift (property ball "radius");
  context_arc x y radius (num_lit 0) (num_mul Math_PI (num_lit 2));;
  call_ctx Fill.

(** [drawScores()]. *)
Definition drawScores : JS unit :=
  call_ctx (SetFillStyle CONFIG.COLORS_TEXT);;
  call_ctx (SetFont "48px Arial");;
  call_ctx (SetTextAlign "center");;
  gs ← read gameState;
  score1 ← lift (property gs "score1");
  w ← read width;
  context_fillText score1 (num_div w (num_lit 4)) (num_lit 60);;
  gs ← read gameState;
  score2 ← lift (property gs "score2");
  w ← read width;
  context_fillText score2 (num_mul (num_div w (num_lit 4)) (num_lit 3))
                   (num_lit 60).

(** [render()]: one iteration of the render loop. *)
Definition render : JS unit :=
  call_ctx (SetFillStyle CONFIG.COLORS_BACKGROUND);;
  w ← read width;
  h ← read height;
  context_fillRect (VNum (num_lit 0)) (VNum (num_lit 0)) (VNum w) (VNum h);;
  gs ← read gameState;
  if negb (ToBoolean gs) then
    w ← read width;
    h ← read height;
    drawText "Waiting for game state..."
             (num_div w (num_lit 2)) (num_div h (num_lit 2))
  else
    drawCenterLine;;
    paddle1 ← lift (property gs "paddle1");
    drawPaddle paddle1;;
    paddle2 ← lift (property gs "paddle2");
    drawPaddle paddle2;;
    ball ← lift (property gs "ball");
    drawBall ball;;
    drawScores.

(** [new PongGame(playerId)] on a page whose canvas container has the
    box [boxWidth] x [boxHeight] and whose status element, if there is
    one, shows [status].  [pressedKeys] is created by
    [setupKeyboardControls]; until then it is shown empty. *)
Definition constructor (pid : string) (boxWidth boxHeight : num)
    (status : option string) : PongGame :=
  {| playerId := pid;
     width := reflect_width (num_lit CONFIG.CANVAS_WIDTH);
     height := reflect_height (num_lit CONFIG.CANVAS_HEIGHT);
     style_width := None; style_height := None;
     clientWidth := boxWidth; clientHeight := boxHeight;
     ctx := [];
     scaleX := num_lit 1; scaleY := num_lit 1;
     initialDimensionsSet := false;
     ws := None;
     gameState := VNull;
     connected := false;
     pressedKeys := ∅;
     connectionStatus := status;
     console := [] |}.

(** [init()].  [setupResetButton] only registers the click listener
    ([resetGame]); [setupResponsiveCanvas] registers [handleResize] and
    calls it once; [startRenderLoop] renders once and leaves the next
    iterations to the display. *)
Definition init (env : option string) : JS unit :=
  connectWebSocket env;;
  setupKeyboardControls;;
  handleResize;;
  render;;
  updateConnectionStatus "Connecting...".

(** The state a computation leaves. *)
Definition after {A : Type} (c : JS A) (g : PongGame) : PongGame :=
  snd (c g).

(** [startGame(playerId)]. *)
Definition startGame (pid : string) (env : option string)
    (boxWidth boxHeight : num) (status : option string) : PongGame :=
  after (console_log (LogStarting pid);; init env)
        (constructor pid boxWidth boxHeight status).

(** *** The event loop *)

(** The platform moves the socket to another [readyState]. *)
Definition with_readyState (r : ready_state) (g : PongGame) : PongGame :=
  match ws g with
  | Some w => set_ws (Some {| url := url w; readyState := r;
                              sent := sent w |}) g
  | None => g
  end.

(** One task of the event loop.  A callback runs to completion; an
    exception it raises ends the callback and is reported by the
    platform, and what the callback has written stays.
    - the socket opens: [readyState] becomes OPEN and [open] is fired;
    - a message is delivered, only while OPEN;
    - the closing handshake starts: [readyState] becomes CLOSING;
    - the connection is closed: [readyState] becomes CLOSED, [error] is
      fired if the connection failed, then [close] is fired;
    - a key goes down or up, the sampling timer fires, the window is
      resized, the display asks for a frame, the reset button is
      clicked. *)
Inductive task : PongGame -> PongGame -> Prop :=
| task_open g w :
    ws g = Some w -> readyState w = CONNECTING ->
    task g (after onopen (with_readyState OPEN g))
| task_message g w data :
    ws g = Some w -> readyState w = OPEN ->
    task g (after (onmessage data) g)
| task_closing g w :
    ws g = Some w -> readyState w = OPEN ->
    task g (with_readyState CLOSING g)
| task_close g w (failed : bool) :
    ws g = Some w -> readyState w <> CLOSED ->
    task g (after ((if failed then onerror else mret tt);; onclose)
                  (with_readyState CLOSED g))
| task_keydown g key : task g (after (keydown key) g)
| task_keyup g key : task g (after (keyup key) g)
| task_tick g : task g (after tick g)
| task_resize g boxWidth boxHeight :
    task g (after handleResize (set_client_box boxWidth boxHeight g))
| task_frame g : task g (after render g)
| task_click_reset g : task g (after resetGame g).

(** The states the client can be in: those that a run of the event loop
    reaches from [startGame]. *)
Definition reachable (g : PongGame) : Prop :=
  exists pid env boxWidth boxHeight status,
    rtc task (startGame pid env boxWidth boxHeight status) g.

End Program.

Arguments PongGame : clear implicits.
Arguments WebSocket : clear implicits.
Arguments ctx_call : clear implicits.
Arguments log_entry : clear implicits.
Arguments JS : clear implicits.

(** ** Hosts for running the program on concrete inputs *)

(** The conversion to an unsigned long of the canvas attributes, on the
    numbers that the examples below assign: an integer between 1 and
    2^31 - 1 is read back as it is; a number between 0 and 1 is
    truncated to 0; a number from 2^84 on is a multiple of 2^32 and is
    read back as 0. *)
Definition example_unsigned_long (n : float) : float :=
  if (PrimFloat.leb 0 n && PrimFloat.ltb n 1) || PrimFloat.leb 0x1p+84 n
  then 0%float
  else n.

(** The examples convert no string to a number, print no number, and
    lowercase only ASCII strings.  This host implements that much: its
    other results are placeholders that no example reads. *)
#[export] Instance example_host : Host float := {|
  StringToNumber := fun _ => PrimFloat.nan;
  NumberToString := fun _ => EmptyString;
  reflect_width := example_unsigned_long;
  reflect_height := example_unsigned_long;
  UnicodeToLowerCase := fun s => s
|}.

(** ** Binary64 numbers as rationals *)

(** The rational that a finite binary64 number denotes, from its sign,
    mantissa and exponent; 0 for the zeros, the infinities and NaN. *)
Definition SF2Q (x : spec_float) : Q :=
  match x with
  | S754_finite s m e =>
    ((if s then -1 else 1) * inject_Z (Z.pos m) * 2 ^ e)%Q
  | _ => 0%Q
  end.

Definition float_value (x : float) : Q := SF2Q (Prim2SF x).

(** [x] is [r] up to the relative error [eps]. *)
Definition within (eps x r : Q) : Prop :=
  ((1 - eps) * r <= x /\ x <= (1 + eps) * r)%Q.

(** The unit roundoff of binary64, 2^-53, and four times it. *)
Definition u53 : Q := (1 # 9007199254740992)%Q.
Definition u51 : Q := (1 # 2251799813685248)%Q.

(** A number from 2^-250 up to 2^250: far from the least and from the
    greatest binary64 numbers. *)
Definition ordinary (x : float) : bool :=
  PrimFloat.leb 0x1p-250 x && PrimFloat.ltb x 0x1p+250.

(** A positive normal number: a mantissa of 53 bits, with an exponent
    from [lo] to [hi]. *)
Definition normal_in (lo hi : Z) (x : float) : Prop :=
  exists m e,
    Prim2SF x = S754_finite false m e /\
    Z.pos (digits2_pos m) = 53%Z /\ (lo <= e <= hi)%Z.

(** The integer [m] and the location [l] describe the quotient [N / D]
    as the rounding of [SpecFloat] expects: [m] is its integer part, and
    [l] tells where it lies between [m] and [m + 1]. *)
Definition located (N D m : Z) (l : location) : Prop :=
  (0 < D /\ m = N / D /\
   match l with
   | loc_Exact => N mod D = 0
   | loc_Inexact c => N mod D <> 0 /\ (2 * (N mod D) ?= D) = c
   end)%Z.

(** The box [dw] x [dh] has the aspect ratio of the game world
    [cw] x [ch] up to a relative error of 2^-51, both when the two
    quotients are taken exactly and when they are taken in binary64. *)
Definition aspect_kept (dw dh cw ch : float) : Prop :=
  within u51 (float_value dw / float_value dh)
             (float_value cw / float_value ch) /\
  within u51 (float_value (dw / dh)%float) (float_value (cw / ch)%float).

(** ** Vocabulary of the properties *)

(** The box the reconciler computes for a container [W] x [Ht] and a
    game aspect ratio [ratio]; [fit_wide] tells which way it fits. *)
Definition fit_wide {num : Type} `{JSNumber num} (W Ht ratio : num) : bool :=
  num_gt (num_div W Ht) ratio.

Definition fit_width {num : Type} `{JSNumber num} (W Ht ratio : num) : num :=
  if fit_wide W Ht ratio then num_mul Ht ratio else W.

Definition fit_height {num : Type} `{JSNumber num} (W Ht ratio : num) : num :=
  if fit_wide W Ht ratio then Ht else num_div W ratio.

Section Vocabulary.

Context {num : Type} `{JSNumber num} `{Host num}.

Implicit Types (g : PongGame num) (v : value num).

(** The connection is in the Open state: there is a socket and it is
    OPEN. *)
Definition connection_open g : bool :=
  match ws g with
  | Some w => match readyState w with OPEN => true | _ => false end
  | None => false
  end.

(** The messages queued for transmission so far. *)
Definition outbound g : list (value num) :=
  match ws g with
  | Some w => sent w
  | None => []
  end.

(** What the outbound gate depends on: the flag [this.connected] and the
    state of the socket. *)
Definition link g : bool * option ready_state :=
  (connected g, readyState <$> ws g).

(** The flag follows the socket: it is down without a socket and while
    the socket is CONNECTING or CLOSED, and up while the socket is OPEN. *)
Definition flag_follows_socket (l : bool * option ready_state) : Prop :=
  match l with
  | (flag, None) => flag = false
  | (flag, Some CONNECTING) => flag = false
  | (flag, Some OPEN) => flag = true
  | (_, Some CLOSING) => True
  | (flag, Some CLOSED) => flag = false
  end.

(** What the gate of the reconciler depends on: the flag
    [this.initialDimensionsSet] and the snapshot. *)
Definition snapshot_view g : bool * value num :=
  (initialDimensionsSet g, gameState g).

(** The conversion of [v] to a string, and with it the conversion to a
    number, does not raise. *)
Definition converts v : bool :=
  match ToString v with
  | Normal _ => true
  | Throw _ => false
  end.

(** The number that [v] converts to, where the conversion does not
    raise. *)
Definition number v : num :=
  match ToNumber v with
  | Normal n => n
  | Throw _ => num_nan
  end.

(** The flag is up whenever the snapshot carries both dimensions, truthy
    and such that their conversion does not raise. *)
Definition dimensions_known g : Prop :=
  forall cw ch,
    property (gameState g) "canvas_width" = Normal cw ->
    property (gameState g) "canvas_height" = Normal ch ->
    ToBoolean cw = true -> ToBoolean ch = true ->
    converts cw = true -> converts ch = true ->
    initialDimensionsSet g = true.

(** A computation that leaves a view of the state as it was, whether it
    ends normally or raises. *)
Definition keeps {A B : Type} (view : PongGame num -> B) (c : JS num A)
  : Prop :=
  forall g, view (snd (c g)) = view g.

(** The message [{type: 'input', action}]. *)
Definition intent (action : string) : value num :=
  VObj [("type", VStr "input"); ("action", VStr action)].

(** The state once [msgs] have been queued on the socket. *)
Definition enqueue (msgs : list (value num)) g : PongGame num :=
  match ws g with
  | Some w => set_ws (Some {| url := url w; readyState := readyState w;
                              sent := sent w ++ msgs |}) g
  | None => g
  end.

(** The messages one tick queues: what [outbound] has gained. *)
Definition sent_by_tick g : list (value num) :=
  drop (List.length (outbound g)) (outbound (after tick g)).

(** The four directional intents of a control scheme, each with the key
    mapped to it. *)
Definition directions (controls : CONFIG.ControlScheme)
  : list (string * string) :=
  [("UP", CONFIG.UP controls); ("DOWN", CONFIG.DOWN controls);
   ("LEFT", CONFIG.LEFT controls); ("RIGHT", CONFIG.RIGHT controls)].

(** [undefined] and [null], on which a property read raises. *)
Definition nullish v : bool :=
  match v with
  | VUndefined | VNull => true
  | _ => false
  end.

(** The value of [v.key], where the read does not raise. *)
Definition field v (key : string) : value num :=
  match property v key with
  | Normal r => r
  | Throw _ => VUndefined
  end.

(** What one iteration of the render loop paints: the calls that
    [render] adds on the context. *)
Definition painted g : list (ctx_call num) :=
  drop (List.length (ctx g)) (ctx (after render g)).

(** The calls of the background fill, of [drawText] for the waiting
    text, and of [drawCenterLine], [drawPaddle], [drawBall] and
    [drawScores], for a canvas of width [w] and height [h]. *)
Definition background_calls (w h : num) : list (ctx_call num) :=
  [SetFillStyle CONFIG.COLORS_BACKGROUND;
   FillRect (VNum (num_lit 0)) (VNum (num_lit 0)) (VNum w) (VNum h)].

Definition placeholder_calls (w h : num) : list (ctx_call num) :=
  [SetFillStyle CONFIG.COLORS_TEXT; SetFont "24px Arial";
   SetTextAlign "center";
   FillText (VStr "Waiting for game state...")
            (num_div w (num_lit 2)) (num_div h (num_lit 2))].

Definition center_line_calls (w h : num) : list (ctx_call num) :=
  [SetStrokeStyle CONFIG.COLORS_BOUNDARY; SetLineWidth (num_lit 2);
   SetLineDash [num_lit 10; num_lit 10]; BeginPath;
   MoveTo (num_div w (num_lit 2)) (num_lit 0);
   LineTo (num_div w (num_lit 2)) h; Stroke; SetLineDash []].

Definition paddle_calls (paddle : value num) : list (ctx_call num) :=
  [SetFillStyle CONFIG.PADDLE_COLOR;
   FillRect (field paddle "x") (field paddle "y")
            (field paddle "width") (field paddle "height")].

Definition ball_calls (ball : value num) : list (ctx_call num) :=
  [SetFillStyle CONFIG.BALL_COLOR; BeginPath;
   Arc (field ball "x") (field ball "y") (field ball "radius")
       (num_lit 0) (num_mul Math_PI (num_lit 2));
   Fill].

Definition score_calls (gs : value num) (w : num) : list (ctx_call num) :=
  [SetFillStyle CONFIG.COLORS_TEXT; SetFont "48px Arial";
   SetTextAlign "center";
   FillText (field gs "score1") (num_div w (num_lit 4)) (num_lit 60);
   FillText (field gs "score2")
            (num_mul (num_div w (num_lit 4)) (num_lit 3)) (num_lit 60)].

(** The values of a snapshot that [render] hands to the context, which
    converts them: the coordinates of the paddles and of the ball to
    numbers, the scores to strings. *)
Definition passed_to_context (gs : value num) : list (value num) :=
  [field (field gs "paddle1") "x"; field (field gs "paddle1") "y";
   field (field gs "paddle1") "width"; field (field gs "paddle1") "height";
   field (field gs "paddle2") "x"; field (field gs "paddle2") "y";
   field (field gs "paddle2") "width"; field (field gs "paddle2") "height";
   field (field gs "ball") "x"; field (field gs "ball") "y";
   field (field gs "ball") "radius";
   field gs "score1"; field gs "score2"].

(** *** Sample inputs *)

(** A snapshot as the server sends it, for a game world [cw] x [ch]. *)
Definition sample_snapshot (cw ch : num) : value num :=
  VObj [("paddle1", VObj [("x", VNum (num_lit 20)); ("y", VNum (num_lit 250));
                          ("width", VNum (num_lit 10));
                          ("height", VNum (num_lit 100))]);
        ("paddle2", VObj [("x", VNum (num_lit 770)); ("y", VNum (num_lit 250));
                          ("width", VNum (num_lit 10));
                          ("height", VNum (num_lit 100))]);
        ("ball", VObj [("x", VNum (num_lit 400)); ("y", VNum (num_lit 300));
                       ("radius", VNum (num_lit 8))]);
        ("score1", VNum (num_lit 0));
        ("score2", VNum (num_lit 3));
        ("canvas_width", VNum cw);
        ("canvas_height", VNum ch)].

(** The frame [{type: 'game_state', data}]. *)
Definition game_state_frame (data : value num) : frame num :=
  Json (VObj [("type", VStr "game_state"); ("data", data)]).

(** Player 1's client just after [startGame], in a container of
    [boxWidth] x [boxHeight]. *)
Definition started (boxWidth boxHeight : num) : PongGame num :=
  startGame "player1" None boxWidth boxHeight (Some "").

(** The same client once the socket is open ... *)
Definition opened (boxWidth boxHeight : num) : PongGame num :=
  after onopen (with_readyState OPEN (started boxWidth boxHeight)).

(** ... and once a first snapshot for a game world [cw] x [ch] has been
    handled. *)
Definition playing (boxWidth boxHeight cw ch : num) : PongGame num :=
  after (onmessage (game_state_frame (sample_snapshot cw ch)))
        (opened boxWidth boxHeight).

(** The client whose connection has then failed: the socket is CLOSED,
    [error] and [close] have been fired. *)
Definition disconnected (boxWidth boxHeight : num) : PongGame num :=
  after (onerror;; onclose)
        (with_readyState CLOSED (opened boxWidth boxHeight)).

End Vocabulary.

(** ** The page: listeners and the render loop *)

(** [init] as the program writes it, with the three set-up methods that
    [game.js] defines besides those of the game proper
    ([setupResetButton], [setupResponsiveCanvas], [startRenderLoop]),
    and the event loop with the listeners and callbacks they register. *)
Module Page.

Section Page.

Context {num : Type} `{JSNumber num} `{Host num}.

(** The game together with what the page holds for it:
    - [animationFrame]: a callback of [requestAnimationFrame] is
      pending;
    - [resetButton]: the page has an element with id [resetButton];
    - [clickListener]: a click listener is registered on that button. *)
Record state : Type := {
  game : PongGame num;
  animationFrame : bool;
  resetButton : bool;
  clickListener : bool
}.

Definition set_game (g : PongGame num) (p : state) : state :=
  {| game := g; animationFrame := animationFrame p;
     resetButton := resetButton p; clickListener := clickListener p |}.

Definition set_animationFrame (b : bool) (p : state) : state :=
  {| game := game p; animationFrame := b;
     resetButton := resetButton p; clickListener := clickListener p |}.

Definition set_clickListener (b : bool) (p : state) : state :=
  {| game := game p; animationFrame := animationFrame p;
     resetButton := resetButton p; clickListener := b |}.

(** Computations on the page: state and exceptions, as [JS]. *)
Definition Script (A : Type) : Type := state -> completion A * state.

#[export] Instance Script_ret : MRet Script := fun A a p => (Normal a, p).

#[export] Instance Script_bind : MBind Script := fun A B f m p =>
  match m p with
  | (Normal a, p') => f a p'
  | (Throw e, p') => (Throw e, p')
  end.

(** A method of the game, run on the page. *)
Definition method {A : Type} (c : JS num A) : Script A :=
  fun p => (fst (c (game p)), set_game (snd (c (game p))) p).

(** [requestAnimationFrame(animate)]. *)
Definition requestAnimationFrame : Script unit :=
  fun p => (Normal tt, set_animationFrame true p).

(** [animate] of [startRenderLoop]: [requestAnimationFrame] is reached
    only if [render] returns. *)
Definition animate : Script unit :=
  method render;;
  requestAnimationFrame.

(** [startRenderLoop()]. *)
Definition startRenderLoop : Script unit := animate.

(** [setupResponsiveCanvas()]: registers [handleResize] for the resizes
    of the window and calls it once. *)
Definition setupResponsiveCanvas : Script unit := method handleResize.

(** [setupResetButton()]: the listener, [resetGame], is registered only
    on a page that has the button. *)
Definition setupResetButton : Script unit :=
  fun p => (Normal tt,
            if resetButton p then set_clickListener true p else p).

(** [init()]. *)
Definition init (env : option string) : Script unit :=
  method (connectWebSocket env);;
  method setupKeyboardControls;;
  setupResetButton;;
  setupResponsiveCanvas;;
  startRenderLoop;;
  method (updateConnectionStatus "Connecting...").

(** [startGame(playerId)] on a page whose canvas container has the box
    [boxWidth] x [boxHeight], whose status element, if there is one,
    shows [status], and which has the reset button or not. *)
Definition startGame (pid : string) (env : option string)
    (boxWidth boxHeight : num) (status : option string) (button : bool)
  : state :=
  snd ((method (console_log (LogStarting pid));; init env)
         {| game := constructor pid boxWidth boxHeight status;
            animationFrame := false; resetButton := button;
            clickListener := false |}).

(** What the platform can deliver to the page. *)
Inductive event : Type :=
| SocketOpen
| SocketMessage (data : frame num)
| SocketClosing
| SocketClose (failed : bool)
| KeyDown (key : string)
| KeyUp (key : string)
| Timer
| Resize (boxWidth boxHeight : num)
| AnimationFrame
| Click.

(** The state of the socket, if there is one. *)
Definition socket (p : state) : option ready_state :=
  readyState <$> ws (game p).

(** An event can be delivered: the socket is in a state in which the
    platform fires it, the frame callback is pending, the click listener
    is registered.  The key listeners, the timer and the resize listener
    are registered by [init] for good. *)
Definition enabled (e : event) (p : state) : bool :=
  match e with
  | SocketOpen =>
    match socket p with Some CONNECTING => true | _ => false end
  | SocketMessage _ | SocketClosing =>
    match socket p with Some OPEN => true | _ => false end
  | SocketClose _ =>
    match socket p with
    | Some (CONNECTING | OPEN | CLOSING) => true
    | _ => false
    end
  | KeyDown _ | KeyUp _ | Timer | Resize _ _ => true
  | AnimationFrame => animationFrame p
  | Click => clickListener p
  end.

(** The state after the event has been handled.  The socket events, the
    keys, the timer and the resize are the tasks of [task]; the frame
    callback consumes the request and runs [animate]; the click runs the
    listener, [resetGame]. *)
Definition dispatch (e : event) (p : state) : state :=
  match e with
  | SocketOpen =>
    set_game (after onopen (with_readyState OPEN (game p))) p
  | SocketMessage data =>
    set_game (after (onmessage data) (game p)) p
  | SocketClosing =>
    set_game (with_readyState CLOSING (game p)) p
  | SocketClose failed =>
    set_game (after ((if failed then onerror else mret tt);; onclose)
                    (with_readyState CLOSED (game p))) p
  | KeyDown key => set_game (after (keydown key) (game p)) p
  | KeyUp key => set_game (after (keyup key) (game p)) p
  | Timer => set_game (after tick (game p)) p
  | Resize boxWidth boxHeight =>
    set_game (after handleResize (set_client_box boxWidth boxHeight (game p)))
             p
  | AnimationFrame => snd (animate (set_animationFrame false p))
  | Click => snd (method resetGame p)
  end.

(** One task of the event loop of the page. *)
Inductive task : state -> state -> Prop :=
| task_event p e : enabled e p = true -> task p (dispatch e p).

(** The states the page can be in. *)
Definition reachable (p : state) : Prop :=
  exists pid env boxWidth boxHeight status button,
    rtc task (startGame pid env boxWidth boxHeight status button) p.

(** A run of the page: the events handled in turn, each one skipped if
    it cannot be delivered. *)
Definition deliver (e : event) (p : state) : state :=
  if enabled e p then dispatch e p else p.

Definition run (events : list event) (p : state) : state :=
  foldl (fun p e => deliver e p) p events.

End Page.

Arguments state : clear implicits.
Arguments Script : clear implicits.
Arguments event : clear implicits.

End Page.

(** ** Vocabulary of the properties of the whole client *)

Section Client.

Context {num : Type} `{JSNumber num} `{Host num}.

Implicit Types (g : PongGame num) (v : value num).

(** A computation that relates every state to the state it leaves,
    whether it ends normally or raises. *)
Definition steps {A : Type} (R : PongGame num -> PongGame num -> Prop)
    (c : JS num A) : Prop :=
  forall g, R g (snd (c g)).

(** Two runs of a computation from related states end alike and in
    related states. *)
Definition respects {A : Type} (R : PongGame num -> PongGame num -> Prop)
    (c : JS num A) : Prop :=
  forall g1 g2, R g1 g2 ->
    fst (c g1) = fst (c g2) /\ R (snd (c g1)) (snd (c g2)).

(** The message [{type: 'reset'}]. *)
Definition reset_message : value num := VObj [("type", VStr "reset")].

(** The messages of the client: the four directional intents and, where
    [withReset] allows it, the reset message. *)
Definition client_message (withReset : bool) (m : value num) : Prop :=
  m = intent "UP" \/ m = intent "DOWN" \/ m = intent "LEFT"
  \/ m = intent "RIGHT" \/ (withReset = true /\ m = reset_message).

(** The text that the status element shows in a state of the socket. *)
Definition status_of (r : ready_state) (text : string) : Prop :=
  match r with
  | CONNECTING => text = "Status: Connecting..."
  | OPEN | CLOSING =>
    text = "Status: Connected"
    \/ text = "Status: Waiting for other player..."
  | CLOSED => text = "Status: Disconnected"
  end.

(** What the status element shows and the state of the socket; the
    text follows the socket (a page without the element shows
    nothing). *)
Definition status_view g : option string * option ready_state :=
  (connectionStatus g, readyState <$> ws g).

Definition status_follows_socket (sv : option string * option ready_state)
  : Prop :=
  match sv with
  | (Some text, Some r) => status_of r text
  | (Some _, None) => False
  | (None, _) => True
  end.

(** The display transform: the CSS box and the two scale factors. *)
Definition display g : option num * option num * num * num :=
  (style_width g, style_height g, scaleX g, scaleY g).

(** The resolution of the canvas. *)
Definition resolution g : num * num := (width g, height g).

(** The snapshot carries both dimensions, truthy: [cw] and [ch]. *)
Definition dimensions v (cw ch : value num) : Prop :=
  property v "canvas_width" = Normal cw /\
  property v "canvas_height" = Normal ch /\
  ToBoolean cw = true /\ ToBoolean ch = true.

(** The socket and the flag [this.connected]. *)
Definition connection g : option (WebSocket num) * bool :=
  (ws g, connected g).

(** The geometry: the flag of the dimensions, the display transform and
    the resolution. *)
Definition geometry g
  : bool * (option num * option num * num * num) * (num * num) :=
  (initialDimensionsSet g, display g, resolution g).

(** The snapshot and the resolution of the canvas. *)
Definition scene g : value num * (num * num) := (gameState g, resolution g).

(** The resolution of the canvas goes with the dimensions [cw] and [ch]
    of a snapshot: it is what the canvas reads after they have been
    assigned to it, or it is [===] to them. *)
Definition resolution_of g (cw ch : value num) : Prop :=
  (width g = reflect_width (number cw) /\
   height g = reflect_height (number ch))
  \/ (strict_equals_number (width g) cw = true /\
      strict_equals_number (height g) ch = true).


(** The display transform as the constructor leaves it, and the height
    of [CONFIG]: what holds of the geometry until the dimensions of a
    snapshot have been taken over. *)
Definition untransformed g : Prop :=
  display g = (None, None, num_lit 1, num_lit 1) /\
  height g = reflect_height (num_lit CONFIG.CANVAS_HEIGHT).

(** [render] only adds calls on the context: the state it leaves is the
    state it started from with further calls. *)
Definition paints g g' : Prop :=
  exists calls, g' = set_ctx (ctx g ++ calls) g.

(** Two states show the same scene, and each has received the same
    calls since its context held [before1], resp. [before2]. *)
Definition painting (before1 before2 : list (ctx_call num)) g1 g2 : Prop :=
  scene g1 = scene g2 /\
  exists calls,
    ctx g1 = (before1 ++ calls)%list /\ ctx g2 = (before2 ++ calls)%list.

(** A handler only queues messages, each of them [allowed]. *)
Definition queues (allowed : value num -> Prop) g g' : Prop :=
  exists msgs, g' = enqueue msgs g /\ Forall allowed msgs.

(** What handling an inbound frame can do to a state [g]: nothing;
    write a line to the console; write the line and show the waiting
    status; replace the snapshot and leave the geometry alone; replace
    the snapshot, take its width over and raise at the conversion of its
    height; replace the snapshot and bring the geometry in line with
    it. *)
Inductive inbound_effect (g : PongGame num)
  : completion unit * PongGame num -> Prop :=
| effect_none r : inbound_effect g (r, g)
| effect_log text :
    inbound_effect g
      (Normal tt, set_console (console g ++ [LogMessage text]) g)
| effect_waiting text :
    inbound_effect g
      (Normal tt,
       after (updateConnectionStatus "Waiting for other player...")
             (set_console (console g ++ [LogMessage text]) g))
| effect_snapshot r data :
    (forall cw ch, dimensions data cw ch ->
       (r = Normal tt /\
        initialDimensionsSet g = true /\
        strict_equals_number (width g) cw = true /\
        strict_equals_number (height g) ch = true)
       \/ (r = Throw TypeError /\ converts cw = false)) ->
    inbound_effect g (r, set_gameState data g)
| effect_width data cw ch :
    dimensions data cw ch ->
    converts cw = true -> converts ch = false ->
    inbound_effect g
      (Throw TypeError,
       set_width (reflect_width (number cw)) (set_gameState data g))
| effect_geometry data cw ch entry :
    dimensions data cw ch ->
    converts cw = true -> converts ch = true ->
    initialDimensionsSet g = false
    \/ strict_equals_number (width g) cw = false
    \/ strict_equals_number (height g) ch = false ->
    entry = (if initialDimensionsSet g
             then LogDimensionsUpdated (reflect_width (number cw))
                                       (reflect_height (number ch))
             else LogInitialDimensions (reflect_width (number cw))
                                       (reflect_height (number ch))) ->
    inbound_effect g
      (Normal tt,
       after handleResize
         (set_initialDimensionsSet true
            (set_console (console g ++ [entry])
               (set_height (reflect_height (number ch))
                  (set_width (reflect_width (number cw))
                     (set_gameState data g)))))).

(** The state with the fields that a handler may write set to fixed
    values: what is left is what the handler cannot touch.  [render]
    writes the calls on the context; [handleResize] the display
    transform and the console; [onmessage] those, the snapshot, the
    resolution, the flag of the dimensions and the status text; the
    handlers of the socket the flag [this.connected], the status text
    and the console; the key listeners the set of pressed keys; the
    sends the queue of the socket. *)
Definition sans_ctx g : PongGame num := set_ctx [] g.

Definition sans_display g : PongGame num :=
  set_console []
    (set_scaleY (num_lit 0)
       (set_scaleX (num_lit 0)
          (set_style_height (num_lit 0) (set_style_width (num_lit 0) g)))).

Definition sans_inbound g : PongGame num :=
  set_connectionStatus None
    (set_initialDimensionsSet false
       (set_height (num_lit 0)
          (set_width (num_lit 0) (set_gameState VNull (sans_display g))))).

Definition sans_flag g : PongGame num :=
  set_connectionStatus None (set_connected false (set_console [] g)).

Definition sans_keys g : PongGame num := set_pressedKeys ∅ g.

Definition sans_queue g : PongGame num :=
  set_ws ((fun w => {| url := url w; readyState := readyState w;
                       sent := [] |}) <$> ws g) g.

(** Player 1's page just after [startGame], with the status element and
    the reset button, in a container of [boxWidth] x [boxHeight]. *)
Definition loaded (boxWidth boxHeight : num) : Page.state num :=
  Page.startGame "player1" None boxWidth boxHeight (Some "") true.

End Client.

(** * Properties *)

Local Open Scope list_scope.

(** ** Numbers *)

Lemma float_zero_falsy (n : float) :
  PrimFloat.eqb n (float_lit 0) = true ->
  negb (PrimFloat.is_zero n || PrimFloat.is_nan n) = false.
Proof.
  intros E. unfold PrimFloat.is_zero.
  change PrimFloat.zero with (float_lit 0). now rewrite E.
Qed.

#[export] Instance float_laws : JSNumberLaws float.
Proof. constructor. exact float_zero_falsy. Qed.

(** ** Running computations *)

Section Running.

Context {num : Type} `{JSNumber num} `{Host num}.

Implicit Types (g : PongGame num) (A B C : Type).

Lemma run_ret A (a : A) g : (mret a : JS num A) g = (Normal a, g).
Proof. reflexivity. Qed.

Lemma run_read A B (f : PongGame num -> A) (k : A -> JS num B) g :
  (read f ≫= k) g = k (f g) g.
Proof. reflexivity. Qed.

Lemma run_write B (f : PongGame num -> PongGame num) (k : unit -> JS num B) g :
  (write f ≫= k) g = k tt (f g).
Proof. reflexivity. Qed.

Lemma run_lift_normal A B (a : A) (k : A -> JS num B) g :
  (lift (Normal a) ≫= k) g = k a g.
Proof. reflexivity. Qed.

Lemma run_lift_throw A B (e : exn) (k : A -> JS num B) g :
  (lift (Throw e) ≫= k) g = (Throw e, g).
Proof. reflexivity. Qed.

Lemma run_ret_bind A B (a : A) (k : A -> JS num B) g :
  (mret a ≫= k) g = k a g.
Proof. reflexivity. Qed.

Lemma run_console_log B entry (k : unit -> JS num B) g :
  (console_log entry ≫= k) g = k tt (set_console (console g ++ [entry]) g).
Proof. reflexivity. Qed.

Lemma run_call_ctx B c (k : unit -> JS num B) g :
  (call_ctx c ≫= k) g = k tt (set_ctx (ctx g ++ [c]) g).
Proof. reflexivity. Qed.

Lemma run_console_log_last entry g :
  console_log entry g = (Normal tt, set_console (console g ++ [entry]) g).
Proof. reflexivity. Qed.

Lemma run_call_ctx_last c g :
  call_ctx c g = (Normal tt, set_ctx (ctx g ++ [c]) g).
Proof. reflexivity. Qed.

Lemma run_write_last (f : PongGame num -> PongGame num) g :
  write f g = (Normal tt, f g).
Proof. reflexivity. Qed.

Lemma run_lift_last A (c : completion A) g : lift c g = (c, g).
Proof. reflexivity. Qed.

Lemma run_assoc A B C (m : JS num A) (k1 : A -> JS num B)
    (k2 : B -> JS num C) g :
  ((m ≫= k1) ≫= k2) g = (m ≫= (fun a => k1 a ≫= k2)) g.
Proof.
  unfold mbind, JS_bind. destruct (m g) as [[a | e] g1]; reflexivity.
Qed.

Lemma run_bind_normal A B (m : JS num A) (k : A -> JS num B) g a g' :
  m g = (Normal a, g') -> (m ≫= k) g = k a g'.
Proof. intros E. unfold mbind, JS_bind. now rewrite E. Qed.

(** Only an object has a property that is not [undefined]. *)
Lemma property_defined (v : value num) key r :
  property v key = Normal r -> r <> VUndefined -> ToBoolean v = true.
Proof.
  destruct v; simpl; intros E Hr; try discriminate; try reflexivity;
    injection E as <-; now destruct Hr.
Qed.

Lemma property_field (v : value num) key :
  nullish v = false -> property v key = Normal (field v key).
Proof.
  unfold field. destruct v; cbn; intros E; try discriminate; reflexivity.
Qed.

Lemma truthy_not_nullish (v : value num) :
  ToBoolean v = true -> nullish v = false.
Proof. destruct v; cbn; intros E; try discriminate; reflexivity. Qed.

(** Induction on a value, through the elements of its arrays. *)
Lemma value_elements_ind (P : value num -> Prop) :
  P VUndefined -> P VNull -> (forall b, P (VBool b)) ->
  (forall n, P (VNum n)) -> (forall s, P (VStr s)) ->
  (forall items, Forall P items -> P (VArr items)) ->
  (forall props, P (VObj props)) ->
  forall v, P v.
Proof.
  intros Hu Hn Hb Hm Hs Ha Ho. fix IH 1. intros [| | b | n | s | items | props].
  - exact Hu.
  - exact Hn.
  - apply Hb.
  - apply Hm.
  - apply Hs.
  - apply Ha. revert items. fix IHitems 1. intros [| item rest].
    + constructor.
    + constructor; [apply IH | apply IHitems].
  - apply Ho.
Qed.

(** A conversion raises nothing but a TypeError. *)
Lemma ToString_raises (v : value num) e :
  ToString v = Throw e -> e = TypeError.
Proof.
  revert e. induction v as [| | b | n | s | items IH | props]
    using value_elements_ind; intros e; cbn [ToString]; try discriminate.
  - induction IH as [| item rest Hitem _ IHrest]; [discriminate |].
    cbn [Array_join].
    destruct (match item with
              | VUndefined | VNull => Normal EmptyString
              | _ => ToString item
              end) as [first | e'] eqn:E.
    + destruct rest as [| item' rest']; [discriminate |].
      destruct (Array_join ToString (item' :: rest')) as [others | e'']
        eqn:E'; [discriminate |].
      intros [= <-]. now apply IHrest.
    + intros [= <-]. destruct item; try discriminate; now apply Hitem.
  - destruct (hasOwnProperty props "toString"); [| discriminate].
    now intros [= <-].
Qed.

Lemma converts_ToNumber (v : value num) :
  converts v = true -> ToNumber v = Normal (number v).
Proof.
  unfold converts, number. destruct v; cbn [ToNumber]; try reflexivity;
    destruct (ToString _); try discriminate; reflexivity.
Qed.

Lemma converts_ToString (v : value num) :
  converts v = true -> exists s, ToString v = Normal s.
Proof.
  unfold converts. destruct (ToString v) as [s | e]; [| discriminate].
  intros _. now exists s.
Qed.

Lemma raises_ToString (v : value num) :
  converts v = false -> ToString v = Throw TypeError.
Proof.
  unfold converts. destruct (ToString v) as [s | e] eqn:E; [discriminate |].
  intros _. f_equal. exact (ToString_raises v e E).
Qed.

Lemma raises_ToNumber (v : value num) :
  converts v = false -> ToNumber v = Throw TypeError.
Proof.
  intros Hc. pose proof (raises_ToString v Hc) as E.
  destruct v; try discriminate; cbn [ToNumber]; now rewrite E.
Qed.

End Running.

(** Brings a state back to a record of its fields. *)
Ltac state_norm :=
  cbn [playerId width height style_width style_height clientWidth
       clientHeight ctx scaleX scaleY initialDimensionsSet ws gameState
       connected pressedKeys connectionStatus console
       set_width set_height set_style_width set_style_height set_client_box
       set_ctx set_scaleX set_scaleY set_initialDimensionsSet set_ws
       set_gameState set_connected set_pressedKeys set_connectionStatus
       set_console ToNumber ToString].

(** Runs the next step of a computation. *)
Ltac js_step1 :=
  first [ rewrite run_assoc | rewrite run_read | rewrite run_write
        | rewrite run_lift_normal | rewrite run_lift_throw
        | rewrite run_ret_bind | rewrite run_console_log
        | rewrite run_call_ctx | rewrite run_ret
        | rewrite run_console_log_last | rewrite run_call_ctx_last
        | rewrite run_write_last | rewrite run_lift_last ];
  state_norm.

(** Runs the straight-line part of a computation. *)
Ltac js_step := repeat js_step1.

(** Unfolds the sequencing of a computation altogether. *)
Ltac js_run :=
  unfold when, console_log, call_ctx, mbind, JS_bind, mret, JS_ret, lift,
    read, write;
  cbn beta iota.

(** ** The dimension reconciler *)

Section Reconciler.

Context {num : Type} `{JSNumber num} `{Host num}.

Implicit Types (g : PongGame num).

(** Once a snapshot and the dimensions are in place, [handleResize] runs
    to its end and writes the fitted box and the two scale factors. *)
Lemma handleResize_runs g cw ch :
  ToBoolean (gameState g) = true ->
  initialDimensionsSet g = true ->
  property (gameState g) "canvas_width" = Normal cw ->
  property (gameState g) "canvas_height" = Normal ch ->
  converts cw = true -> converts ch = true ->
  let ratio := num_div (number cw) (number ch) in
  let dw := fit_width (clientWidth g) (clientHeight g) ratio in
  let dh := fit_height (clientWidth g) (clientHeight g) ratio in
  handleResize g =
    (Normal tt,
     set_console (console g ++ [LogScalingApplied; LogGameWorld cw ch;
                                LogDisplaySize dw dh;
                                LogScaleFactor (num_div dw (number cw))])
       (set_scaleY (num_div dh (number ch))
          (set_scaleX (num_div dw (number cw))
             (set_style_height dh (set_style_width dw g))))).
Proof.
  intros Hb Hi Hw Hh Cw Ch ratio dw dh. subst dw dh.
  destruct (converts_ToString cw Cw) as [sw Sw].
  destruct (converts_ToString ch Ch) as [sh Sh].
  unfold handleResize, fit_width, fit_height, fit_wide.
  js_step. rewrite Hb, Hi. cbn [negb orb].
  js_step. rewrite Hw, Hh. js_step.
  rewrite (converts_ToNumber cw Cw), (converts_ToNumber ch Ch). js_step.
  fold ratio.
  destruct (num_gt (num_div (clientWidth g) (clientHeight g)) ratio);
    repeat (progress (js_step;
                      rewrite ?(converts_ToNumber cw Cw),
                        ?(converts_ToNumber ch Ch), ?Sw, ?Sh));
    rewrite <- !app_assoc; reflexivity.
Qed.

(** Past its guard, [handleResize] raises at the first [/] if the
    conversion of one of the two dimensions does, having written
    nothing. *)
Lemma handleResize_raises g cw ch :
  ToBoolean (gameState g) = true ->
  initialDimensionsSet g = true ->
  property (gameState g) "canvas_width" = Normal cw ->
  property (gameState g) "canvas_height" = Normal ch ->
  converts cw && converts ch = false ->
  handleResize g = (Throw TypeError, g).
Proof.
  intros Hb Hi Hw Hh Hc. unfold handleResize.
  js_step. rewrite Hb, Hi. cbn [negb orb].
  js_step. rewrite Hw, Hh. js_step.
  destruct (converts cw) eqn:Cw.
  - rewrite (converts_ToNumber cw Cw). js_step.
    rewrite (raises_ToNumber ch Hc). js_step. reflexivity.
  - rewrite (raises_ToNumber cw Cw). js_step. reflexivity.
Qed.

(** Without a snapshot, or before the dimensions are set, [handleResize]
    does nothing. *)
Lemma handleResize_guard g :
  ToBoolean (gameState g) = false \/ initialDimensionsSet g = false ->
  handleResize g = (Normal tt, g).
Proof.
  intros Hg. unfold handleResize. js_step.
  destruct Hg as [-> | ->]; [reflexivity | now rewrite orb_true_r].
Qed.

End Reconciler.

(** ** What the handlers leave alone *)

Section Frames.

Context {num : Type} `{JSNumber num} `{Host num}.

Implicit Types (g : PongGame num) (A B V : Type).

Lemma keeps_after A V (view : PongGame num -> V) (c : JS num A) g :
  keeps view c -> view (after c g) = view g.
Proof. intros Hc. apply Hc. Qed.

Lemma keeps_ret A V (view : PongGame num -> V) (a : A) :
  keeps view (mret a : JS num A).
Proof. intros g. reflexivity. Qed.

Lemma keeps_read A V (view : PongGame num -> V) (f : PongGame num -> A) :
  keeps view (read f).
Proof. intros g. reflexivity. Qed.

Lemma keeps_lift A V (view : PongGame num -> V) (c : completion A) :
  keeps view (lift c : JS num A).
Proof. intros g. reflexivity. Qed.

Lemma keeps_write V (view : PongGame num -> V)
    (f : PongGame num -> PongGame num) :
  (forall g, view (f g) = view g) -> keeps view (write f).
Proof. intros Hf g. apply Hf. Qed.

Lemma keeps_bind A B V (view : PongGame num -> V) (m : JS num A)
    (k : A -> JS num B) :
  keeps view m -> (forall a, keeps view (k a)) -> keeps view (m ≫= k).
Proof.
  intros Hm Hk g. unfold mbind, JS_bind.
  specialize (Hm g). destruct (m g) as [[a | e] g1]; cbn in *.
  - now rewrite Hk.
  - exact Hm.
Qed.

Lemma keeps_when V (view : PongGame num -> V) (b : bool)
    (body : JS num unit) :
  keeps view body -> keeps view (when b body).
Proof. intros Hb. destruct b; [exact Hb | apply keeps_ret]. Qed.

(** Decomposes a computation into its steps; [known] closes the steps
    that are computations already dealt with. *)
Ltac keeps_with known :=
  repeat match goal with
    | |- @keeps _ _ _ _ (mret _) => apply keeps_ret
    | |- @keeps _ _ _ _ (read _) => apply keeps_read
    | |- @keeps _ _ _ _ (lift _) => apply keeps_lift
    | |- @keeps _ _ _ _ (console_log _) =>
        apply keeps_write; intros ?; reflexivity
    | |- @keeps _ _ _ _ (call_ctx _) =>
        apply keeps_write; intros ?; reflexivity
    | |- @keeps _ _ _ _ (updateConnectionStatus _) =>
        let g0 := fresh "g" in
        apply keeps_write; intros g0; destruct (connectionStatus g0);
        reflexivity
    | |- @keeps _ _ _ _ (write _) => apply keeps_write; intros ?; reflexivity
    | |- @keeps _ _ _ _ (when _ _) => apply keeps_when
    | |- @keeps _ _ _ _ (_ ≫= _) => apply keeps_bind; [| intros ?]
    | |- @keeps _ _ _ _ (if ?b then _ else _) => destruct b
    | |- @keeps _ _ _ _ (let '(_, _) := ?p in _) => destruct p
    | |- @keeps _ _ _ _ (match ?x with Some _ => _ | None => _ end) =>
        destruct x
    | |- @keeps _ _ _ _ (match ?x with CONNECTING => _ | OPEN => _
                                  | CLOSING => _ | CLOSED => _ end) =>
        destruct x
    | |- _ => known
    end.

(** The reconciler, the renderer and the key listeners touch neither the
    flag and socket nor the snapshot and its flag. *)
Lemma handleResize_keeps_link : keeps link (handleResize (num := num)).
Proof. unfold handleResize. keeps_with fail. Qed.

Lemma handleResize_keeps_snapshot :
  keeps snapshot_view (handleResize (num := num)).
Proof. unfold handleResize. keeps_with fail. Qed.

Lemma drawPaddle_keeps V (view : PongGame num -> V) (paddle : value num) :
  (forall g calls, view (set_ctx calls g) = view g) ->
  keeps view (drawPaddle paddle).
Proof.
  intros Hv. unfold drawPaddle, context_fillRect, call_ctx.
  repeat first [ apply keeps_bind; [| intros ?] | apply keeps_lift
               | apply keeps_write; intros ?; apply Hv ].
Qed.

Lemma render_keeps_link : keeps link (render (num := num)).
Proof.
  unfold render, drawText, drawCenterLine, drawBall, drawScores, context_arc,
    context_fillRect, context_fillText.
  keeps_with ltac:(apply drawPaddle_keeps; reflexivity).
Qed.

Lemma render_keeps_snapshot : keeps snapshot_view (render (num := num)).
Proof.
  unfold render, drawText, drawCenterLine, drawBall, drawScores, context_arc,
    context_fillRect, context_fillText.
  keeps_with ltac:(apply drawPaddle_keeps; reflexivity).
Qed.

Lemma keydown_keeps V (view : PongGame num -> V) key :
  (forall g keys, view (set_pressedKeys keys g) = view g) ->
  keeps view (keydown (num := num) key).
Proof. intros Hv g. apply Hv. Qed.

Lemma keyup_keeps V (view : PongGame num -> V) key :
  (forall g keys, view (set_pressedKeys keys g) = view g) ->
  keeps view (keyup (num := num) key).
Proof. intros Hv g. apply Hv. Qed.

(** A send changes the messages queued, not the state of the socket. *)
Lemma WebSocket_send_keeps_link g w (data : value num) :
  ws g = Some w -> link (snd (WebSocket_send w data g)) = link g.
Proof.
  intros E. unfold WebSocket_send, link.
  destruct (readyState w) eqn:R; cbn; rewrite E; cbn; now rewrite ?R.
Qed.

Lemma resetGame_keeps_link : keeps link (resetGame (num := num)).
Proof.
  intros g. unfold resetGame. js_step.
  destruct (ws g) as [w |] eqn:E; [| reflexivity].
  destruct (connected g); [| reflexivity].
  now apply WebSocket_send_keeps_link.
Qed.

Lemma sendInput_keeps_link (action : value num) :
  keeps link (sendInput action).
Proof.
  intros g. unfold sendInput. js_step.
  destruct (ws g) as [w |] eqn:E; [| reflexivity].
  destruct (connected g); [| reflexivity].
  now apply WebSocket_send_keeps_link.
Qed.

Lemma resetGame_keeps_snapshot : keeps snapshot_view (resetGame (num := num)).
Proof. unfold resetGame, WebSocket_send. keeps_with fail. Qed.

Lemma sendInput_keeps_snapshot (action : value num) :
  keeps snapshot_view (sendInput action).
Proof. unfold sendInput, WebSocket_send. keeps_with fail. Qed.

Lemma tick_keeps_link : keeps link (tick (num := num)).
Proof. unfold tick. keeps_with ltac:(apply sendInput_keeps_link). Qed.

Lemma tick_keeps_snapshot : keeps snapshot_view (tick (num := num)).
Proof. unfold tick. keeps_with ltac:(apply sendInput_keeps_snapshot). Qed.

(** The message handler touches neither the flag [this.connected] nor
    the socket. *)
Lemma onmessage_keeps_link (data : frame num) : keeps link (onmessage data).
Proof.
  unfold onmessage.
  destruct data as [| message];
    keeps_with ltac:(apply handleResize_keeps_link).
Qed.

(** The handlers of the socket touch neither the snapshot nor its
    flag. *)
Lemma onopen_keeps_snapshot : keeps snapshot_view (onopen (num := num)).
Proof. unfold onopen. keeps_with fail. Qed.

Lemma onclose_keeps_snapshot : keeps snapshot_view (onclose (num := num)).
Proof. unfold onclose. keeps_with fail. Qed.

Lemma onerror_keeps_snapshot : keeps snapshot_view (onerror (num := num)).
Proof. unfold onerror. keeps_with fail. Qed.

Lemma with_readyState_snapshot r g :
  snapshot_view (with_readyState r g) = snapshot_view g.
Proof. unfold with_readyState. now destruct (ws g). Qed.

End Frames.

(** ** Invariants of the event loop *)

Section Invariants.

Context {num : Type} `{JSNumber num} `{Host num}.

Implicit Types (g : PongGame num).

(** *** The flag [this.connected] follows the socket *)

Lemma startGame_link pid env boxWidth boxHeight status :
  link (startGame pid env boxWidth boxHeight status)
  = (false, Some CONNECTING).
Proof. destruct status; reflexivity. Qed.

Lemma task_flag_follows_socket g g' :
  task g g' -> flag_follows_socket (link g) -> flag_follows_socket (link g').
Proof.
  intros T. destruct T as [g w Ew Er | g w data Ew Er | g w Ew Er
    | g w failed Ew Er | g key | g key | g | g boxWidth boxHeight | g | g].
  - intros _. unfold after, onopen, with_readyState, updateConnectionStatus.
    rewrite Ew. js_step. unfold link.
    destruct (connectionStatus g); cbn; reflexivity.
  - now rewrite keeps_after by apply onmessage_keeps_link.
  - intros _. unfold with_readyState, link. now rewrite Ew.
  - intros _. unfold after, onclose, onerror, with_readyState,
      updateConnectionStatus, link.
    rewrite Ew. destruct (connectionStatus g) eqn:Es; destruct failed;
      repeat (progress (js_step; state_norm; rewrite ?Es));
      cbn; reflexivity.
  - now rewrite keeps_after by (apply keydown_keeps; reflexivity).
  - now rewrite keeps_after by (apply keyup_keeps; reflexivity).
  - now rewrite keeps_after by apply tick_keeps_link.
  - now rewrite keeps_after by apply handleResize_keeps_link.
  - now rewrite keeps_after by apply render_keeps_link.
  - now rewrite keeps_after by apply resetGame_keeps_link.
Qed.

Lemma reachable_flag_follows_socket g :
  reachable g -> flag_follows_socket (link g).
Proof.
  intros (pid & env & boxWidth & boxHeight & status & R).
  revert g R. apply rtc_ind_r.
  - now rewrite startGame_link.
  - intros g1 g2 _ T IH. eapply task_flag_follows_socket; eassumption.
Qed.

(** *** The flag [this.initialDimensionsSet] follows the snapshot *)

Lemma dimensions_known_view g g' :
  snapshot_view g' = snapshot_view g ->
  dimensions_known g -> dimensions_known g'.
Proof.
  unfold snapshot_view, dimensions_known. intros [= Ei Es] J. rewrite Ei, Es.
  exact J.
Qed.

Lemma startGame_gameState pid env boxWidth boxHeight status :
  gameState (startGame pid env boxWidth boxHeight status) = VNull.
Proof. destruct status; reflexivity. Qed.

(** Handling a message keeps the flag in step with the snapshot: a
    snapshot with both dimensions truthy is stored only together with a
    raised flag. *)
Lemma onmessage_dimensions_known g data :
  dimensions_known g -> dimensions_known (after (onmessage data) g).
Proof.
  intros J. unfold after, onmessage.
  destruct data as [| message]; [exact J |].
  destruct (property message "type") as [type | e]; js_step; [| exact J].
  destruct (is_string type "game_state").
  - destruct (property message "data") as [d | e]; js_step; [| exact J].
    assert (K : forall s, gameState s = d ->
                 (forall cw ch, property d "canvas_width" = Normal cw ->
                    property d "canvas_height" = Normal ch ->
                    ToBoolean cw = true -> ToBoolean ch = true ->
                    converts cw = true -> converts ch = true -> False) ->
                 dimensions_known s).
    { intros s Es Hno cw ch Hw Hh Bw Bh Cw Ch. rewrite Es in Hw, Hh.
      destruct (Hno cw ch Hw Hh Bw Bh Cw Ch). }
    assert (F : forall s, initialDimensionsSet s = true -> dimensions_known s)
      by (intros s Es ? ? _ _ _ _ _ _; exact Es).
    assert (R : forall s, initialDimensionsSet s = true ->
                  dimensions_known (snd (handleResize s))).
    { intros s Es. apply F.
      change (fst (snapshot_view (snd (handleResize s))) = true).
      now rewrite handleResize_keeps_snapshot. }
    destruct (property d "canvas_width") as [cw | e] eqn:Hw; js_step;
      [| apply K; [reflexivity | discriminate]].
    destruct (ToBoolean cw) eqn:Bw; js_step.
    2:{ apply K; [reflexivity |]. intros ? ? [= <-] _ Bw' _. congruence. }
    destruct (property d "canvas_height") as [ch | e] eqn:Hh; js_step;
      [| apply K; [reflexivity | discriminate]].
    destruct (ToBoolean ch) eqn:Bh.
    2:{ apply K; [reflexivity |]. intros ? ? _ [= <-] _ Bh'. congruence. }
    unfold when at 1. js_step.
    destruct (negb (initialDimensionsSet g)
              || negb (strict_equals_number (width g) cw)
              || negb (strict_equals_number (height g) ch)) eqn:Eu;
      unfold when; js_step.
    2:{ apply F. cbn. now destruct (initialDimensionsSet g). }
    destruct (converts cw) eqn:Cw;
      [rewrite (converts_ToNumber cw Cw)
      | rewrite (raises_ToNumber cw Cw)]; js_step.
    2:{ apply K; [reflexivity |]. intros ? ? [= <-] _ _ _ Cw' _. congruence. }
    destruct (converts ch) eqn:Ch;
      [rewrite (converts_ToNumber ch Ch)
      | rewrite (raises_ToNumber ch Ch)]; js_step.
    2:{ apply K; [reflexivity |]. intros ? ? _ [= <-] _ _ _ Ch'. congruence. }
    destruct (initialDimensionsSet g) eqn:Ei; cbn [negb]; js_step;
      apply R; state_norm; auto.
  - destruct (is_string type "connected").
    + destruct (property message "message"); js_step; exact J.
    + destruct (is_string type "player_disconnected"); [| exact J].
      destruct (property message "message"); js_step; [| exact J].
      unfold updateConnectionStatus. js_step.
      destruct (connectionStatus g); exact J.
Qed.

Lemma task_dimensions_known g g' :
  task g g' -> dimensions_known g -> dimensions_known g'.
Proof.
  intros T. destruct T as [g w Ew Er | g w data Ew Er | g w Ew Er
    | g w failed Ew Er | g key | g key | g | g boxWidth boxHeight | g | g].
  - apply dimensions_known_view.
    rewrite keeps_after by apply onopen_keeps_snapshot.
    apply with_readyState_snapshot.
  - apply onmessage_dimensions_known.
  - apply dimensions_known_view, with_readyState_snapshot.
  - apply dimensions_known_view.
    rewrite keeps_after, with_readyState_snapshot; [reflexivity |].
    apply keeps_bind; [| intros ?; apply onclose_keeps_snapshot].
    destruct failed; [apply onerror_keeps_snapshot | apply keeps_ret].
  - apply dimensions_known_view.
    now rewrite keeps_after by (apply keydown_keeps; reflexivity).
  - apply dimensions_known_view.
    now rewrite keeps_after by (apply keyup_keeps; reflexivity).
  - apply dimensions_known_view.
    now rewrite keeps_after by apply tick_keeps_snapshot.
  - apply dimensions_known_view.
    now rewrite keeps_after by apply handleResize_keeps_snapshot.
  - apply dimensions_known_view.
    now rewrite keeps_after by apply render_keeps_snapshot.
  - apply dimensions_known_view.
    now rewrite keeps_after by apply resetGame_keeps_snapshot.
Qed.

Lemma reachable_dimensions_known g :
  reachable g -> dimensions_known g.
Proof.
  intros (pid & env & boxWidth & boxHeight & status & R).
  revert g R. apply rtc_ind_r.
  - intros cw ch Hw. rewrite startGame_gameState in Hw. discriminate.
  - intros g1 g2 _ T IH. eapply task_dimensions_known; eassumption.
Qed.

(** *** The sample states are reached *)

Lemma opened_reachable (boxWidth boxHeight : num) :
  reachable (opened boxWidth boxHeight).
Proof.
  unfold reachable.
  refine (ex_intro _ "player1" (ex_intro _ None (ex_intro _ boxWidth
            (ex_intro _ boxHeight (ex_intro _ (Some "") _))))).
  apply rtc_once.
  exact (task_open (startGame "player1" None boxWidth boxHeight (Some ""))
           {| url := "ws://localhost:8000/api/v1/game/ws/player1";
              readyState := CONNECTING; sent := [] |} eq_refl eq_refl).
Qed.

Lemma playing_reachable (boxWidth boxHeight cw ch : num) :
  reachable (playing boxWidth boxHeight cw ch).
Proof.
  destruct (opened_reachable boxWidth boxHeight)
    as (pid & env & W & Ht & status & R).
  exists pid, env, W, Ht, status.
  eapply rtc_r; [exact R |].
  exact (task_message (opened boxWidth boxHeight)
           {| url := "ws://localhost:8000/api/v1/game/ws/player1";
              readyState := OPEN; sent := [] |}
           (game_state_frame (sample_snapshot cw ch)) eq_refl eq_refl).
Qed.

Lemma disconnected_reachable (boxWidth boxHeight : num) :
  reachable (disconnected boxWidth boxHeight).
Proof.
  destruct (opened_reachable boxWidth boxHeight)
    as (pid & env & W & Ht & status & R).
  exists pid, env, W, Ht, status.
  eapply rtc_r; [exact R |].
  exact (task_close (opened boxWidth boxHeight)
           {| url := "ws://localhost:8000/api/v1/game/ws/player1";
              readyState := OPEN; sent := [] |} true eq_refl
           ltac:(discriminate)).
Qed.

End Invariants.

(** ** Binary64 arithmetic *)

(** *** Rounding to nearest, on numbers that stay normal *)

Section Rounding.

Local Open Scope Z_scope.

(** Turns the comparisons of a goal into inequalities. *)
Ltac compare_cases :=
  repeat match goal with
    | H : Z.compare _ _ = Gt |- _ => rewrite Z.compare_gt_iff in H
    | H : Z.compare _ _ = Lt |- _ => rewrite Z.compare_lt_iff in H
    | H : Z.compare _ _ = Datatypes.Eq |- _ => rewrite Z.compare_eq_iff in H
    | |- _ /\ _ => split
    | |- Z.compare _ _ = Gt => rewrite Z.compare_gt_iff
    | |- Z.compare _ _ = Lt => rewrite Z.compare_lt_iff
    | |- Z.compare _ _ = Datatypes.Eq => rewrite Z.compare_eq_iff
    end.

(** Halving the unit: the integer part loses its last bit [b], which
    goes to the remainder. *)
Lemma located_half N D m q b :
  0 < D -> m = N / D -> m = 2 * q + b -> 0 <= b < 2 ->
  N / (2 * D) = q /\ N mod (2 * D) = b * D + N mod D.
Proof.
  intros HD Hm Hq Hb.
  pose proof (Z.div_mod N D ltac:(lia)) as E.
  pose proof (Z.mod_pos_bound N D HD) as B.
  rewrite <- Hm in E.
  assert (E' : N = (2 * D) * q + (b * D + N mod D)) by nia.
  assert (B' : 0 <= b * D + N mod D < 2 * D) by nia.
  split.
  - symmetry. apply (Z.div_unique_pos N (2 * D) q (b * D + N mod D)); assumption.
  - symmetry. apply (Z.mod_unique_pos N (2 * D) q (b * D + N mod D)); assumption.
Qed.

(** One step of the shift to the right, on a mantissa that is not
    negative: the mantissa is halved, the round bit is the bit lost, and
    the sticky bit collects the earlier ones. *)
Lemma shr_1_spec r :
  0 <= shr_m r ->
  shr_1 r = {| shr_m := shr_m r / 2; shr_r := Z.odd (shr_m r);
               shr_s := shr_r r || shr_s r |}.
Proof.
  destruct r as [[| [p | p |] |] rb sb]; cbn [shr_m shr_r shr_s shr_1];
    intros Hm; try lia; f_equal; try reflexivity.
  - apply (Z.div_unique_pos _ 2 (Z.pos p) 1); lia.
  - apply (Z.div_unique_pos _ 2 (Z.pos p) 0); lia.
Qed.

(** The step keeps the record a description of [N / D], in units twice
    as large. *)
Lemma shr_1_located N D r :
  0 <= shr_m r ->
  located N D (shr_m r) (loc_of_shr_record r) ->
  located N (2 * D) (shr_m (shr_1 r)) (loc_of_shr_record (shr_1 r)).
Proof.
  intros Hm. rewrite (shr_1_spec r Hm).
  destruct r as [m rb sb]. cbn [shr_m shr_r shr_s] in *. intros (HD & Em & Hl).
  pose proof (Z.mod_pos_bound N D HD) as B.
  pose proof (Z.div_mod m 2 ltac:(lia)) as E2.
  pose proof (Zmod_odd m) as Ho.
  destruct (located_half N D m (m / 2) (m mod 2) HD Em E2
              ltac:(destruct (Z.odd m); lia)) as [Eq' Er].
  unfold located. rewrite Eq', Er. split; [lia |]. split; [reflexivity |].
  destruct rb, sb; cbn in Hl;
    [destruct Hl as [Hn Hc] | destruct Hl as [Hn Hc]
    | destruct Hl as [Hn Hc] |];
    destruct (Z.odd m); rewrite Ho; cbn; compare_cases; lia.
Qed.

Lemma shr_1_nonneg r : 0 <= shr_m r -> 0 <= shr_m (shr_1 r).
Proof.
  intros Hm. rewrite (shr_1_spec r Hm). cbn [shr_m].
  apply Z.div_pos; lia.
Qed.

Lemma iter_shr_1_located (p : positive) :
  forall N D r,
    0 <= shr_m r ->
    located N D (shr_m r) (loc_of_shr_record r) ->
    0 <= shr_m (iter_pos shr_1 p r) /\
    located N (2 ^ Z.pos p * D) (shr_m (iter_pos shr_1 p r))
            (loc_of_shr_record (iter_pos shr_1 p r)).
Proof.
  induction p as [p IH | p IH |]; intros N D r Hm Hl; cbn [iter_pos].
  - pose proof (shr_1_nonneg r Hm) as Hm1.
    pose proof (shr_1_located N D r Hm Hl) as Hl1.
    destruct (IH N (2 * D) _ Hm1 Hl1) as [Hm2 Hl2].
    destruct (IH N _ _ Hm2 Hl2) as [Hm3 Hl3].
    split; [exact Hm3 |].
    replace (2 ^ Z.pos p~1 * D) with (2 ^ Z.pos p * (2 ^ Z.pos p * (2 * D)));
      [exact Hl3 |].
    replace (Z.pos p~1) with (Z.pos p + Z.pos p + 1) by lia.
    rewrite !Z.pow_add_r by lia. change (2 ^ 1) with 2. ring.
  - destruct (IH N D _ Hm Hl) as [Hm2 Hl2].
    destruct (IH N _ _ Hm2 Hl2) as [Hm3 Hl3].
    split; [exact Hm3 |].
    replace (2 ^ Z.pos p~0 * D) with (2 ^ Z.pos p * (2 ^ Z.pos p * D));
      [exact Hl3 |].
    replace (Z.pos p~0) with (Z.pos p + Z.pos p) by lia.
    rewrite !Z.pow_add_r by lia. ring.
  - split; [now apply shr_1_nonneg |].
    change (2 ^ 1) with 2. now apply shr_1_located.
Qed.

Lemma loc_of_shr_record_of_loc m l :
  loc_of_shr_record (shr_record_of_loc m l) = l /\
  shr_m (shr_record_of_loc m l) = m.
Proof. destruct l as [| []]; split; reflexivity. Qed.

(** Rounding to nearest, ties to even, is off by half a unit at
    most. *)
Lemma round_located N D m l :
  located N D m l ->
  2 * Z.abs (round_nearest_even m l * D - N) <= D /\
  m <= round_nearest_even m l <= m + 1.
Proof.
  intros (HD & Em & Hl).
  pose proof (Z.div_mod N D ltac:(lia)) as E. rewrite <- Em in E.
  pose proof (Z.mod_pos_bound N D HD) as B.
  destruct l as [| c]; cbn [round_nearest_even]; [lia |].
  destruct Hl as [Hn Hc].
  destruct c; [destruct (Z.even m) | |]; compare_cases; lia.
Qed.

(** The number of bits of a mantissa. *)
Lemma digits2_pos_bounds p :
  2 ^ (Z.pos (digits2_pos p) - 1) <= Z.pos p < 2 ^ Z.pos (digits2_pos p).
Proof.
  induction p as [p IH | p IH |]; cbn [digits2_pos];
    [| | cbn; lia];
    rewrite Pos2Z.inj_succ;
    replace (Z.succ (Z.pos (digits2_pos p)) - 1)
      with (Z.succ (Z.pos (digits2_pos p) - 1)) by lia;
    rewrite !Z.pow_succ_r by lia; lia.
Qed.

Lemma digits2_pos_unique p k :
  2 ^ (k - 1) <= Z.pos p < 2 ^ k -> Z.pos (digits2_pos p) = k.
Proof.
  intros Hk. pose proof (digits2_pos_bounds p) as Hd.
  set (d := Z.pos (digits2_pos p)) in *.
  destruct (Z.lt_trichotomy d k) as [L | [E | L]]; [| exact E |].
  - assert (2 ^ d <= 2 ^ (k - 1)) by (apply Z.pow_le_mono_r; lia). lia.
  - assert (0 <= k).
    { destruct (Z.neg_nonneg_cases k) as [Hn |]; [| assumption].
      rewrite (Z.pow_neg_r 2 k) in Hk by assumption. lia. }
    assert (2 ^ k <= 2 ^ (d - 1)) by (apply Z.pow_le_mono_r; lia). lia.
Qed.

Lemma shr_located N D m l e n :
  0 <= m -> located N D m l -> 0 <= n ->
  snd (shr (shr_record_of_loc m l) e n) = e + n /\
  0 <= shr_m (fst (shr (shr_record_of_loc m l) e n)) /\
  located N (2 ^ n * D) (shr_m (fst (shr (shr_record_of_loc m l) e n)))
          (loc_of_shr_record (fst (shr (shr_record_of_loc m l) e n))).
Proof.
  intros Hm Hl Hn.
  destruct (loc_of_shr_record_of_loc m l) as [El Em].
  destruct n as [| p |]; [| | lia]; cbn [shr fst snd].
  - rewrite El, Em. split; [lia |]. split; [exact Hm |].
    now rewrite Z.pow_0_r, Z.mul_1_l.
  - split; [reflexivity |].
    apply iter_shr_1_located; rewrite ?El, ?Em; assumption.
Qed.

Lemma fexp_normal e :
  -1074 <= e - 53 -> fexp prec emax e = e - 53.
Proof. intros He. unfold fexp, SpecFloat.emin, prec, emax. lia. Qed.

(** The rounding of [SpecFloat], on a quotient [N / D] in units of
    [2 ^ ex] whose integer part [mx] has 53 bits at least and which lies
    in the range of the normal numbers: the result is a normal number
    [mz * 2 ^ ez], and it is off by a relative error of 2^-53 at most
    ([9007199254740992] is 2^53). *)
Lemma binary_round_aux_normal s N D mx ex lx :
  let d := Zdigits2 mx in
  0 < mx -> located N D mx lx -> 53 <= d ->
  -1074 <= ex + d - 53 -> ex + d - 52 <= 971 ->
  exists mz ez,
    binary_round_aux prec emax s mx ex lx = S754_finite s mz ez /\
    Z.pos (digits2_pos mz) = 53 /\
    ex + d - 53 <= ez <= ex + d - 52 /\
    9007199254740992 * Z.abs (Z.pos mz * 2 ^ (ez - ex) * D - N) <= N.
Proof.
  intros d Hmx Hl Hd Hlo Hhi.
  destruct mx as [| p |]; try lia. cbn [Zdigits2] in d.
  pose proof (digits2_pos_bounds p) as Hp. fold d in Hp.
  set (n := d - 53).
  assert (P52 : 2 ^ 52 = 4503599627370496) by reflexivity.
  assert (P53 : 2 ^ 53 = 9007199254740992) by reflexivity.
  assert (Pn : 0 < 2 ^ n) by (apply Z.pow_pos_nonneg; lia).
  unfold binary_round_aux.
  (* the first shift *)
  unfold shr_fexp at 1. cbn [Zdigits2]. fold d.
  rewrite (fexp_normal (d + ex)) by lia.
  replace (d + ex - 53 - ex) with n by lia.
  destruct (shr_located N D (Z.pos p) lx ex n ltac:(lia) Hl ltac:(lia))
    as (Ee & Hm1 & Hl1).
  destruct (shr (shr_record_of_loc (Z.pos p) lx) ex n) as [r1 e1].
  cbn [fst snd] in Ee, Hm1, Hl1. subst e1.
  set (m1 := shr_m r1) in *. set (l1 := loc_of_shr_record r1) in *.
  set (X := 2 ^ n * D) in *.
  assert (HX : 0 < X) by (destruct Hl as [HD _]; unfold X; lia).
  assert (Em1 : m1 = Z.pos p / 2 ^ n).
  { destruct Hl as (HD & Ep & _). destruct Hl1 as (_ & E1 & _).
    rewrite E1, Ep. unfold X. rewrite (Z.mul_comm (2 ^ n) D).
    symmetry. apply Z.div_div; lia. }
  assert (Dn : 2 ^ d = 2 ^ n * 9007199254740992).
  { rewrite <- P53, <- Z.pow_add_r by lia. f_equal. lia. }
  assert (Dn' : 2 ^ (d - 1) = 2 ^ n * 4503599627370496).
  { rewrite <- P52, <- Z.pow_add_r by lia. f_equal. lia. }
  assert (B1 : 4503599627370496 <= m1 < 9007199254740992).
  { rewrite Em1. split.
    - apply Z.div_le_lower_bound; lia.
    - apply Z.div_lt_upper_bound; lia. }
  (* the rounding *)
  destruct (round_located N X m1 l1 Hl1) as [Hr Hb].
  set (m2 := round_nearest_even m1 l1) in *.
  assert (HN : X * 4503599627370496 <= N).
  { destruct Hl1 as (_ & E1 & _).
    pose proof (Z.mul_div_le N X HX) as L. rewrite <- E1 in L. nia. }
  (* the second shift *)
  unfold shr_fexp.
  destruct (Z.eq_dec m2 9007199254740992) as [E2 | N2].
  - rewrite E2. change (Zdigits2 9007199254740992) with 54.
    rewrite (fexp_normal (54 + (ex + n))) by lia.
    replace (54 + (ex + n) - 53 - (ex + n)) with 1 by lia.
    cbn [shr shr_record_of_loc iter_pos shr_1 shr_m].
    replace (ex + n + 1 <=? emax - prec) with true
      by (symmetry; apply Z.leb_le; unfold emax, prec; lia).
    eexists _, _. split; [reflexivity |].
    split; [reflexivity |]. split; [lia |].
    replace (ex + n + 1 - ex) with (n + 1) by lia.
    rewrite Z.pow_add_r by lia. change (2 ^ 1) with 2.
    fold X in Hr. unfold X in *. nia.
  - destruct m2 as [| p2 |] eqn:Ep2; try lia.
    assert (Dp2 : Z.pos (digits2_pos p2) = 53)
      by (apply digits2_pos_unique; change (53 - 1) with 52; lia).
    cbn [Zdigits2]. rewrite Dp2.
    rewrite (fexp_normal (53 + (ex + n))) by lia.
    replace (53 + (ex + n) - 53 - (ex + n)) with 0 by lia.
    cbn [shr shr_record_of_loc shr_m].
    replace (ex + n <=? emax - prec) with true
      by (symmetry; apply Z.leb_le; unfold emax, prec; lia).
    exists p2, (ex + n). split; [reflexivity |].
    split; [exact Dp2 |]. split; [lia |].
    replace (ex + n - ex) with n by lia.
    unfold X in *. nia.
Qed.

Lemma digits2_pos_53 m :
  Z.pos (digits2_pos m) = 53 ->
  4503599627370496 <= Z.pos m < 9007199254740992.
Proof.
  intros E. pose proof (digits2_pos_bounds m) as B. rewrite E in B.
  exact B.
Qed.

(** The product of two positive normal numbers, where it is in the
    range of the normal numbers. *)
Lemma SFmul_normal mx ex my ey :
  Z.pos (digits2_pos mx) = 53 -> Z.pos (digits2_pos my) = 53 ->
  -1074 <= ex + ey + 52 -> ex + ey + 54 <= 971 ->
  exists mz ez,
    SFmul prec emax (S754_finite false mx ex) (S754_finite false my ey)
    = S754_finite false mz ez /\
    Z.pos (digits2_pos mz) = 53 /\
    ex + ey + 52 <= ez <= ex + ey + 54 /\
    9007199254740992
    * Z.abs (Z.pos mz * 2 ^ (ez - (ex + ey)) - Z.pos mx * Z.pos my)
    <= Z.pos mx * Z.pos my.
Proof.
  intros Dx Dy Hlo Hhi.
  pose proof (digits2_pos_53 mx Dx) as Bx.
  pose proof (digits2_pos_53 my Dy) as By.
  cbn [SFmul xorb].
  assert (Hd : Zdigits2 (Z.pos (mx * my)) = 105
               \/ Zdigits2 (Z.pos (mx * my)) = 106).
  { cbn [Zdigits2].
    assert (L1 : 2 ^ 104 <= Z.pos mx * Z.pos my).
    { change (2 ^ 104) with (4503599627370496 * 4503599627370496).
      apply Z.mul_le_mono_nonneg; lia. }
    assert (L2 : Z.pos mx * Z.pos my < 2 ^ 106).
    { change (2 ^ 106) with (9007199254740992 * 9007199254740992).
      apply Z.mul_lt_mono_nonneg; lia. }
    destruct (Z.lt_ge_cases (Z.pos mx * Z.pos my) (2 ^ 105)) as [L | L];
      [left | right]; apply digits2_pos_unique; rewrite Pos2Z.inj_mul;
      [change (105 - 1) with 104 | change (106 - 1) with 105];
      split; assumption. }
  pose proof (binary_round_aux_normal false (Z.pos (mx * my)) 1
                (Z.pos (mx * my)) (ex + ey) loc_Exact) as K.
  cbv zeta in K. set (d := Zdigits2 (Z.pos (mx * my))) in *.
  destruct K as (mz & ez & E & Dz & Be & Err).
  - reflexivity.
  - split; [reflexivity |]. rewrite Z.div_1_r, Z.mod_1_r.
    split; reflexivity.
  - clearbody d. clear - Hd. lia.
  - clearbody d. clear - Hd Hlo. lia.
  - clearbody d. clear - Hd Hhi. lia.
  - exists mz, ez. split; [exact E |]. split; [exact Dz |].
    split; [clearbody d; clear - Hd Be; lia |].
    rewrite Pos2Z.inj_mul, Z.mul_1_r in Err. exact Err.
Qed.

(** The location that the division computes from the remainder. *)
Lemma new_location_located N D :
  0 < D -> located N D (N / D) (new_location D (N mod D)).
Proof.
  intros HD. pose proof (Z.mod_pos_bound N D HD) as B.
  split; [exact HD |]. split; [reflexivity |].
  unfold new_location, new_location_even, new_location_odd.
  destruct (Z.even D) eqn:Ev; destruct (Z.eqb_spec (N mod D) 0) as [E0 | N0];
    try exact E0; (split; [exact N0 |]).
  - reflexivity.
  - assert (Ho : Z.odd D = true) by (rewrite <- Z.negb_even, Ev; reflexivity).
    apply Z.odd_spec in Ho as [k Hk].
    destruct (Z.compare_spec (2 * (N mod D) + 1) D) as [C | C | C];
      compare_cases; lia.
Qed.

(** The quotient of two positive normal numbers, where it is in the
    range of the normal numbers. *)
Lemma SFdiv_normal mx ex my ey :
  Z.pos (digits2_pos mx) = 53 -> Z.pos (digits2_pos my) = 53 ->
  -1074 <= ex - ey - 53 -> ex - ey - 51 <= 971 ->
  exists mz ez,
    SFdiv prec emax (S754_finite false mx ex) (S754_finite false my ey)
    = S754_finite false mz ez /\
    Z.pos (digits2_pos mz) = 53 /\
    ex - ey - 53 <= ez <= ex - ey - 51 /\
    9007199254740992
    * Z.abs (Z.pos mz * 2 ^ (ez - (ex - ey - 53)) * Z.pos my
             - Z.pos mx * 9007199254740992)
    <= Z.pos mx * 9007199254740992.
Proof.
  intros Dx Dy Hlo Hhi.
  pose proof (digits2_pos_53 mx Dx) as Bx.
  pose proof (digits2_pos_53 my Dy) as By.
  cbn [SFdiv xorb]. unfold SFdiv_core_binary. cbn [Zdigits2].
  rewrite Dx, Dy.
  replace (53 + ex - (53 + ey)) with (ex - ey) by lia.
  rewrite (fexp_normal (ex - ey)) by lia.
  rewrite Z.min_l by lia.
  replace (ex - ey - (ex - ey - 53)) with 53 by lia.
  rewrite Z.shiftl_mul_pow2 by lia.
  change (2 ^ 53) with 9007199254740992.
  set (N := Z.pos mx * 9007199254740992).
  pose proof (new_location_located N (Z.pos my) ltac:(lia)) as Hl.
  unfold Z.div, Z.modulo in Hl.
  destruct (Z.div_eucl N (Z.pos my)) as [q r] eqn:Eqr.
  assert (Eq' : q = N / Z.pos my) by (unfold Z.div; rewrite Eqr; reflexivity).
  assert (Bq : 4503599627370496 <= q < 2 ^ 54).
  { rewrite Eq'. split.
    - apply Z.div_le_lower_bound; lia.
    - apply Z.div_lt_upper_bound; [lia |].
      change (2 ^ 54) with (2 * 9007199254740992). unfold N. lia. }
  destruct q as [| pq |]; try lia.
  assert (Hd : Zdigits2 (Z.pos pq) = 53 \/ Zdigits2 (Z.pos pq) = 54).
  { cbn [Zdigits2].
    destruct (Z.lt_ge_cases (Z.pos pq) 9007199254740992) as [L | L];
      [left | right]; apply digits2_pos_unique;
      change (2 ^ (53 - 1)) with 4503599627370496;
      change (2 ^ 53) with 9007199254740992;
      change (2 ^ (54 - 1)) with 9007199254740992; lia. }
  pose proof (binary_round_aux_normal false N (Z.pos my) (Z.pos pq)
                (ex - ey - 53) (new_location (Z.pos my) r)) as K.
  cbv zeta in K. set (d := Zdigits2 (Z.pos pq)) in *.
  destruct K as (mz & ez & E & Dz & Be & Err).
  - reflexivity.
  - exact Hl.
  - clearbody d. clear - Hd. lia.
  - clearbody d. clear - Hd Hlo. lia.
  - clearbody d. clear - Hd Hhi. lia.
  - exists mz, ez. split; [exact E |]. split; [exact Dz |].
    split; [clearbody d; clear - Hd Be; lia | exact Err].
Qed.

End Rounding.

(** *** Products and quotients of normal numbers *)

Section Values.

Local Open Scope Q_scope.

Lemma two_power_pos (e : Z) : 0 < 2 ^ e.
Proof. apply Qpower_0_lt. reflexivity. Qed.

Lemma two_power_plus (a b : Z) : 2 ^ (a + b) == 2 ^ a * 2 ^ b.
Proof. apply Qpower_plus. discriminate. Qed.

Lemma inject_two_power (k : Z) : (0 <= k)%Z -> inject_Z (2 ^ k) == 2 ^ k.
Proof. intros Hk. now rewrite Zpower_Qpower. Qed.

Lemma normal_in_value lo hi x :
  normal_in lo hi x ->
  exists m e,
    Prim2SF x = S754_finite false m e /\
    float_value x == inject_Z (Z.pos m) * 2 ^ e /\ 0 < float_value x.
Proof.
  intros (m & e & E & _ & _). exists m, e. split; [exact E |].
  unfold float_value. rewrite E. cbn [SF2Q]. split; [ring |].
  rewrite Qmult_1_l.
  apply Qmult_lt_0_compat; [reflexivity | apply two_power_pos].
Qed.

(** An ordinary number is a positive normal number. *)
Lemma ordinary_normal x : ordinary x = true -> normal_in (-302) 198 x.
Proof.
  unfold ordinary. rewrite andb_true_iff, FloatAxioms.leb_spec, FloatAxioms.ltb_spec.
  intros [Hlo Hhi]. pose proof (Prim2SF_valid x) as Hv.
  change (Prim2SF 0x1p-250%float)
    with (S754_finite false 4503599627370496 (-302)) in Hlo.
  change (Prim2SF 0x1p+250%float)
    with (S754_finite false 4503599627370496 198) in Hhi.
  unfold normal_in.
  destruct (Prim2SF x) as [s | s | | s m e]; try discriminate;
    try (destruct s; discriminate).
  destruct s; [discriminate |].
  unfold SFleb, SFltb in *. cbn [SFcompare] in *.
  assert (Be : (-302 <= e <= 198)%Z).
  { destruct (Z.compare_spec (-302) e) as [C1 | C1 | C1]; try discriminate;
      destruct (Z.compare_spec e 198) as [C2 | C2 | C2]; try discriminate;
      lia. }
  exists m, e. split; [reflexivity |]. split; [| exact Be].
  cbn [valid_binary] in Hv. unfold bounded, canonical_mantissa in Hv.
  apply andb_true_iff in Hv as [Hc _]. apply Z.eqb_eq in Hc.
  unfold fexp, SpecFloat.emin, prec, emax in Hc. lia.
Qed.

(** An inequality between integers, read in Q. *)
Lemma relative_error_Q (A B : Z) :
  (9007199254740992 * Z.abs (A - B) <= B)%Z ->
  within u53 (inject_Z A) (inject_Z B).
Proof.
  intros H.
  assert (H1 : (9007199254740992 * A <= 9007199254740992 * B + B)%Z) by lia.
  assert (H2 : (9007199254740992 * B <= 9007199254740992 * A + B)%Z) by lia.
  rewrite Zle_Qle in H1, H2.
  rewrite inject_Z_plus, !inject_Z_mult in H1, H2.
  unfold within, u53.
  set (a := inject_Z A) in *. set (b := inject_Z B) in *.
  change (inject_Z 9007199254740992) with (9007199254740992 # 1) in H1, H2.
  split; lra.
Qed.

Lemma within_scale eps x r t :
  0 <= t -> within eps x r -> within eps (x * t) (r * t).
Proof.
  intros Ht [H1 H2]. split.
  - rewrite Qmult_assoc. now apply Qmult_le_compat_r.
  - rewrite Qmult_assoc. now apply Qmult_le_compat_r.
Qed.

Lemma within_compat eps x x' r r' :
  x == x' -> r == r' -> within eps x r -> within eps x' r'.
Proof. intros Ex Er [H1 H2]. unfold within. rewrite <- Ex, <- Er. now split. Qed.

(** The binary64 product of two positive normal numbers is their
    product up to a relative error of 2^-53, where the exponents keep it
    a normal number. *)
Lemma mul_normal lo1 hi1 lo2 hi2 (x y : float) :
  normal_in lo1 hi1 x -> normal_in lo2 hi2 y ->
  (-1074 <= lo1 + lo2 + 52)%Z -> (hi1 + hi2 + 54 <= 971)%Z ->
  normal_in (lo1 + lo2 + 52) (hi1 + hi2 + 54) (x * y)%float /\
  within u53 (float_value (x * y)%float) (float_value x * float_value y).
Proof.
  intros (mx & ex & Ex & Dx & Bx) (my & ey & Ey & Dy & By) Hlo Hhi.
  destruct (SFmul_normal mx ex my ey Dx Dy ltac:(lia) ltac:(lia))
    as (mz & ez & Ez & Dz & Bz & Err).
  assert (E : Prim2SF (x * y)%float = S754_finite false mz ez)
    by (rewrite FloatAxioms.mul_spec, Ex, Ey; exact Ez).
  split.
  - exists mz, ez. split; [exact E |]. split; [exact Dz | lia].
  - unfold float_value. rewrite E, Ex, Ey. cbn [SF2Q].
    set (k := (ez - (ex + ey))%Z) in *.
    apply relative_error_Q in Err.
    apply (within_scale _ _ _ (2 ^ (ex + ey))) in Err;
      [| apply Qlt_le_weak, two_power_pos].
    revert Err. apply within_compat.
    + rewrite inject_Z_mult, inject_two_power by lia.
      replace ez with (k + (ex + ey))%Z by lia.
      rewrite !two_power_plus. ring.
    + rewrite inject_Z_mult, !two_power_plus. ring.
Qed.

Lemma inject_pos_nonzero (m : positive) : ~ inject_Z (Z.pos m) == 0.
Proof. intros E. discriminate E. Qed.

Lemma two_power_nonzero (e : Z) : ~ 2 ^ e == 0.
Proof.
  intros E. pose proof (two_power_pos e) as P. rewrite E in P.
  now apply Qlt_irrefl in P.
Qed.

(** The binary64 quotient of two positive normal numbers is their
    quotient up to a relative error of 2^-53, where the exponents keep
    it a normal number. *)
Lemma div_normal lo1 hi1 lo2 hi2 (x y : float) :
  normal_in lo1 hi1 x -> normal_in lo2 hi2 y ->
  (-1074 <= lo1 - hi2 - 53)%Z -> (hi1 - lo2 - 51 <= 971)%Z ->
  normal_in (lo1 - hi2 - 53) (hi1 - lo2 - 51) (x / y)%float /\
  within u53 (float_value (x / y)%float) (float_value x / float_value y).
Proof.
  intros (mx & ex & Ex & Dx & Bx) (my & ey & Ey & Dy & By) Hlo Hhi.
  destruct (SFdiv_normal mx ex my ey Dx Dy ltac:(lia) ltac:(lia))
    as (mz & ez & Ez & Dz & Bz & Err).
  assert (E : Prim2SF (x / y)%float = S754_finite false mz ez)
    by (rewrite FloatAxioms.div_spec, Ex, Ey; exact Ez).
  split.
  - exists mz, ez. split; [exact E |]. split; [exact Dz | lia].
  - unfold float_value. rewrite E, Ex, Ey. cbn [SF2Q].
    set (e' := (ex - ey - 53)%Z) in *. set (k := (ez - e')%Z) in *.
    apply relative_error_Q in Err.
    apply (within_scale _ _ _ (2 ^ e' / inject_Z (Z.pos my))) in Err.
    2:{ apply Qlt_le_weak, Qlt_shift_div_l; [reflexivity |].
        rewrite Qmult_0_l. apply two_power_pos. }
    pose proof (inject_pos_nonzero my) as Nm.
    pose proof (two_power_nonzero ey) as Ny.
    revert Err. apply within_compat.
    + rewrite !inject_Z_mult, inject_two_power by lia.
      replace ez with (k + e')%Z by lia.
      rewrite two_power_plus. field. exact Nm.
    + rewrite inject_Z_mult.
      replace ex with (53 + (e' + ey))%Z by lia.
      rewrite !two_power_plus.
      change (inject_Z 9007199254740992) with (2 ^ 53).
      field. split; assumption.
Qed.

(** *** The aspect ratio of the fitted box *)

Lemma within_positive eps x r :
  eps < 1 -> 0 < r -> within eps x r -> 0 < x.
Proof.
  intros He Hr [H1 _].
  apply Qlt_le_trans with ((1 - eps) * r); [| exact H1].
  apply Qmult_lt_0_compat; [| exact Hr]. lra.
Qed.

(** Fit to height: the box is [H * R], rounded, by [H]. *)
Lemma fit_height_aspect (r R H dw q : Q) :
  0 < r -> 0 < H ->
  within u53 R r -> within u53 dw (H * R) -> within u53 q (dw / H) ->
  within u51 (dw / H) r /\ within u51 q R.
Proof.
  intros Hr HH [R1 R2] [D1 D2] [Q1 Q2]. unfold u53, u51, within in *.
  assert (L : (1 - (1 # 9007199254740992)) * R <= dw / H).
  { apply Qle_shift_div_l; [exact HH |].
    apply Qle_trans with ((1 - (1 # 9007199254740992)) * (H * R));
      [apply Qle_lteq; right; ring | exact D1]. }
  assert (U : dw / H <= (1 + (1 # 9007199254740992)) * R).
  { apply Qle_shift_div_r; [exact HH |].
    apply Qle_trans with ((1 + (1 # 9007199254740992)) * (H * R));
      [exact D2 | apply Qle_lteq; right; ring]. }
  set (x := dw / H) in *. clearbody x.
  repeat split; lra.
Qed.

(** Fit to width: the box is [W] by [W / R], rounded. *)
Lemma fit_width_aspect (r R W dh q : Q) :
  0 < r -> 0 < W ->
  within u53 R r -> within u53 dh (W / R) -> within u53 q (W / dh) ->
  within u51 (W / dh) r /\ within u51 q R.
Proof.
  intros Hr HW HR HD [Q1 Q2].
  assert (PR : 0 < R) by (apply (within_positive u53 R r); [reflexivity | assumption ..]).
  assert (PZ : 0 < W / R).
  { apply Qlt_shift_div_l; [exact PR |]. now rewrite Qmult_0_l. }
  assert (PD : 0 < dh) by (apply (within_positive u53 dh (W / R)); [reflexivity | assumption ..]).
  assert (NR : ~ R == 0) by (intros E; rewrite E in PR; now apply Qlt_irrefl in PR).
  destruct HR as [R1 R2], HD as [D1 D2]. unfold u53, u51, within in *.
  assert (U : W / dh <= (9007199254740992 # 9007199254740991) * R).
  { apply Qle_shift_div_r; [exact PD |].
    apply Qle_trans
      with ((9007199254740992 # 9007199254740991) * R
            * ((1 - (1 # 9007199254740992)) * (W / R))).
    - apply Qle_lteq. right. field. exact NR.
    - apply Qmult_le_l; [| exact D1].
      apply Qmult_lt_0_compat; [reflexivity | exact PR]. }
  assert (L : (9007199254740992 # 9007199254740993) * R <= W / dh).
  { apply Qle_shift_div_l; [exact PD |].
    apply Qle_trans
      with ((9007199254740992 # 9007199254740993) * R
            * ((1 + (1 # 9007199254740992)) * (W / R))).
    - apply Qmult_le_l; [| exact D2].
      apply Qmult_lt_0_compat; [reflexivity | exact PR].
    - apply Qle_lteq. right. field. exact NR. }
  set (x := W / dh) in *. clearbody x.
  repeat split; lra.
Qed.

End Values.

(** *** C1: the display transform *)

Section DisplayTransform.

Local Open Scope Q_scope.

(** A positive normal number is truthy. *)
Lemma normal_truthy lo hi (x : float) :
  normal_in lo hi x -> ToBoolean (VNum x) = true.
Proof.
  intros (m & e & E & _). cbn [ToBoolean num_truthy float_number].
  unfold PrimFloat.is_zero, PrimFloat.is_nan.
  rewrite !FloatAxioms.eqb_spec, E.
  change (Prim2SF PrimFloat.zero) with (S754_zero false).
  unfold SFeqb. cbn [SFcompare].
  now rewrite Z.compare_refl, Pos.compare_cont_refl.
Qed.

Lemma normal_quotient_positive lo1 hi1 lo2 hi2 (x y : float) :
  normal_in lo1 hi1 x -> normal_in lo2 hi2 y ->
  0 < float_value x / float_value y.
Proof.
  intros Nx Ny.
  destruct (normal_in_value _ _ _ Nx) as (? & ? & _ & _ & Px).
  destruct (normal_in_value _ _ _ Ny) as (? & ? & _ & _ & Py).
  apply Qlt_shift_div_l; [exact Py |]. now rewrite Qmult_0_l.
Qed.

(** C1, as amended.  In every state the client can reach, a run of
    [handleResize] with a snapshot whose [canvas_width] and
    [canvas_height] are numbers from 2^-250 up to 2^250, in a container
    whose width and height are such numbers too, ends normally and sets
    a box [dw] x [dh] that has the aspect ratio of the game world up to
    a relative error of 2^-51, which is four units in the last place of
    binary64: so it is of [dw / dh] and [canvas_width / canvas_height]
    taken exactly, and so it is of the two quotients as binary64
    computes them.  The scale factors stored are the binary64 quotients
    [dw / canvas_width] and [dh / canvas_height]. *)
Theorem reconciler_keeps_aspect_binary64 :
  forall (host : Host float) (g : PongGame float) (cw ch : float),
    reachable g ->
    property (gameState g) "canvas_width" = Normal (VNum cw) ->
    property (gameState g) "canvas_height" = Normal (VNum ch) ->
    ordinary cw = true -> ordinary ch = true ->
    ordinary (clientWidth g) = true -> ordinary (clientHeight g) = true ->
    exists dw dh,
      fst (handleResize g) = Normal tt /\
      style_width (after handleResize g) = Some dw /\
      style_height (after handleResize g) = Some dh /\
      aspect_kept dw dh cw ch /\
      scaleX (after handleResize g) = (dw / cw)%float /\
      scaleY (after handleResize g) = (dh / ch)%float.
Proof.
  intros host g cw ch R Hw Hh Ocw Och OW OH.
  pose proof (ordinary_normal _ Ocw) as Ncw.
  pose proof (ordinary_normal _ Och) as Nch.
  pose proof (ordinary_normal _ OW) as NW.
  pose proof (ordinary_normal _ OH) as NH.
  assert (Hb : ToBoolean (gameState g) = true)
    by (eapply property_defined; [exact Hw | discriminate]).
  assert (Hi : initialDimensionsSet g = true).
  { apply (reachable_dimensions_known g R _ _ Hw Hh);
      first [reflexivity | eapply normal_truthy; eassumption]. }
  unfold after.
  rewrite (handleResize_runs g _ _ Hb Hi Hw Hh eq_refl eq_refl).
  cbn [fst snd]. state_norm.
  change (number (VNum cw)) with cw. change (number (VNum ch)) with ch.
  cbn [num_div num_mul num_gt float_number].
  destruct (div_normal _ _ _ _ cw ch Ncw Nch ltac:(lia) ltac:(lia))
    as [NR ER].
  pose proof (normal_quotient_positive _ _ _ _ cw ch Ncw Nch) as Pr.
  unfold fit_width, fit_height, fit_wide.
  cbn [num_div num_mul num_gt float_number].
  set (W := clientWidth g) in *. set (Ht := clientHeight g) in *.
  destruct (normal_in_value _ _ _ NW) as (? & ? & _ & _ & PW).
  destruct (normal_in_value _ _ _ NH) as (? & ? & _ & _ & PH).
  destruct (PrimFloat.ltb (cw / ch) (W / Ht)).
  - destruct (mul_normal _ _ _ _ Ht (cw / ch)%float NH NR
                ltac:(lia) ltac:(lia)) as [Ndw Edw].
    destruct (div_normal _ _ _ _ (Ht * (cw / ch))%float Ht Ndw NH
                ltac:(lia) ltac:(lia)) as [_ Eq].
    exists (Ht * (cw / ch))%float, Ht.
    repeat (split; [reflexivity |]).
    split; [| split; reflexivity].
    apply (fit_height_aspect _ (float_value (cw / ch)%float));
      assumption.
  - destruct (div_normal _ _ _ _ W (cw / ch)%float NW NR
                ltac:(lia) ltac:(lia)) as [Ndh Edh].
    destruct (div_normal _ _ _ _ W (W / (cw / ch))%float NW Ndh
                ltac:(lia) ltac:(lia)) as [_ Eq].
    exists W, (W / (cw / ch))%float.
    repeat (split; [reflexivity |]).
    split; [| split; reflexivity].
    apply (fit_width_aspect _ (float_value (cw / ch)%float));
      assumption.
Qed.

End DisplayTransform.

(** The amended C1 on a game world of 800 x 600 shown in a container of
    1200 x 800. *)
Lemma reconciler_keeps_aspect_binary64_witness :
  let g := (playing (num := float) 1200 800 800 600)%float in
  exists dw dh,
    fst (handleResize g) = Normal tt /\
    style_width (after handleResize g) = Some dw /\
    style_height (after handleResize g) = Some dh /\
    aspect_kept dw dh 800%float 600%float /\
    scaleX (after handleResize g) = (dw / 800)%float /\
    scaleY (after handleResize g) = (dh / 600)%float.
Proof.
  intros g.
  apply (reconciler_keeps_aspect_binary64 example_host g 800%float 600%float);
    [apply playing_reachable | reflexivity ..].
Defined.

(** C1 as stated fails at the two ends of binary64, on positive
    dimensions and a container with a positive box.  For a game world of
    the greatest binary64 number by 1 in a container of 1 x 1, the box
    is 1 x 2^-1024, and [displayWidth / displayHeight] is infinite where
    [canvas_width / canvas_height] is not.  For a game world of the
    least positive binary64 number by 3 in a container of 800 x 600,
    [canvas_width / canvas_height] is rounded to 0, and the box is
    0 x 600: it has no width, and [scaleX] is 0. *)
Lemma reconciler_aspect_extremes_counterexample :
  let greatest := 0x1.fffffffffffffp+1023%float in
  let least := 0x1p-1074%float in
  let g1 := (playing (num := float) 1 1 greatest 1)%float in
  let g2 := (playing (num := float) 800 600 least 3)%float in
  (reachable g1 /\
   property (gameState g1) "canvas_width" = Normal (VNum greatest) /\
   property (gameState g1) "canvas_height" = Normal (VNum 1%float) /\
   PrimFloat.ltb 0 greatest = true /\
   fst (handleResize g1) = Normal tt /\
   style_width (after handleResize g1) = Some 1%float /\
   style_height (after handleResize g1) = Some 0x1p-1024%float /\
   (1 / 0x1p-1024)%float = PrimFloat.infinity /\
   (greatest / 1)%float = greatest /\
   PrimFloat.eqb (1 / 0x1p-1024) (greatest / 1) = false) /\
  (reachable g2 /\
   property (gameState g2) "canvas_width" = Normal (VNum least) /\
   property (gameState g2) "canvas_height" = Normal (VNum 3%float) /\
   PrimFloat.ltb 0 least = true /\
   fst (handleResize g2) = Normal tt /\
   style_width (after handleResize g2) = Some 0%float /\
   style_height (after handleResize g2) = Some 600%float /\
   scaleX (after handleResize g2) = 0%float /\
   scaleY (after handleResize g2) = 200%float).
Proof.
  cbv zeta. split; (split; [apply playing_reachable |]);
    repeat apply conj; vm_compute; reflexivity.
Qed.


(** *** C2: the fitting rule *)

(** C2.  With [gameAspect = canvas_width / canvas_height] and
    [containerAspect = containerWidth / containerHeight], a run of the
    reconciler past its guard, on dimensions whose conversion to a number
    does not raise (numbers, strings, null, booleans, arrays and objects
    without an own [toString]), ends normally and, if
    [containerAspect > gameAspect], fits to height
    ([displayHeight = containerHeight],
    [displayWidth = displayHeight * gameAspect]), otherwise fits to width
    ([displayWidth = containerWidth],
    [displayHeight = displayWidth / gameAspect]).  For a container of
    1000 x 500 and a game world of 800 x 600 it yields
    [displayHeight = 500] and [displayWidth = 500 * (800 / 600)], which
    lies between 666.66 and 666.67; for a container of 400 x 500 and the
    same game world it yields [displayWidth = 400] and
    [displayHeight = 300]. *)
#[warnings="-inexact-float"]
Theorem reconciler_fitting_rule :
  forall (host : Host float) (g : PongGame float) (cw ch : value float),
    ToBoolean (gameState g) = true ->
    initialDimensionsSet g = true ->
    property (gameState g) "canvas_width" = Normal cw ->
    property (gameState g) "canvas_height" = Normal ch ->
    converts cw = true -> converts ch = true ->
    let gameAspect := num_div (number cw) (number ch) in
    let containerAspect := num_div (clientWidth g) (clientHeight g) in
    let g' := after handleResize g in
    fst (handleResize g) = Normal tt /\
    (num_gt containerAspect gameAspect = true ->
       style_height g' = Some (clientHeight g) /\
       style_width g' = Some (num_mul (clientHeight g) gameAspect)) /\
    (num_gt containerAspect gameAspect = false ->
       style_width g' = Some (clientWidth g) /\
       style_height g' = Some (num_div (clientWidth g) gameAspect)) /\
    (cw = VNum 800%float -> ch = VNum 600%float ->
     clientWidth g = 1000%float -> clientHeight g = 500%float ->
       style_height g' = Some 500%float /\
       style_width g' = Some (500 * (800 / 600))%float /\
       PrimFloat.ltb 666.66 (500 * (800 / 600)) = true /\
       PrimFloat.ltb (500 * (800 / 600)) 666.67 = true) /\
    (cw = VNum 800%float -> ch = VNum 600%float ->
     clientWidth g = 400%float -> clientHeight g = 500%float ->
       style_width g' = Some 400%float /\
       style_height g' = Some 300%float).
Proof.
  intros host g cw ch Hb Hi Hw Hh Cw Ch gameAspect containerAspect g'.
  subst g'. unfold after. rewrite (handleResize_runs g _ _ Hb Hi Hw Hh Cw Ch).
  cbn [fst snd]. state_norm. unfold fit_width, fit_height, fit_wide.
  fold gameAspect. fold containerAspect.
  split; [reflexivity |].
  split; [intros ->; split; reflexivity |].
  split; [intros ->; split; reflexivity |].
  split; intros -> -> EW EH; subst gameAspect containerAspect;
    cbn -[PrimFloat.ltb PrimFloat.div PrimFloat.mul];
    rewrite EW, EH; repeat split; vm_compute; reflexivity.
Qed.

(** C2 on the client of player 1 in a container of 1000 x 500, after a
    first snapshot for a game world of 800 x 600. *)
Lemma reconciler_fitting_rule_witness :
  let g := (playing (num := float) 1000 500 800 600)%float in
  style_height (after handleResize g) = Some 500%float /\
  style_width (after handleResize g) = Some (500 * (800 / 600))%float.
Proof.
  intros g.
  pose proof (reconciler_fitting_rule example_host g
                (VNum 800%float) (VNum 600%float)
                eq_refl eq_refl eq_refl eq_refl eq_refl eq_refl)
    as (_ & _ & _ & Hex & _).
  destruct (Hex eq_refl eq_refl eq_refl eq_refl) as (Hh & Hw & _).
  exact (conj Hh Hw).
Defined.


(** ** The inbound message handler *)

Section Inbound.

Context {num : Type} `{JSNumber num} `{Host num}.

Implicit Types (g : PongGame num) (message type data : value num).

(** A [game_state] frame whose dimensions are not both truthy, or are
    those the canvas already has once the dimensions are set, only
    replaces the snapshot. *)
Lemma onmessage_keeps_geometry g message type data cw ch :
  property message "type" = Normal type ->
  is_string type "game_state" = true ->
  property message "data" = Normal data ->
  property data "canvas_width" = Normal cw ->
  property data "canvas_height" = Normal ch ->
  ToBoolean cw && ToBoolean ch = false \/
  (initialDimensionsSet g = true /\
   strict_equals_number (width g) cw = true /\
   strict_equals_number (height g) ch = true) ->
  onmessage (Json message) g = (Normal tt, set_gameState data g).
Proof.
  intros Ht Hs Hd Hw Hh Hcase. unfold onmessage.
  rewrite Ht. js_step. rewrite Hs, Hd. js_step. rewrite Hw. js_step.
  destruct (ToBoolean cw) eqn:Bw; js_step; [| reflexivity].
  rewrite ?Hh. js_step.
  destruct (ToBoolean ch) eqn:Bh; [| reflexivity].
  destruct Hcase as [Hf | (Hi & Ew & Eh)]; [discriminate |].
  unfold when at 1. js_step. rewrite ?Hw. js_step. rewrite ?Hh. js_step.
  now rewrite Hi, Ew, Eh.
Qed.

(** A frame that is not JSON ends the handler with the SyntaxError of
    [JSON.parse]; nothing has been written. *)
Lemma onmessage_malformed g :
  onmessage Malformed g = (Throw SyntaxError, g).
Proof. reflexivity. Qed.

(** A JSON frame whose [type] is none of the three known ones is
    ignored. *)
Lemma onmessage_unknown_type g message type :
  property message "type" = Normal type ->
  is_string type "game_state" = false ->
  is_string type "connected" = false ->
  is_string type "player_disconnected" = false ->
  onmessage (Json message) g = (Normal tt, g).
Proof.
  intros Ht H1 H2 H3. unfold onmessage. rewrite Ht. js_step.
  now rewrite H1, H2, H3.
Qed.

(** *** C3: frames that are dropped *)

(** C3, as amended.  A frame that is not valid JSON makes the handler
    raise the SyntaxError of [JSON.parse] and leaves the whole state as
    it was; a JSON frame on which [type] can be read (any JSON value but
    null) and whose [type] is none of game_state, connected and
    player_disconnected does not raise and leaves the whole state as it
    was: snapshot, canvas geometry, display transform, status text and
    console. *)
Theorem inbound_frame_dropped :
  forall g,
    onmessage Malformed g = (Throw SyntaxError, g) /\
    (forall message type,
        property message "type" = Normal type ->
        is_string type "game_state" = false ->
        is_string type "connected" = false ->
        is_string type "player_disconnected" = false ->
        onmessage (Json message) g = (Normal tt, g)).
Proof.
  intros g. split.
  - apply onmessage_malformed.
  - intros message type. apply onmessage_unknown_type.
Qed.

(** *** C5: a snapshot without [canvas_width] *)

(** C5, as amended.  A game_state frame whose data is any JSON value
    but null (an object, an array, a string, a number or a boolean) and
    has no [canvas_width], so that the read of [canvas_width] gives
    [undefined], does not raise and only replaces the stored snapshot by
    the data of the frame: the canvas geometry, the display transform and
    the flag of the initial dimensions stay as they were. *)
Theorem game_state_without_canvas_width :
  forall g message data,
    property message "type" = Normal (VStr "game_state") ->
    property message "data" = Normal data ->
    property data "canvas_width" = Normal VUndefined ->
    let g' := after (onmessage (Json message)) g in
    onmessage (Json message) g = (Normal tt, set_gameState data g) /\
    gameState g' = data /\
    width g' = width g /\ height g' = height g /\
    style_width g' = style_width g /\ style_height g' = style_height g /\
    scaleX g' = scaleX g /\ scaleY g' = scaleY g /\
    initialDimensionsSet g' = initialDimensionsSet g.
Proof.
  intros g message data Ht Hd Hw g'.
  assert (E : onmessage (Json message) g
              = (Normal tt, set_gameState data g)).
  { apply (onmessage_keeps_geometry g message (VStr "game_state") data
             VUndefined (field data "canvas_height"));
      try assumption; try reflexivity.
    - apply property_field. destruct data; try discriminate; reflexivity.
    - now left. }
  subst g'. unfold after. rewrite E. repeat split.
Qed.

(** *** C8: the gate of the reconciler *)

(** C8, as amended.  The reconciler is gated.  A resize of the viewport
    while there is no snapshot or while no snapshot has set the
    dimensions changes nothing but the container box; and, once the
    dimensions have been set, a game_state frame whose [canvas_width]
    and [canvas_height] are those of the canvas only replaces the
    snapshot: canvas resolution and display transform stay as they
    were. *)
Theorem reconciler_gated :
  forall g,
    (ToBoolean (gameState g) = false \/ initialDimensionsSet g = false ->
     forall boxWidth boxHeight,
       handleResize (set_client_box boxWidth boxHeight g)
       = (Normal tt, set_client_box boxWidth boxHeight g)) /\
    (initialDimensionsSet g = true ->
     forall message props,
       property message "type" = Normal (VStr "game_state") ->
       property message "data" = Normal (VObj props) ->
       strict_equals_number (width g) (own_property props "canvas_width")
       = true ->
       strict_equals_number (height g) (own_property props "canvas_height")
       = true ->
       onmessage (Json message) g
       = (Normal tt, set_gameState (VObj props) g)).
Proof.
  intros g. split.
  - intros Hg boxWidth boxHeight. apply handleResize_guard. exact Hg.
  - intros Hi message props Ht Hd Ew Eh.
    eapply onmessage_keeps_geometry; try eassumption; try reflexivity.
    right. auto.
Qed.

(** *** C10: a dimension that is missing or zero *)

(** C10.  The geometry branch needs both dimensions present and
    non-zero: a game_state frame whose data is an object without a
    [canvas_height], or with a [canvas_width] or a [canvas_height] that
    is the number 0, does not raise and only replaces the stored
    snapshot; canvas resolution, flag of the initial dimensions and
    display transform stay as they were. *)
Theorem game_state_zero_or_missing_dimension `{!JSNumberLaws num} :
  forall g message props,
    property message "type" = Normal (VStr "game_state") ->
    property message "data" = Normal (VObj props) ->
    (own_property props "canvas_height" = VUndefined \/
     (exists n, own_property props "canvas_width" = VNum n /\
                num_seq n (num_lit 0) = true) \/
     (exists n, own_property props "canvas_height" = VNum n /\
                num_seq n (num_lit 0) = true)) ->
    let g' := after (onmessage (Json message)) g in
    fst (onmessage (Json message) g) = Normal tt /\
    gameState g' = VObj props /\
    width g' = width g /\ height g' = height g /\
    initialDimensionsSet g' = initialDimensionsSet g /\
    style_width g' = style_width g /\ style_height g' = style_height g /\
    scaleX g' = scaleX g /\ scaleY g' = scaleY g.
Proof.
  intros g message props Ht Hd Hcase g'.
  assert (E : onmessage (Json message) g
              = (Normal tt, set_gameState (VObj props) g)).
  { eapply onmessage_keeps_geometry; try eassumption; try reflexivity.
    left. cbn. apply andb_false_iff.
    destruct Hcase as [Hu | [(n & Hn & Hz) | (n & Hn & Hz)]].
    - right. now rewrite Hu.
    - left. rewrite Hn. cbn. now apply num_zero_falsy.
    - right. rewrite Hn. cbn. now apply num_zero_falsy. }
  subst g'. unfold after. rewrite E. repeat split.
Qed.

End Inbound.

(** The amended C3 on a frame [{type: 'ping'}]. *)
Lemma inbound_frame_dropped_witness :
  let g := (playing (num := float) 1000 500 800 600)%float in
  onmessage (Json (VObj [("type", VStr "ping")])) g = (Normal tt, g).
Proof.
  intros g.
  apply (proj2 (inbound_frame_dropped g) (VObj [("type", VStr "ping")])
               (VStr "ping")); reflexivity.
Defined.

(** C3 as stated fails: on a frame that is not JSON the handler raises
    the SyntaxError of [JSON.parse], and on the JSON frame [null], which
    has no [type], it raises a TypeError. *)
Lemma inbound_frame_raises_counterexample :
  let g := (playing (num := float) 1000 500 800 600)%float in
  fst (onmessage Malformed g) = Throw SyntaxError /\
  fst (onmessage (Json VNull) g) = Throw TypeError.
Proof. cbv zeta. split; vm_compute; reflexivity. Qed.

(** The amended C5 on a snapshot that carries a score and a height but
    no width. *)
Lemma game_state_without_canvas_width_witness :
  let g := (playing (num := float) 1000 500 800 600)%float in
  let data := [("score1", VNum 1%float); ("canvas_height", VNum 600%float)] in
  onmessage (game_state_frame (VObj data)) g
  = (Normal tt, set_gameState (VObj data) g).
Proof.
  intros g data.
  apply (game_state_without_canvas_width g
           (VObj [("type", VStr "game_state"); ("data", VObj data)])
           (VObj data));
    reflexivity.
Defined.

(** C5 as stated fails on a frame whose data has no [canvas_width]
    because it is [null], or because the frame has no data at all: the
    snapshot is replaced, and the read of [canvas_width] on it raises a
    TypeError. *)
Lemma game_state_nullish_data_counterexample :
  let g := (playing (num := float) 1000 500 800 600)%float in
  onmessage (game_state_frame VNull) g
  = (Throw TypeError, set_gameState VNull g) /\
  onmessage (Json (VObj [("type", VStr "game_state")])) g
  = (Throw TypeError, set_gameState VUndefined g).
Proof. cbv zeta. split; vm_compute; reflexivity. Qed.

(** The amended C8 on a second snapshot for the same game world. *)
Lemma reconciler_gated_witness :
  let g := (playing (num := float) 1000 500 800 600)%float in
  onmessage (game_state_frame (sample_snapshot 800 600)%float) g
  = (Normal tt, set_gameState (sample_snapshot 800 600)%float g).
Proof.
  intros g.
  apply (proj2 (reconciler_gated g) eq_refl
           (VObj [("type", VStr "game_state");
                  ("data", (sample_snapshot 800 600)%float)]));
    reflexivity.
Defined.

(** C8 as stated fails on the first snapshot: the canvas starts at the
    800 x 600 of [CONFIG], a first snapshot for a game world of 800 x 600
    carries the dimensions the canvas already has, and the reconciler
    runs all the same: it sets the displayed box and the scale
    factors. *)
Lemma reconciler_first_snapshot_counterexample :
  let g := (opened (num := float) 1000 500)%float in
  let g' := after (onmessage (game_state_frame
                                (sample_snapshot 800 600)%float)) g in
  strict_equals_number (width g) (VNum 800%float) = true /\
  strict_equals_number (height g) (VNum 600%float) = true /\
  width g' = width g /\ height g' = height g /\
  style_width g = None /\
  style_width g' = Some (500 * (800 / 600))%float /\
  style_height g = None /\
  style_height g' = Some 500%float /\
  scaleX g = 1%float /\
  scaleX g' = (500 * (800 / 600) / 800)%float /\
  PrimFloat.eqb (scaleX g') (scaleX g) = false.
Proof. cbv zeta. repeat apply conj; vm_compute; reflexivity. Qed.

(** C10 on a snapshot whose height is 0. *)
Lemma game_state_zero_or_missing_dimension_witness :
  let g := (playing (num := float) 1000 500 800 600)%float in
  let data := [("canvas_width", VNum 1024%float);
               ("canvas_height", VNum 0%float)] in
  let g' := after (onmessage (game_state_frame (VObj data))) g in
  fst (onmessage (game_state_frame (VObj data)) g) = Normal tt /\
  gameState g' = VObj data /\
  width g' = 800%float /\ height g' = 600%float.
Proof.
  intros g data g'.
  destruct (game_state_zero_or_missing_dimension g
              (VObj [("type", VStr "game_state"); ("data", VObj data)]) data
              eq_refl eq_refl)
    as (Hn & Hs & Hw & Hh & _).
  { right. right. exists 0%float. split; reflexivity. }
  repeat split; assumption.
Defined.

(** ** The outbound gate *)

Section Connection.

Context {num : Type} `{JSNumber num} `{Host num}.

Implicit Types (g : PongGame num).

(** Runs a gated send in each state of the socket and of the flag. *)
Ltac gate_cases :=
  unfold flag_follows_socket, link, connection_open, outbound, after,
    resetGame, sendInput, WebSocket_send;
  intros [? ? ? ? ? ? ? ? ? ? ? [[? [] ?] |] ? [] ? ? ?];
  js_run; cbn; intros; try discriminate; repeat split.

Lemma resetGame_closed :
  forall g, flag_follows_socket (link g) -> connection_open g = false ->
    resetGame g = (Normal tt, g).
Proof. gate_cases. Qed.

Lemma sendInput_closed action :
  forall g, flag_follows_socket (link g) -> connection_open g = false ->
    sendInput action g = (Normal tt, g).
Proof. gate_cases. Qed.

Lemma resetGame_open :
  forall g, flag_follows_socket (link g) -> connection_open g = true ->
    fst (resetGame g) = Normal tt /\
    outbound (after resetGame g) = outbound g ++ [VObj [("type", VStr "reset")]].
Proof. gate_cases. Qed.

Lemma sendInput_open action :
  forall g, flag_follows_socket (link g) -> connection_open g = true ->
    fst (sendInput action g) = Normal tt /\
    outbound (after (sendInput action) g)
    = outbound g ++ [VObj [("type", VStr "input"); ("action", action)]].
Proof. gate_cases. Qed.

(** *** C4: sends happen only while the connection is open *)

(** C4.  In every state the client can reach, while the connection is
    not in the Open state [resetGame] and [sendInput], with any action,
    end normally and change nothing: no message is queued and nothing is
    raised.  Sends happen only while the connection is Open, and then
    each of the two queues exactly its message. *)
Theorem outbound_gate :
  forall g,
    reachable g ->
    (connection_open g = false ->
       resetGame g = (Normal tt, g) /\
       forall action, sendInput action g = (Normal tt, g)) /\
    (connection_open g = true ->
       fst (resetGame g) = Normal tt /\
       outbound (after resetGame g)
       = outbound g ++ [VObj [("type", VStr "reset")]] /\
       forall action,
         fst (sendInput action g) = Normal tt /\
         outbound (after (sendInput action) g)
         = outbound g ++ [VObj [("type", VStr "input"); ("action", action)]]).
Proof.
  intros g R. pose proof (reachable_flag_follows_socket g R) as I.
  split; intros Hc.
  - split; [| intros action].
    + now apply resetGame_closed.
    + now apply sendInput_closed.
  - destruct (resetGame_open g I Hc) as [Hr1 Hr2].
    repeat split; try assumption; now apply sendInput_open.
Qed.

End Connection.

(** C4 on the client whose connection has failed. *)
Lemma outbound_gate_witness :
  let g := (disconnected (num := float) 1000 500)%float in
  resetGame g = (Normal tt, g) /\
  forall action, sendInput action g = (Normal tt, g).
Proof.
  intros g.
  apply (proj1 (outbound_gate g (disconnected_reachable _ _))).
  reflexivity.
Defined.

(** ** The input sampler *)

Section Sampler.

Context {num : Type} `{JSNumber num} `{Host num}.

Implicit Types (g : PongGame num).

Lemma sendInput_flag_down g (b : bool) action :
  connected g = false -> when b (sendInput action) g = (Normal tt, g).
Proof.
  intros Hc. destruct b; [| reflexivity].
  unfold when, sendInput. js_step. rewrite Hc. now destruct (ws g).
Qed.

(** With the flag down a tick sends nothing. *)
Lemma tick_disconnected g :
  connected g = false -> tick g = (Normal tt, g).
Proof.
  intros Hc. unfold tick. js_step.
  do 3 (erewrite run_bind_normal by (apply sendInput_flag_down; exact Hc);
        js_step).
  now apply sendInput_flag_down.
Qed.

Lemma enqueue_nil g : enqueue [] g = g.
Proof.
  unfold enqueue. destruct g as [? ? ? ? ? ? ? ? ? ? ? [[? ? ?] |] ? ? ? ? ?];
    cbn; [| reflexivity].
  now rewrite app_nil_r.
Qed.

Lemma enqueue_open msgs g :
  connection_open g = true -> connected g = true ->
  connection_open (enqueue msgs g) = true /\
  connected (enqueue msgs g) = true /\
  pressedKeys (enqueue msgs g) = pressedKeys g /\
  outbound (enqueue msgs g) = outbound g ++ msgs.
Proof.
  unfold connection_open, outbound, enqueue.
  destruct (ws g) as [[? [] ?] |]; cbn; try discriminate.
  intros _ Hc. repeat split. exact Hc.
Qed.

Lemma sendInput_flag_up g (b : bool) action :
  connection_open g = true -> connected g = true ->
  when b (sendInput (VStr action)) g
  = (Normal tt, enqueue (if b then [intent action] else []) g).
Proof.
  intros Ho Hc. destruct b; [| now rewrite enqueue_nil].
  unfold when, sendInput, WebSocket_send, enqueue, intent.
  unfold connection_open in Ho. js_step. rewrite Hc.
  destruct (ws g) as [[? [] ?] |]; try discriminate. reflexivity.
Qed.

(** With the connection open a tick queues, in the order UP, DOWN, LEFT,
    RIGHT, one message for each direction whose key is held. *)
Lemma tick_connected g :
  connection_open g = true -> connected g = true ->
  let controls := controls_of (playerId g) in
  let held key := has (pressedKeys g) (toLowerCase key) in
  fst (tick g) = Normal tt /\
  outbound (after tick g)
  = outbound g
    ++ (if held (CONFIG.UP controls) then [intent "UP"] else [])
    ++ (if held (CONFIG.DOWN controls) then [intent "DOWN"] else [])
    ++ (if held (CONFIG.LEFT controls) then [intent "LEFT"] else [])
    ++ (if held (CONFIG.RIGHT controls) then [intent "RIGHT"] else []).
Proof.
  intros Ho Hc controls held. subst held. cbv beta.
  unfold after, tick. fold controls. js_step.
  erewrite run_bind_normal by (apply sendInput_flag_up; assumption).
  match goal with
  | |- context [enqueue ?l g] =>
      destruct (enqueue_open l g Ho Hc) as (Ho1 & Hc1 & Hk1 & Hs1);
      set (g1 := enqueue l g) in *
  end.
  js_step. rewrite Hk1.
  erewrite run_bind_normal by (apply sendInput_flag_up; assumption).
  match goal with
  | |- context [enqueue ?l g1] =>
      destruct (enqueue_open l g1 Ho1 Hc1) as (Ho2 & Hc2 & Hk2 & Hs2);
      set (g2 := enqueue l g1) in *
  end.
  js_step. rewrite Hk2, Hk1.
  erewrite run_bind_normal by (apply sendInput_flag_up; assumption).
  match goal with
  | |- context [enqueue ?l g2] =>
      destruct (enqueue_open l g2 Ho2 Hc2) as (Ho3 & Hc3 & Hk3 & Hs3);
      set (g3 := enqueue l g2) in *
  end.
  js_step. rewrite Hk3, Hk2, Hk1.
  rewrite sendInput_flag_up by assumption. cbn [fst snd].
  match goal with
  | |- context [enqueue ?l g3] =>
      destruct (enqueue_open l g3 Ho3 Hc3) as (_ & _ & _ & Hs4)
  end.
  split; [reflexivity |].
  rewrite Hs4, Hs3, Hs2, Hs1. now rewrite <- !app_assoc.
Qed.

Lemma sent_by_tick_connected g :
  connection_open g = true -> connected g = true ->
  let controls := controls_of (playerId g) in
  let held key := has (pressedKeys g) (toLowerCase key) in
  sent_by_tick g
  = (if held (CONFIG.UP controls) then [intent "UP"] else [])
    ++ (if held (CONFIG.DOWN controls) then [intent "DOWN"] else [])
    ++ (if held (CONFIG.LEFT controls) then [intent "LEFT"] else [])
    ++ (if held (CONFIG.RIGHT controls) then [intent "RIGHT"] else []).
Proof.
  intros Ho Hc controls held. unfold sent_by_tick.
  destruct (tick_connected g Ho Hc) as [_ ->].
  apply drop_app_length.
Qed.

(** *** C6: what a tick sends *)

(** C6, as amended.  While the connection is open ([this.ws] set and
    OPEN, [this.connected] true), a tick of the input sampler ends
    normally and queues, for each of the four directional intents in the
    order UP, DOWN, LEFT, RIGHT, exactly one message
    [{type: 'input', action: <direction>}] if the key mapped to the
    direction by the active control scheme is in the set of pressed
    keys, and none otherwise; with w and d the keys held, under the
    scheme of player 1, it queues exactly an UP and a RIGHT message.
    While [this.connected] is false a tick sends nothing. *)
Theorem sampler_sends_held_directions :
  forall g,
    (connected g = false -> tick g = (Normal tt, g)) /\
    (connection_open g = true -> connected g = true ->
     let controls := controls_of (playerId g) in
     let held key := has (pressedKeys g) (toLowerCase key) in
     fst (tick g) = Normal tt /\
     outbound (after tick g)
     = outbound g
       ++ (if held (CONFIG.UP controls) then [intent "UP"] else [])
       ++ (if held (CONFIG.DOWN controls) then [intent "DOWN"] else [])
       ++ (if held (CONFIG.LEFT controls) then [intent "LEFT"] else [])
       ++ (if held (CONFIG.RIGHT controls) then [intent "RIGHT"] else []) /\
     (playerId g = "player1" -> pressedKeys g = {[ "w"; "d" ]} ->
      outbound (after tick g) = outbound g ++ [intent "UP"; intent "RIGHT"])).
Proof.
  intros g. split; [apply tick_disconnected |].
  intros Ho Hc controls held.
  destruct (tick_connected g Ho Hc) as [Hn Hs].
  split; [exact Hn |]. split; [exact Hs |].
  intros Hp Hk. rewrite Hs. f_equal.
  subst controls held. cbv beta. rewrite Hp, Hk.
  vm_compute. reflexivity.
Qed.

(** *** C9: key matching ignores case *)

(** C9, as amended.  Key matching ignores case.  A key-down stores the
    lowercased identifier of the key and a key-up of any spelling of the
    key removes it; and while the connection is open, for a held key
    whose lowercased identifier is the lowercased key that the active
    control scheme maps to a direction, a tick queues the intent of that
    direction.  So it is for W against w and for ARROWUP against
    ArrowUp. *)
Theorem key_matching_ignores_case :
  forall g key,
    pressedKeys (after (keydown key) g)
    = {[ toLowerCase key ]} ∪ pressedKeys g /\
    (forall spelling,
        toLowerCase spelling = toLowerCase key ->
        has (pressedKeys (after (keyup spelling) g)) (toLowerCase key)
        = false) /\
    (connection_open g = true -> connected g = true ->
     has (pressedKeys g) (toLowerCase key) = true ->
     forall name mapped,
       In (name, mapped) (directions (controls_of (playerId g))) ->
       toLowerCase key = toLowerCase mapped ->
       In (intent name) (sent_by_tick g)) /\
    toLowerCase "W" = toLowerCase "w" /\
    toLowerCase "ARROWUP" = toLowerCase "ArrowUp".
Proof.
  intros g key. split; [reflexivity |].
  split.
  { intros spelling E. unfold has, after, keyup, write; cbn.
    rewrite E. apply bool_decide_eq_false.
    rewrite elem_of_difference, elem_of_singleton. tauto. }
  split; [| split; reflexivity].
  intros Ho Hc Hheld name mapped Hin E.
  rewrite (sent_by_tick_connected g Ho Hc). cbv zeta.
  rewrite E in Hheld.
  unfold directions in Hin. cbn in Hin.
  destruct Hin as [Hd | [Hd | [Hd | [Hd | []]]]];
    inversion Hd; subst name mapped; rewrite Hheld;
    rewrite ?in_app_iff; cbn; intuition.
Qed.

End Sampler.

(** The amended C6 on the client of player 1, connected, with w and d
    held. *)
Lemma sampler_sends_held_directions_witness :
  let g := after (keydown "d")
             (after (keydown "w")
                (playing (num := float) 1000 500 800 600)%float) in
  fst (tick g) = Normal tt /\
  outbound (after tick g) = outbound g ++ [intent "UP"; intent "RIGHT"].
Proof.
  intros g.
  destruct (proj2 (sampler_sends_held_directions g) eq_refl eq_refl)
    as (Hn & _ & Hwd).
  split; [exact Hn |]. apply Hwd; reflexivity.
Defined.

(** C6 as stated fails while the socket is still connecting: w and d
    are held under the scheme of player 1, and a tick sends nothing. *)
Lemma sampler_before_open_counterexample :
  let g := after (keydown "d")
             (after (keydown "w") (started (num := float) 1000 500)%float) in
  playerId g = "player1" /\
  has (pressedKeys g) (toLowerCase (CONFIG.UP (controls_of (playerId g))))
  = true /\
  has (pressedKeys g) (toLowerCase (CONFIG.RIGHT (controls_of (playerId g))))
  = true /\
  fst (tick g) = Normal tt /\
  outbound (after tick g) = [] /\
  sent_by_tick g = [].
Proof. cbv zeta. repeat apply conj; vm_compute; reflexivity. Qed.

(** The amended C9 on the client of player 1, connected, after a
    key-down of W. *)
Lemma key_matching_ignores_case_witness :
  let g := after (keydown "W")
             (playing (num := float) 1000 500 800 600)%float in
  In (intent "UP") (sent_by_tick g).
Proof.
  intros g.
  destruct (key_matching_ignores_case g "W") as (_ & _ & Hs & _).
  apply (Hs eq_refl eq_refl eq_refl "UP" "w"); [now left | reflexivity].
Defined.

(** C9 as stated fails once the connection is lost: W is held and
    matches the key w of player 1 up to case, and a tick sends
    nothing. *)
Lemma key_matching_disconnected_counterexample :
  let g := after (keydown "W") (disconnected (num := float) 1000 500)%float in
  has (pressedKeys g) (toLowerCase "W") = true /\
  toLowerCase "W" = toLowerCase (CONFIG.UP (controls_of (playerId g))) /\
  fst (tick g) = Normal tt /\
  sent_by_tick g = [].
Proof. cbv zeta. repeat apply conj; vm_compute; reflexivity. Qed.

(** ** The renderer *)

Section Renderer.

Context {num : Type} `{JSNumber num} `{Host num}.

Implicit Types (g : PongGame num) (v : value num).

Lemma context_fillRect_runs g x y w h :
  converts x = true -> converts y = true ->
  converts w = true -> converts h = true ->
  context_fillRect x y w h g
  = (Normal tt, set_ctx (ctx g ++ [FillRect x y w h]) g).
Proof.
  intros Cx Cy Cw Ch. unfold context_fillRect.
  rewrite (converts_ToNumber x Cx), (converts_ToNumber y Cy),
    (converts_ToNumber w Cw), (converts_ToNumber h Ch).
  js_step. reflexivity.
Qed.

Lemma context_fillText_runs g text x y :
  converts text = true ->
  context_fillText text x y g
  = (Normal tt, set_ctx (ctx g ++ [FillText text x y]) g).
Proof.
  intros Ct. unfold context_fillText.
  destruct (converts_ToString text Ct) as [s ->]. js_step. reflexivity.
Qed.

Lemma context_arc_runs g x y radius startAngle endAngle :
  converts x = true -> converts y = true -> converts radius = true ->
  num_lt (number radius) (num_lit 0) = false ->
  context_arc x y radius startAngle endAngle g
  = (Normal tt,
     set_ctx (ctx g ++ [Arc x y radius startAngle endAngle]) g).
Proof.
  intros Cx Cy Cr Hr. unfold context_arc.
  rewrite (converts_ToNumber x Cx), (converts_ToNumber y Cy),
    (converts_ToNumber radius Cr).
  js_step. rewrite Hr, andb_false_r. js_step. reflexivity.
Qed.

Lemma render_without_snapshot g :
  ToBoolean (gameState g) = false ->
  render g
  = (Normal tt,
     set_ctx (ctx g ++ background_calls (width g) (height g)
                    ++ placeholder_calls (width g) (height g)) g).
Proof.
  intros Hb. unfold render, drawText. js_step.
  erewrite run_bind_normal by (apply context_fillRect_runs; reflexivity).
  js_step. rewrite Hb. cbn [negb]. js_step.
  rewrite context_fillText_runs by reflexivity. state_norm.
  rewrite <- !app_assoc. reflexivity.
Qed.

Lemma drawPaddle_runs g paddle :
  nullish paddle = false ->
  converts (field paddle "x") = true ->
  converts (field paddle "y") = true ->
  converts (field paddle "width") = true ->
  converts (field paddle "height") = true ->
  drawPaddle paddle g
  = (Normal tt, set_ctx (ctx g ++ paddle_calls paddle) g).
Proof.
  intros Hp Cx Cy Cw Ch. unfold drawPaddle. js_step.
  rewrite !(property_field _ _ Hp). js_step.
  rewrite context_fillRect_runs by assumption. state_norm.
  rewrite <- !app_assoc. reflexivity.
Qed.

Lemma drawBall_runs g ball :
  nullish ball = false ->
  converts (field ball "x") = true ->
  converts (field ball "y") = true ->
  converts (field ball "radius") = true ->
  num_lt (number (field ball "radius")) (num_lit 0) = false ->
  drawBall ball g = (Normal tt, set_ctx (ctx g ++ ball_calls ball) g).
Proof.
  intros Hp Cx Cy Cr Hr. unfold drawBall. js_step.
  rewrite !(property_field _ _ Hp). js_step.
  erewrite run_bind_normal by (apply context_arc_runs; assumption).
  js_step. rewrite <- !app_assoc. reflexivity.
Qed.

Lemma drawCenterLine_runs g :
  drawCenterLine g
  = (Normal tt,
     set_ctx (ctx g ++ center_line_calls (width g) (height g)) g).
Proof.
  unfold drawCenterLine. js_step. rewrite <- !app_assoc. reflexivity.
Qed.

Lemma drawScores_runs g :
  nullish (gameState g) = false ->
  converts (field (gameState g) "score1") = true ->
  converts (field (gameState g) "score2") = true ->
  drawScores g
  = (Normal tt,
     set_ctx (ctx g ++ score_calls (gameState g) (width g)) g).
Proof.
  intros Hgs C1 C2. unfold drawScores. js_step.
  rewrite (property_field _ "score1" Hgs). js_step.
  erewrite run_bind_normal by (apply context_fillText_runs; exact C1).
  js_step.
  rewrite (property_field _ "score2" Hgs). js_step.
  rewrite context_fillText_runs by exact C2. state_norm.
  rewrite <- !app_assoc. reflexivity.
Qed.

Lemma render_with_snapshot g :
  ToBoolean (gameState g) = true ->
  let gs := gameState g in
  nullish (field gs "paddle1") = false ->
  nullish (field gs "paddle2") = false ->
  nullish (field gs "ball") = false ->
  (forall v, In v (passed_to_context gs) -> converts v = true) ->
  num_lt (number (field (field gs "ball") "radius")) (num_lit 0) = false ->
  render g
  = (Normal tt,
     set_ctx (ctx g ++ background_calls (width g) (height g)
                    ++ center_line_calls (width g) (height g)
                    ++ paddle_calls (field gs "paddle1")
                    ++ paddle_calls (field gs "paddle2")
                    ++ ball_calls (field gs "ball")
                    ++ score_calls gs (width g)) g).
Proof.
  intros Hb gs H1 H2 Hball Hc Hr.
  pose proof (truthy_not_nullish _ Hb) as Hgs.
  assert (C : forall v, In v (passed_to_context (gameState g)) ->
                converts v = true) by exact Hc.
  unfold render. js_step.
  erewrite run_bind_normal by (apply context_fillRect_runs; reflexivity).
  js_step. rewrite Hb. cbn [negb].
  erewrite run_bind_normal by apply drawCenterLine_runs. state_norm.
  rewrite (property_field _ "paddle1" Hgs). js_step.
  erewrite run_bind_normal
    by (apply drawPaddle_runs; [exact H1 | apply C; cbn; tauto ..]).
  state_norm.
  rewrite (property_field _ "paddle2" Hgs). js_step.
  erewrite run_bind_normal
    by (apply drawPaddle_runs; [exact H2 | apply C; cbn; tauto ..]).
  state_norm.
  rewrite (property_field _ "ball" Hgs). js_step.
  erewrite run_bind_normal
    by (apply drawBall_runs;
        [exact Hball | apply C; cbn; tauto .. | exact Hr]).
  state_norm.
  rewrite drawScores_runs by (first [exact Hgs | apply C; cbn; tauto]).
  state_norm.
  fold gs. rewrite <- !app_assoc. reflexivity.
Qed.

(** *** C7: what an iteration paints *)

(** C7, as amended.  An iteration of the render loop without a snapshot
    ends normally and paints only the background and the waiting text:
    no paddle, no ball, no score.  An iteration with a snapshot that has
    its two paddles and its ball (none of them null or undefined), in
    which every coordinate of the paddles and of the ball and both scores
    are values that the context can convert (no object with an own
    [toString], in an array or not), the ball with a radius that is not
    negative, ends normally and paints the background, the center
    divider, both paddles, the ball and both scores, with exactly the
    values of the snapshot as coordinates; what it paints does not depend
    on [scaleX] and [scaleY].  Either way [render] touches nothing but
    the context. *)
Theorem render_paints_latest_snapshot :
  forall g,
    let w := width g in
    let h := height g in
    let gs := gameState g in
    (ToBoolean gs = false ->
       render g = (Normal tt, set_ctx (ctx g ++ painted g) g) /\
       painted g = background_calls w h ++ placeholder_calls w h) /\
    (ToBoolean gs = true ->
     nullish (field gs "paddle1") = false ->
     nullish (field gs "paddle2") = false ->
     nullish (field gs "ball") = false ->
     (forall v, In v (passed_to_context gs) -> converts v = true) ->
     num_lt (number (field (field gs "ball") "radius")) (num_lit 0)
     = false ->
       render g = (Normal tt, set_ctx (ctx g ++ painted g) g) /\
       painted g
       = background_calls w h
         ++ center_line_calls w h
         ++ [SetFillStyle CONFIG.PADDLE_COLOR;
             FillRect (field (field gs "paddle1") "x")
                      (field (field gs "paddle1") "y")
                      (field (field gs "paddle1") "width")
                      (field (field gs "paddle1") "height")]
         ++ [SetFillStyle CONFIG.PADDLE_COLOR;
             FillRect (field (field gs "paddle2") "x")
                      (field (field gs "paddle2") "y")
                      (field (field gs "paddle2") "width")
                      (field (field gs "paddle2") "height")]
         ++ [SetFillStyle CONFIG.BALL_COLOR; BeginPath;
             Arc (field (field gs "ball") "x") (field (field gs "ball") "y")
                 (field (field gs "ball") "radius")
                 (num_lit 0) (num_mul Math_PI (num_lit 2));
             Fill]
         ++ [SetFillStyle CONFIG.COLORS_TEXT; SetFont "48px Arial";
             SetTextAlign "center";
             FillText (field gs "score1") (num_div w (num_lit 4))
                      (num_lit 60);
             FillText (field gs "score2")
                      (num_mul (num_div w (num_lit 4)) (num_lit 3))
                      (num_lit 60)] /\
       forall sx sy, painted (set_scaleX sx (set_scaleY sy g)) = painted g).
Proof.
  intros g w h gs. split.
  - intros Hb. pose proof (render_without_snapshot g Hb) as E.
    assert (P : painted g = background_calls w h ++ placeholder_calls w h).
    { unfold painted, after. rewrite E. cbn [snd]. state_norm.
      apply drop_app_length. }
    split; [now rewrite P | exact P].
  - intros Hb H1 H2 Hball Hc Hr.
    assert (P : forall g0, gameState g0 = gs -> width g0 = w ->
                  height g0 = h ->
                  render g0
                  = (Normal tt,
                     set_ctx (ctx g0 ++ background_calls w h
                                ++ center_line_calls w h
                                ++ paddle_calls (field gs "paddle1")
                                ++ paddle_calls (field gs "paddle2")
                                ++ ball_calls (field gs "ball")
                                ++ score_calls gs w) g0)).
    { intros g0 Eg Ew Eh. rewrite <- Eg, <- Ew, <- Eh.
      apply render_with_snapshot; rewrite ?Eg; assumption. }
    assert (Q : forall g0, gameState g0 = gs -> width g0 = w ->
                  height g0 = h ->
                  painted g0
                  = background_calls w h ++ center_line_calls w h
                      ++ paddle_calls (field gs "paddle1")
                      ++ paddle_calls (field gs "paddle2")
                      ++ ball_calls (field gs "ball")
                      ++ score_calls gs w).
    { intros g0 Eg Ew Eh. unfold painted, after.
      rewrite (P g0 Eg Ew Eh). cbn [snd]. state_norm.
      apply drop_app_length. }
    split; [| split].
    + rewrite (Q g eq_refl eq_refl eq_refl). now apply P.
    + now apply Q.
    + intros sx sy. rewrite (Q g eq_refl eq_refl eq_refl). now apply Q.
Qed.

End Renderer.

(** The amended C7 on the client that has received a first snapshot. *)
Lemma render_paints_latest_snapshot_witness :
  let g := (playing (num := float) 1000 500 800 600)%float in
  fst (render g) = Normal tt /\
  forall sx sy, painted (set_scaleX sx (set_scaleY sy g)) = painted g.
Proof.
  intros g.
  assert (Hr : num_lt (number (field (field (gameState g) "ball") "radius"))
                      (num_lit 0) = false)
    by (vm_compute; reflexivity).
  assert (Hc : forall v, In v (passed_to_context (gameState g)) ->
                 converts v = true).
  { intros v Hv. repeat (destruct Hv as [<- | Hv]; [reflexivity |]).
    destruct Hv. }
  destruct (proj2 (render_paints_latest_snapshot g)
              eq_refl eq_refl eq_refl eq_refl Hc Hr) as (E & _ & Hs).
  split; [now rewrite E | exact Hs].
Defined.

(** C7 as stated fails on a snapshot that is present but not of the
    expected shape.  After the frame [{type: 'game_state', data: {}}]
    the store holds a snapshot and [render] raises a TypeError, at
    [paddle.x] in [drawPaddle]; after a snapshot whose ball has the
    radius -8, [render] raises the IndexSizeError of [arc]; and after a
    snapshot whose first paddle has the object [{toString: 1}] as [x],
    [render] raises the TypeError of the conversion in [fillRect], having
    painted the background, the center divider and nothing else. *)
Lemma render_raises_counterexample :
  let g := after (onmessage (game_state_frame (VObj [])))
                 (opened (num := float) 1000 500)%float in
  let shrunk :=
    VObj [("paddle1", VObj [("x", VNum 20%float); ("y", VNum 250%float);
                            ("width", VNum 10%float);
                            ("height", VNum 100%float)]);
          ("paddle2", VObj [("x", VNum 770%float); ("y", VNum 250%float);
                            ("width", VNum 10%float);
                            ("height", VNum 100%float)]);
          ("ball", VObj [("x", VNum 400%float); ("y", VNum 300%float);
                         ("radius", VNum (-8)%float)]);
          ("score1", VNum 0%float); ("score2", VNum 3%float);
          ("canvas_width", VNum 800%float);
          ("canvas_height", VNum 600%float)] in
  let g2 := after (onmessage (game_state_frame shrunk))
                  (opened (num := float) 1000 500)%float in
  let odd :=
    VObj [("paddle1", VObj [("x", VObj [("toString", VNum 1%float)]);
                            ("y", VNum 250%float);
                            ("width", VNum 10%float);
                            ("height", VNum 100%float)]);
          ("paddle2", VObj [("x", VNum 770%float); ("y", VNum 250%float);
                            ("width", VNum 10%float);
                            ("height", VNum 100%float)]);
          ("ball", VObj [("x", VNum 400%float); ("y", VNum 300%float);
                         ("radius", VNum 8%float)]);
          ("score1", VNum 0%float); ("score2", VNum 3%float);
          ("canvas_width", VNum 800%float);
          ("canvas_height", VNum 600%float)] in
  let g3 := after (onmessage (game_state_frame odd))
                  (opened (num := float) 1000 500)%float in
  ToBoolean (gameState g) = true /\
  fst (render g) = Throw TypeError /\
  ToBoolean (gameState g2) = true /\
  fst (render g2) = Throw IndexSizeError /\
  ToBoolean (gameState g3) = true /\
  fst (render g3) = Throw TypeError /\
  painted g3
  = background_calls 800%float 600%float
    ++ center_line_calls 800%float 600%float
    ++ [SetFillStyle CONFIG.PADDLE_COLOR].
Proof. cbv zeta. repeat apply conj; vm_compute; reflexivity. Qed.

(** * Properties of the whole client *)

(** ** Composing what the steps of a computation do *)

Section Stepping.

Context {num : Type} `{JSNumber num} `{Host num}.

Implicit Types (g : PongGame num) (A B V : Type).

Lemma steps_ret A (R : relation (PongGame num)) `{!Reflexive R} (a : A) :
  steps R (mret a : JS num A).
Proof. intros g. cbn. reflexivity. Qed.

Lemma steps_read A (R : relation (PongGame num)) `{!Reflexive R}
    (f : PongGame num -> A) :
  steps R (read f).
Proof. intros g. cbn. reflexivity. Qed.

Lemma steps_lift A (R : relation (PongGame num)) `{!Reflexive R}
    (c : completion A) :
  steps R (lift c : JS num A).
Proof. intros g. cbn. reflexivity. Qed.

Lemma steps_write (R : relation (PongGame num))
    (f : PongGame num -> PongGame num) :
  (forall g, R g (f g)) -> steps R (write f).
Proof. intros Hf g. apply Hf. Qed.

Lemma steps_bind A B (R : relation (PongGame num)) `{!Transitive R}
    (m : JS num A) (k : A -> JS num B) :
  steps R m -> (forall a, steps R (k a)) -> steps R (m ≫= k).
Proof.
  intros Hm Hk g. unfold mbind, JS_bind.
  specialize (Hm g). destruct (m g) as [[a | e] g1]; cbn in *.
  - etransitivity; [exact Hm | apply Hk].
  - exact Hm.
Qed.

Lemma steps_when (R : relation (PongGame num)) `{!Reflexive R} (b : bool)
    (body : JS num unit) :
  steps R body -> steps R (when b body).
Proof. intros Hb. destruct b; [exact Hb | now apply steps_ret]. Qed.

(** A view that a computation keeps is kept by every view computed from
    it. *)
Lemma keeps_factor A V (erase : PongGame num -> PongGame num)
    (view : PongGame num -> V) (c : JS num A) :
  keeps erase c -> (forall g, view (erase g) = view g) -> keeps view c.
Proof.
  intros Hc Hv g. rewrite <- (Hv (snd (c g))), <- (Hv g). f_equal. apply Hc.
Qed.

Lemma respects_ret A (R : relation (PongGame num)) (a : A) :
  respects R (mret a : JS num A).
Proof. intros g1 g2 HR. split; [reflexivity | exact HR]. Qed.

Lemma respects_lift A (R : relation (PongGame num)) (c : completion A) :
  respects R (lift c : JS num A).
Proof. intros g1 g2 HR. split; [reflexivity | exact HR]. Qed.

Lemma respects_read A (R : relation (PongGame num))
    (f : PongGame num -> A) :
  (forall g1 g2, R g1 g2 -> f g1 = f g2) -> respects R (read f).
Proof. intros Hf g1 g2 HR. cbn. split; [f_equal; now apply Hf | exact HR]. Qed.

Lemma respects_write (R : relation (PongGame num))
    (f : PongGame num -> PongGame num) :
  (forall g1 g2, R g1 g2 -> R (f g1) (f g2)) -> respects R (write f).
Proof. intros Hf g1 g2 HR. split; [reflexivity | now apply Hf]. Qed.

Lemma respects_bind A B (R : relation (PongGame num)) (m : JS num A)
    (k : A -> JS num B) :
  respects R m -> (forall a, respects R (k a)) -> respects R (m ≫= k).
Proof.
  intros Hm Hk g1 g2 HR. unfold mbind, JS_bind.
  destruct (Hm g1 g2 HR) as [Hr HR'].
  destruct (m g1) as [[a1 | e1] s1], (m g2) as [[a2 | e2] s2]; cbn in *;
    try discriminate.
  - injection Hr as ->. now apply Hk.
  - injection Hr as ->. split; [reflexivity | exact HR'].
Qed.

End Stepping.

(** Decomposes a computation into its steps, for [keeps]; [known]
    closes the steps that are computations already dealt with. *)
Ltac keeps_steps known :=
  repeat match goal with
    | |- @keeps _ _ _ _ (mret _) => apply keeps_ret
    | |- @keeps _ _ _ _ (read _) => apply keeps_read
    | |- @keeps _ _ _ _ (lift _) => apply keeps_lift
    | |- @keeps _ _ _ _ (console_log _) =>
        apply keeps_write; intros ?; reflexivity
    | |- @keeps _ _ _ _ (call_ctx _) =>
        apply keeps_write; intros ?; reflexivity
    | |- @keeps _ _ _ _ (updateConnectionStatus _) =>
        let g0 := fresh "g" in
        apply keeps_write; intros g0; destruct (connectionStatus g0);
        reflexivity
    | |- @keeps _ _ _ _ (write _) => apply keeps_write; intros ?; reflexivity
    | |- @keeps _ _ _ _ (when _ _) => apply keeps_when
    | |- @keeps _ _ _ _ (_ ≫= _) => apply keeps_bind; [| intros ?]
    | |- @keeps _ _ _ _ (if ?b then _ else _) => destruct b
    | |- @keeps _ _ _ _ (let '(_, _) := ?p in _) => destruct p
    | |- @keeps _ _ _ _ (match ?x with Some _ => _ | None => _ end) =>
        destruct x
    | |- @keeps _ _ _ _ (match ?x with CONNECTING => _ | OPEN => _
                                  | CLOSING => _ | CLOSED => _ end) =>
        destruct x
    | |- _ => known
    end.

(** ** What each handler can touch *)

Section Footprints.

Context {num : Type} `{JSNumber num} `{Host num}.

Implicit Types (g : PongGame num) (A B V : Type).

Lemma render_footprint : keeps sans_ctx (render (num := num)).
Proof.
  unfold render, drawText, drawCenterLine, drawBall, drawScores, context_arc,
    context_fillRect, context_fillText.
  keeps_steps ltac:(apply drawPaddle_keeps; reflexivity).
Qed.

Lemma handleResize_footprint : keeps sans_display (handleResize (num := num)).
Proof. unfold handleResize. keeps_steps fail. Qed.

Lemma onmessage_footprint (data : frame num) :
  keeps sans_inbound (onmessage data).
Proof.
  unfold onmessage.
  destruct data as [| message];
    keeps_steps ltac:(apply (keeps_factor _ _ sans_display);
                      [apply handleResize_footprint | reflexivity]).
Qed.

Lemma updateConnectionStatus_footprint status :
  keeps sans_flag (updateConnectionStatus (num := num) status).
Proof. keeps_steps fail. Qed.

Lemma onopen_footprint : keeps sans_flag (onopen (num := num)).
Proof. unfold onopen. keeps_steps fail. Qed.

Lemma onclose_footprint : keeps sans_flag (onclose (num := num)).
Proof. unfold onclose. keeps_steps fail. Qed.

Lemma onerror_footprint : keeps sans_flag (onerror (num := num)).
Proof. unfold onerror. keeps_steps fail. Qed.

Lemma closing_footprint (failed : bool) :
  keeps (num := num) sans_flag
    ((if failed then onerror else mret tt);; onclose).
Proof.
  apply keeps_bind; [| intros ?; apply onclose_footprint].
  destruct failed; [apply onerror_footprint | apply keeps_ret].
Qed.

Lemma keydown_footprint key : keeps sans_keys (keydown (num := num) key).
Proof. intros g. reflexivity. Qed.

Lemma keyup_footprint key : keeps sans_keys (keyup (num := num) key).
Proof. intros g. reflexivity. Qed.

Lemma WebSocket_send_footprint g w (data : value num) :
  ws g = Some w ->
  sans_queue (snd (WebSocket_send w data g)) = sans_queue g.
Proof.
  intros E. unfold WebSocket_send, sans_queue.
  destruct (readyState w) eqn:R; cbn; rewrite ?E; cbn; rewrite ?R;
    reflexivity.
Qed.

Lemma sendInput_footprint (action : value num) :
  keeps sans_queue (sendInput action).
Proof.
  intros g. unfold sendInput. js_step.
  destruct (ws g) as [w |] eqn:E; [| reflexivity].
  destruct (connected g); [| reflexivity].
  now apply WebSocket_send_footprint.
Qed.

Lemma resetGame_footprint : keeps sans_queue (resetGame (num := num)).
Proof.
  intros g. unfold resetGame. js_step.
  destruct (ws g) as [w |] eqn:E; [| reflexivity].
  destruct (connected g); [| reflexivity].
  now apply WebSocket_send_footprint.
Qed.

Lemma tick_footprint : keeps sans_queue (tick (num := num)).
Proof. unfold tick. keeps_steps ltac:(apply sendInput_footprint). Qed.

(** The views of the properties below, through the footprints. *)
Lemma render_keeps V (view : PongGame num -> V) :
  (forall g calls, view (set_ctx calls g) = view g) ->
  keeps view (render (num := num)).
Proof.
  intros Hv. apply (keeps_factor _ _ sans_ctx); [apply render_footprint |].
  intros g. apply Hv.
Qed.

Lemma handleResize_keeps V (view : PongGame num -> V) :
  (forall g, view (sans_display g) = view g) ->
  keeps view (handleResize (num := num)).
Proof. apply keeps_factor, handleResize_footprint. Qed.

End Footprints.

(** ** The reconciler and the inbound handler, in every state *)

Section Handlers.

Context {num : Type} `{JSNumber num} `{Host num}.

Implicit Types (g : PongGame num) (v : value num).

(** Past its guard the reconciler reads the two dimensions of a snapshot
    that is truthy, which cannot raise; it runs to its end if their
    conversion to a number does not raise. *)
Lemma handleResize_past_guard g :
  ToBoolean (gameState g) = true -> initialDimensionsSet g = true ->
  let gs := gameState g in
  converts (field gs "canvas_width") = true ->
  converts (field gs "canvas_height") = true ->
  let ratio := num_div (number (field gs "canvas_width"))
                       (number (field gs "canvas_height")) in
  let dw := fit_width (clientWidth g) (clientHeight g) ratio in
  let dh := fit_height (clientWidth g) (clientHeight g) ratio in
  handleResize g =
    (Normal tt,
     set_console (console g
                  ++ [LogScalingApplied;
                      LogGameWorld (field gs "canvas_width")
                                   (field gs "canvas_height");
                      LogDisplaySize dw dh;
                      LogScaleFactor
                        (num_div dw (number (field gs "canvas_width")))])
       (set_scaleY (num_div dh (number (field gs "canvas_height")))
          (set_scaleX (num_div dw (number (field gs "canvas_width")))
             (set_style_height dh (set_style_width dw g))))).
Proof.
  intros Hb Hi gs Cw Ch ratio dw dh.
  apply handleResize_runs; try assumption;
    apply property_field, truthy_not_nullish, Hb.
Qed.

(** Otherwise it raises at the first division, having written
    nothing. *)
Lemma handleResize_past_guard_raises g :
  ToBoolean (gameState g) = true -> initialDimensionsSet g = true ->
  converts (field (gameState g) "canvas_width")
  && converts (field (gameState g) "canvas_height") = false ->
  handleResize g = (Throw TypeError, g).
Proof.
  intros Hb Hi Hc.
  apply (handleResize_raises g _ _ Hb Hi
           (property_field _ _ (truthy_not_nullish _ Hb))
           (property_field _ _ (truthy_not_nullish _ Hb)) Hc).
Qed.

Lemma dimensions_truthy v cw ch : dimensions v cw ch -> ToBoolean v = true.
Proof.
  intros (Hw & _ & Bw & _). eapply property_defined; [exact Hw |].
  intros ->. discriminate.
Qed.

Lemma dimensions_field v cw ch :
  dimensions v cw ch ->
  field v "canvas_width" = cw /\ field v "canvas_height" = ch.
Proof. intros (Hw & Hh & _). unfold field. now rewrite Hw, Hh. Qed.

(** With a snapshot whose two dimensions convert, the reconciler
    returns. *)
Lemma handleResize_returns g cw ch :
  dimensions (gameState g) cw ch ->
  converts cw = true -> converts ch = true ->
  fst (handleResize g) = Normal tt.
Proof.
  intros D Cw Ch. pose proof (dimensions_truthy _ _ _ D) as Hb.
  destruct (dimensions_field _ _ _ D) as [Fw Fh].
  destruct (initialDimensionsSet g) eqn:Hi.
  - rewrite handleResize_past_guard; rewrite ?Fw, ?Fh; auto.
  - rewrite handleResize_guard; [reflexivity | now right].
Qed.

(** The six things the inbound handler can do. *)
Lemma onmessage_effect g (data : frame num) :
  inbound_effect g (onmessage data g).
Proof.
  unfold onmessage. destruct data as [| message]; [apply effect_none |].
  destruct (property message "type") as [type | e]; js_step;
    [| apply effect_none].
  destruct (is_string type "game_state").
  - destruct (property message "data") as [d | e]; js_step;
      [| apply effect_none].
    destruct (property d "canvas_width") as [cw | e] eqn:Hw; js_step.
    2:{ apply effect_snapshot. intros ? ? (Hw' & _). congruence. }
    destruct (ToBoolean cw) eqn:Bw; js_step.
    2:{ apply effect_snapshot. intros ? ? (Hw' & _ & Bw' & _). congruence. }
    destruct (property d "canvas_height") as [ch | e] eqn:Hh; js_step.
    2:{ apply effect_snapshot. intros ? ? (_ & Hh' & _). congruence. }
    destruct (ToBoolean ch) eqn:Bh.
    2:{ apply effect_snapshot. intros ? ? (_ & Hh' & _ & Bh'). congruence. }
    assert (D : dimensions d cw ch) by (repeat split; assumption).
    unfold when at 1. js_step.
    destruct (initialDimensionsSet g) eqn:Ei; cbn [negb orb];
      [destruct (strict_equals_number (width g) cw) eqn:Ew;
       [destruct (strict_equals_number (height g) ch) eqn:Eh |] |];
      cbn [negb orb]; unfold when; js_step.
    { apply effect_snapshot. intros cw' ch' (Hw' & Hh' & _).
      assert (cw' = cw) as -> by congruence.
      assert (ch' = ch) as -> by congruence. left. auto. }
    all: assert (Hcase : initialDimensionsSet g = false
                         \/ strict_equals_number (width g) cw = false
                         \/ strict_equals_number (height g) ch = false)
           by (first [ left; assumption | right; left; assumption
                     | right; right; assumption ]).
    all: destruct (converts cw) eqn:Cw;
           [rewrite (converts_ToNumber cw Cw)
           | rewrite (raises_ToNumber cw Cw)]; js_step;
           [| apply effect_snapshot; intros cw' ch' (Hw' & _); right;
              split; [reflexivity | congruence]].
    all: destruct (converts ch) eqn:Ch;
           [rewrite (converts_ToNumber ch Ch)
           | rewrite (raises_ToNumber ch Ch)]; js_step;
           [| exact (effect_width g d cw ch D Cw Ch)].
    all: rewrite (surjective_pairing (handleResize _));
           rewrite (handleResize_returns _ cw ch)
             by first [exact D | assumption].
    all: refine (eq_rect _ (inbound_effect g)
                   (effect_geometry g d cw ch _ D Cw Ch Hcase eq_refl) _ _).
    all: rewrite Ei; unfold after; do 2 f_equal.
    all: destruct g; cbn in *; subst; reflexivity.
  - destruct (is_string type "connected").
    + destruct (property message "message") as [text | e]; js_step;
        [apply effect_log | apply effect_none].
    + destruct (is_string type "player_disconnected"); [| apply effect_none].
      destruct (property message "message") as [text | e]; js_step;
        [| apply effect_none].
      apply effect_waiting.
Qed.

End Handlers.

(** ** The reconciler in every state *)

Section ReconcilerAnywhere.

Context {num : Type} `{JSNumber num} `{Host num}.

Implicit Types (g : PongGame num) (v : value num).

(** X1.  [handleResize] writes nothing but the CSS box of the canvas,
    the two scale factors and the console: the resolution of the canvas,
    the snapshot and its flag, the socket and the flag of the connection,
    the pressed keys, the status text and the context are left as they
    were.  It ends normally or raises a TypeError; it raises exactly when
    it is past its guard and the conversion to a number of the width or
    of the height of the snapshot raises, and then it has written
    nothing at all. *)
Theorem reconciler_raises_only_on_conversion :
  forall g,
    let g' := after handleResize g in
    let gs := gameState g in
    (width g' = width g /\ height g' = height g /\
     gameState g' = gameState g /\
     initialDimensionsSet g' = initialDimensionsSet g /\
     ws g' = ws g /\ connected g' = connected g /\
     pressedKeys g' = pressedKeys g /\
     connectionStatus g' = connectionStatus g /\
     ctx g' = ctx g /\
     clientWidth g' = clientWidth g /\ clientHeight g' = clientHeight g /\
     playerId g' = playerId g) /\
    (fst (handleResize g) = Normal tt
     \/ handleResize g = (Throw TypeError, g)) /\
    (fst (handleResize g) = Normal tt <->
     ToBoolean gs = false \/ initialDimensionsSet g = false
     \/ converts (field gs "canvas_width")
        && converts (field gs "canvas_height") = true).
Proof.
  intros g g' gs. split.
  { pose proof (handleResize_footprint g) as E.
    fold (after handleResize g) in E. fold g' in E.
    repeat apply conj.
    - exact (f_equal width E).
    - exact (f_equal height E).
    - exact (f_equal gameState E).
    - exact (f_equal initialDimensionsSet E).
    - exact (f_equal ws E).
    - exact (f_equal connected E).
    - exact (f_equal pressedKeys E).
    - exact (f_equal connectionStatus E).
    - exact (f_equal ctx E).
    - exact (f_equal clientWidth E).
    - exact (f_equal clientHeight E).
    - exact (f_equal playerId E). }
  subst gs.
  destruct (ToBoolean (gameState g)) eqn:Hb.
  2:{ rewrite handleResize_guard by now left. cbn. intuition. }
  destruct (initialDimensionsSet g) eqn:Hi.
  2:{ rewrite handleResize_guard by now right. cbn. intuition. }
  destruct (converts (field (gameState g) "canvas_width")
            && converts (field (gameState g) "canvas_height")) eqn:Hc.
  - apply andb_true_iff in Hc as [Cw Ch].
    rewrite (handleResize_past_guard g Hb Hi Cw Ch). cbn. intuition.
  - rewrite (handleResize_past_guard_raises g Hb Hi Hc). cbn.
    split; [now right |].
    split; [discriminate | intros [? | [? | ?]]; discriminate].
Qed.

(** X2.  The display transform that [handleResize] sets depends on the
    container and the snapshot only: a second run in a row leaves the
    CSS box and the scale factors as the first run set them. *)
Theorem reconciler_idempotent :
  forall g,
    display (after handleResize (after handleResize g))
    = display (after handleResize g).
Proof.
  intros g. unfold after.
  destruct (ToBoolean (gameState g)) eqn:Hb.
  - destruct (initialDimensionsSet g) eqn:Hi.
    + destruct (converts (field (gameState g) "canvas_width")
                && converts (field (gameState g) "canvas_height")) eqn:Hc.
      * apply andb_true_iff in Hc as [Cw Ch].
        rewrite (handleResize_past_guard g Hb Hi Cw Ch). cbn [snd].
        rewrite handleResize_past_guard by (state_norm; assumption).
        reflexivity.
      * rewrite (handleResize_past_guard_raises g Hb Hi Hc). cbn [snd].
        now rewrite (handleResize_past_guard_raises g Hb Hi Hc).
    + rewrite !(handleResize_guard g); auto.
  - rewrite !(handleResize_guard g); auto.
Qed.

End ReconcilerAnywhere.

(** ** The inbound handler in every state *)

Section InboundAnywhere.

Context {num : Type} `{JSNumber num} `{Host num}.

Implicit Types (g : PongGame num) (v message data : value num).

Lemma painted_without_snapshot g :
  ToBoolean (gameState g) = false ->
  painted g = background_calls (width g) (height g)
              ++ placeholder_calls (width g) (height g).
Proof.
  intros Hb. unfold painted, after. rewrite (render_without_snapshot g Hb).
  cbn [snd]. state_norm. apply drop_app_length.
Qed.

(** Runs the inbound handler on a [game_state] frame up to the
    assignments of the geometry branch. *)
Ltac to_assignments Ht Hd Hw Hh Bw Bh Hcase :=
  unfold onmessage;
  rewrite Ht; js_step; cbn [is_string String.eqb Ascii.eqb Bool.eqb];
  rewrite Hd; js_step; rewrite Hw; js_step; rewrite Bw; js_step;
  rewrite Hh; js_step; rewrite Bh; unfold when at 1; js_step;
  let G := fresh "G" in
  match goal with
  | |- context [when ?b _] =>
      assert (G : b = true)
        by (destruct Hcase as [-> | [-> | ->]]; cbn; rewrite ?orb_true_r;
            reflexivity);
      rewrite G
  end;
  unfold when; js_step.

(** A [game_state] frame whose snapshot carries both dimensions, with the
    flag of the dimensions down or a dimension that is not the one the
    canvas has: the geometry branch, for dimensions whose conversion
    does not raise. *)
Lemma onmessage_geometry g message data cw ch :
  property message "type" = Normal (VStr "game_state") ->
  property message "data" = Normal data ->
  dimensions data cw ch ->
  initialDimensionsSet g = false
  \/ strict_equals_number (width g) cw = false
  \/ strict_equals_number (height g) ch = false ->
  converts cw = true -> converts ch = true ->
  onmessage (Json message) g
  = (Normal tt,
     after handleResize
       (set_initialDimensionsSet true
          (set_console
             (console g
              ++ [if initialDimensionsSet g
                  then LogDimensionsUpdated (reflect_width (number cw))
                                            (reflect_height (number ch))
                  else LogInitialDimensions (reflect_width (number cw))
                                            (reflect_height (number ch))])
             (set_height (reflect_height (number ch))
                (set_width (reflect_width (number cw))
                   (set_gameState data g)))))).
Proof.
  intros Ht Hd D Hcase Cw Ch. pose proof D as (Hw & Hh & Bw & Bh).
  to_assignments Ht Hd Hw Hh Bw Bh Hcase.
  rewrite (converts_ToNumber cw Cw). js_step.
  rewrite (converts_ToNumber ch Ch). js_step.
  destruct (initialDimensionsSet g) eqn:Ei; cbn [negb]; js_step;
    rewrite (surjective_pairing (handleResize _));
    rewrite (handleResize_returns _ cw ch) by first [exact D | assumption];
    unfold after; do 2 f_equal.
  destruct g; cbn in *; subst; reflexivity.
Qed.

(** X4.  A [game_state] frame whose snapshot carries both dimensions,
    truthy, while the flag of the dimensions is down or one of them is
    not ([!==]) the one the canvas has, assigns the dimensions to the
    canvas, each one converted to a number first.  If both conversions
    return, the frame is handled without raising: it stores the
    snapshot, assigns the two dimensions to the canvas, raises the flag
    and runs the reconciler, which sets the CSS box fitted to the
    container and the two scale factors.  If the conversion of the width
    raises, the handler raises a TypeError having replaced the snapshot
    only; if the conversion of the height raises, it raises a TypeError
    having replaced the snapshot and assigned the width only. *)
Theorem game_state_sets_geometry :
  forall g message data cw ch,
    property message "type" = Normal (VStr "game_state") ->
    property message "data" = Normal data ->
    dimensions data cw ch ->
    initialDimensionsSet g = false
    \/ strict_equals_number (width g) cw = false
    \/ strict_equals_number (height g) ch = false ->
    let g' := after (onmessage (Json message)) g in
    let ratio := num_div (number cw) (number ch) in
    let dw := fit_width (clientWidth g) (clientHeight g) ratio in
    let dh := fit_height (clientWidth g) (clientHeight g) ratio in
    (converts cw = true -> converts ch = true ->
       fst (onmessage (Json message) g) = Normal tt /\
       gameState g' = data /\
       width g' = reflect_width (number cw) /\
       height g' = reflect_height (number ch) /\
       initialDimensionsSet g' = true /\
       style_width g' = Some dw /\ style_height g' = Some dh /\
       scaleX g' = num_div dw (number cw) /\
       scaleY g' = num_div dh (number ch)) /\
    (converts cw = false ->
       onmessage (Json message) g
       = (Throw TypeError, set_gameState data g)) /\
    (converts cw = true -> converts ch = false ->
       onmessage (Json message) g
       = (Throw TypeError,
          set_width (reflect_width (number cw)) (set_gameState data g))).
Proof.
  intros g message data cw ch Ht Hd D Hcase g' ratio dw dh.
  split; [| split].
  - intros Cw Ch. subst g'. unfold after at 1 2 3 4 5 6 7 8.
    rewrite (onmessage_geometry g message data cw ch Ht Hd D Hcase Cw Ch).
    cbn [fst snd]. split; [reflexivity |].
    pose proof (dimensions_truthy _ _ _ D) as Hb.
    destruct D as (Hw & Hh & _).
    unfold after. erewrite handleResize_runs; try (state_norm; eassumption);
      [| reflexivity].
    cbn [snd]. state_norm. repeat split.
  - intros Cw. pose proof D as (Hw & Hh & Bw & Bh).
    to_assignments Ht Hd Hw Hh Bw Bh Hcase.
    rewrite (raises_ToNumber cw Cw). js_step. reflexivity.
  - intros Cw Ch. pose proof D as (Hw & Hh & Bw & Bh).
    to_assignments Ht Hd Hw Hh Bw Bh Hcase.
    rewrite (converts_ToNumber cw Cw). js_step.
    rewrite (raises_ToNumber ch Ch). js_step. reflexivity.
Qed.

(** X5.  After any inbound frame the stored snapshot is the [data] of the
    frame if the frame is a JSON value with [type] [game_state], and the
    snapshot stored before otherwise: a snapshot is replaced as a
    whole, whatever it holds and whether or not the handler then
    raises, and no other frame touches it. *)
Theorem snapshot_is_latest_game_state :
  forall g (data : frame num),
    gameState (after (onmessage data) g)
    = match data with
      | Json message =>
        if is_string (field message "type") "game_state"
        then field message "data"
        else gameState g
      | Malformed => gameState g
      end.
Proof.
  intros g [| message]; [reflexivity |].
  unfold after, onmessage.
  destruct (nullish message) eqn:N.
  { destruct message; try discriminate; reflexivity. }
  rewrite !(property_field _ _ N). js_step.
  destruct (is_string (field message "type") "game_state").
  - js_step.
    match goal with
    | |- gameState (snd (?c ?s)) = _ =>
        transitivity (gameState s); [| reflexivity];
        enough (K : keeps gameState c) by apply K
    end.
    keeps_steps ltac:(apply handleResize_keeps; reflexivity).
  - match goal with
    | |- gameState (snd (?c ?s)) = _ =>
        enough (K : keeps gameState c) by apply K
    end.
    keeps_steps fail.
Qed.

(** X6.  A [game_state] frame whose [data] is null or missing makes the
    handler raise a TypeError, at [this.gameState.canvas_width], after
    the snapshot has been replaced: the client is left without a
    snapshot, a resize does nothing, and the next iteration of the
    render loop paints the waiting text. *)
Theorem game_state_without_data :
  forall g message data,
    property message "type" = Normal (VStr "game_state") ->
    property message "data" = Normal data ->
    nullish data = true ->
    let g' := after (onmessage (Json message)) g in
    onmessage (Json message) g = (Throw TypeError, set_gameState data g) /\
    (forall boxWidth boxHeight,
        handleResize (set_client_box boxWidth boxHeight g')
        = (Normal tt, set_client_box boxWidth boxHeight g')) /\
    fst (render g') = Normal tt /\
    painted g' = background_calls (width g) (height g)
                 ++ placeholder_calls (width g) (height g).
Proof.
  intros g message data Ht Hd N g'.
  assert (E : onmessage (Json message) g
              = (Throw TypeError, set_gameState data g)).
  { unfold onmessage. rewrite Ht. js_step.
    cbn [is_string String.eqb Ascii.eqb Bool.eqb]. rewrite Hd. js_step.
    destruct data; try discriminate; reflexivity. }
  assert (Hb : ToBoolean (gameState g') = false).
  { subst g'. unfold after. rewrite E. cbn.
    destruct data; try discriminate; reflexivity. }
  split; [exact E |]. split; [| split].
  - intros boxWidth boxHeight. apply handleResize_guard. now left.
  - now rewrite render_without_snapshot.
  - rewrite (painted_without_snapshot g' Hb). subst g'. unfold after.
    now rewrite E.
Qed.


(** X8.  No inbound frame, whatever it holds and whether or not the
    handler raises, changes the socket or the messages queued on it,
    the flag [this.connected], the set of pressed keys, the calls made
    on the context, the box of the container or the player id. *)
Theorem inbound_never_sends_or_paints :
  forall g (data : frame num),
    let g' := after (onmessage data) g in
    ws g' = ws g /\ connected g' = connected g /\
    pressedKeys g' = pressedKeys g /\ ctx g' = ctx g /\
    clientWidth g' = clientWidth g /\ clientHeight g' = clientHeight g /\
    playerId g' = playerId g.
Proof.
  intros g data g'.
  pose proof (onmessage_footprint data g) as E.
  fold (after (onmessage data) g) in E. fold g' in E.
  repeat apply conj.
  - exact (f_equal ws E).
  - exact (f_equal connected E).
  - exact (f_equal pressedKeys E).
  - exact (f_equal ctx E).
  - exact (f_equal clientWidth E).
  - exact (f_equal clientHeight E).
  - exact (f_equal playerId E).
Qed.

End InboundAnywhere.

(** X4 on the first snapshot, for a game world of 1024 x 768 in a
    container of 1000 x 500. *)
Lemma game_state_sets_geometry_witness :
  let g := (opened (num := float) 1000 500)%float in
  let g' := after (onmessage (game_state_frame
                                (sample_snapshot 1024 768)%float)) g in
  width g' = 1024%float /\ height g' = 768%float /\
  initialDimensionsSet g' = true /\
  style_height g' = Some 500%float.
Proof.
  intros g g'.
  destruct (game_state_sets_geometry g
              (VObj [("type", VStr "game_state");
                     ("data", (sample_snapshot 1024 768)%float)])
              (sample_snapshot 1024 768)%float
              (VNum 1024%float) (VNum 768%float) eq_refl eq_refl)
    as (Hg & _).
  - repeat split; vm_compute; reflexivity.
  - left. reflexivity.
  - destruct (Hg eq_refl eq_refl) as (_ & _ & Hw & Hh & Hi & _ & Hsh & _).
    split; [exact Hw |]. split; [exact Hh |]. split; [exact Hi |].
    etransitivity; [exact Hsh | vm_compute; reflexivity].
Defined.


(** X6 on a frame [{type: 'game_state'}] that reaches a client which
    holds a snapshot. *)
Lemma game_state_without_data_witness :
  let g := (playing (num := float) 1000 500 800 600)%float in
  let message := VObj [("type", VStr "game_state")] in
  onmessage (Json message) g = (Throw TypeError, set_gameState VUndefined g) /\
  fst (render (after (onmessage (Json message)) g)) = Normal tt.
Proof.
  intros g message.
  destruct (game_state_without_data g message VUndefined
              eq_refl eq_refl eq_refl) as (E & _ & Hr & _).
  exact (conj E Hr).
Defined.

(** ** Invariants of the event loop, continued *)

Section Kept.

Context {num : Type} `{JSNumber num} `{Host num}.

Implicit Types (g : PongGame num) (A V : Type).

Lemma kept_by A V (erase : PongGame num -> PongGame num)
    (view : PongGame num -> V) (c : JS num A) g :
  keeps erase c -> (forall g, view (erase g) = view g) ->
  view (after c g) = view g.
Proof. intros Hc Hv. exact (keeps_factor _ _ erase view c Hc Hv g). Qed.

Lemma reachable_step g g' : reachable g -> task g g' -> reachable g'.
Proof.
  intros (pid & env & boxWidth & boxHeight & status & R) T.
  exists pid, env, boxWidth, boxHeight, status.
  eapply rtc_r; eassumption.
Qed.

Lemma reachable_run g g' : reachable g -> rtc task g g' -> reachable g'.
Proof.
  intros (pid & env & boxWidth & boxHeight & status & R) T.
  exists pid, env, boxWidth, boxHeight, status.
  etransitivity; eassumption.
Qed.

Lemma started_reachable (boxWidth boxHeight : num) :
  reachable (started boxWidth boxHeight).
Proof.
  unfold reachable, started.
  refine (ex_intro _ "player1" (ex_intro _ None (ex_intro _ boxWidth
            (ex_intro _ boxHeight (ex_intro _ (Some "") _))))).
  apply rtc_refl.
Qed.

(** With the flag down nothing is sent. *)
Lemma resetGame_flag_down g :
  connected g = false -> resetGame g = (Normal tt, g).
Proof.
  intros Hc. unfold resetGame. js_step. rewrite Hc. now destruct (ws g).
Qed.

End Kept.

(** A view of the state after a handler is the view before it, by the
    footprint of the handler. *)
Ltac kept_view :=
  let g0 := fresh "g" in
  intros g0;
  first [ reflexivity
        | destruct g0 as [? ? ? ? ? ? ? ? ? ? ? [?|] ? ? ? ? ?]; reflexivity ].

Ltac kept :=
  etransitivity;
  [ lazymatch goal with
    | |- _ (after (keydown _) _) = _ =>
        apply (kept_by _ _ sans_keys); [apply keydown_footprint |]
    | |- _ (after (keyup _) _) = _ =>
        apply (kept_by _ _ sans_keys); [apply keyup_footprint |]
    | |- _ (after tick _) = _ =>
        apply (kept_by _ _ sans_queue); [apply tick_footprint |]
    | |- _ (after resetGame _) = _ =>
        apply (kept_by _ _ sans_queue); [apply resetGame_footprint |]
    | |- _ (after render _) = _ =>
        apply (kept_by _ _ sans_ctx); [apply render_footprint |]
    | |- _ (after handleResize _) = _ =>
        apply (kept_by _ _ sans_display); [apply handleResize_footprint |]
    | |- _ (after (onmessage _) _) = _ =>
        apply (kept_by _ _ sans_inbound); [apply onmessage_footprint |]
    | |- _ (after onopen _) = _ =>
        apply (kept_by _ _ sans_flag); [apply onopen_footprint |]
    | |- _ (after (updateConnectionStatus _) _) = _ =>
        apply (kept_by _ _ sans_flag);
        [apply updateConnectionStatus_footprint |]
    | |- _ (after (_ ≫= (fun _ => onclose)) _) = _ =>
        apply (kept_by _ _ sans_flag); [apply closing_footprint |]
    end; kept_view
  | reflexivity ].

Section ClientInvariants.

Context {num : Type} `{JSNumber num} `{Host num}.

Implicit Types (g : PongGame num).

(** *** The status text follows the socket *)

Lemma startGame_status_view pid env boxWidth boxHeight status :
  status_view (startGame pid env boxWidth boxHeight status)
  = (match status with
     | Some _ => Some "Status: Connecting..."
     | None => None
     end, Some CONNECTING).
Proof. destruct status; reflexivity. Qed.

Lemma task_status_follows_socket g g' :
  task g g' ->
  status_follows_socket (status_view g) ->
  status_follows_socket (status_view g').
Proof.
  intros T. destruct T as [g w Ew Er | g w data Ew Er | g w Ew Er
    | g w failed Ew Er | g key | g key | g | g boxWidth boxHeight | g | g].
  - intros _. unfold status_view, after, onopen, with_readyState,
      updateConnectionStatus.
    rewrite Ew. js_step.
    destruct (connectionStatus g) eqn:Es; cbn; rewrite ?Es; auto.
  - intros I. unfold status_view in *.
    replace (ws (after (onmessage data) g)) with (ws g) by (symmetry; kept).
    rewrite Ew in *. cbn [fmap option_fmap option_map] in *. rewrite Er in *.
    unfold after.
    destruct (onmessage_effect g data) as [r | text | text | r d Hd
                                          | d cw ch D Cw Ch
                                          | d cw ch entry D Cw Ch Hc He];
      cbn [snd]; state_norm; try exact I.
    + unfold after, updateConnectionStatus, write. cbn [snd]. state_norm.
      destruct (connectionStatus g) eqn:Es; cbn; rewrite ?Es; cbn; auto.
    + replace (connectionStatus (after handleResize _))
        with (connectionStatus g) by (symmetry; kept).
      exact I.
  - unfold with_readyState, status_view. rewrite Ew. cbn. rewrite Er.
    destruct (connectionStatus g); auto.
  - intros _. unfold after, onclose, onerror, with_readyState,
      updateConnectionStatus, status_view.
    rewrite Ew. destruct (connectionStatus g) eqn:Es; destruct failed;
      repeat (progress (js_step; state_norm; rewrite ?Es));
      cbn; rewrite ?Es; cbn; auto.
  - intros I. replace (status_view (after (keydown key) g))
      with (status_view g) by (symmetry; kept). exact I.
  - intros I. replace (status_view (after (keyup key) g))
      with (status_view g) by (symmetry; kept). exact I.
  - intros I. replace (status_view (after tick g))
      with (status_view g) by (symmetry; kept). exact I.
  - intros I. replace (status_view (after handleResize _))
      with (status_view g) by (symmetry; kept). exact I.
  - intros I. replace (status_view (after render g))
      with (status_view g) by (symmetry; kept). exact I.
  - intros I. replace (status_view (after resetGame g))
      with (status_view g) by (symmetry; kept). exact I.
Qed.

(** X9.  In every state the client can reach, the text of the status
    element, on a page that has one, follows the state of the socket:
    [Status: Connecting...] while the socket is CONNECTING,
    [Status: Connected] or [Status: Waiting for other player...] while
    it is OPEN or CLOSING, and [Status: Disconnected] once it is CLOSED;
    the text [Status: Connection error] is never left showing. *)
Theorem status_text_follows_socket :
  forall g, reachable g -> status_follows_socket (status_view g).
Proof.
  intros g (pid & env & boxWidth & boxHeight & status & R).
  revert g R. apply rtc_ind_r.
  - rewrite startGame_status_view. now destruct status.
  - intros g1 g2 _ T IH. eapply task_status_follows_socket; eassumption.
Qed.

(** *** A closed connection stays closed *)

Lemma task_after_close g g' w :
  task g g' ->
  ws g = Some w -> readyState w = CLOSED -> connected g = false ->
  ws g' = Some w /\ connected g' = false.
Proof.
  intros T Ew Er Ec.
  assert (K : forall s, connection s = connection g ->
                ws s = Some w /\ connected s = false)
    by (unfold connection; intros s [= -> ->]; auto).
  destruct T as [g w' Ew' Er' | g w' data Ew' Er' | g w' Ew' Er'
    | g w' failed Ew' Er' | g key | g key | g | g boxWidth boxHeight | g | g];
    try (assert (w' = w) as -> by congruence; congruence).
  - apply K. kept.
  - apply K. kept.
  - unfold after. rewrite (tick_disconnected g Ec). auto.
  - apply K. kept.
  - apply K. kept.
  - unfold after. rewrite (resetGame_flag_down g Ec). auto.
Qed.

(** X10.  A closed connection stays closed: from a state the client can
    reach in which the socket is CLOSED, no run of the event loop opens
    a socket again, raises the flag [this.connected] or queues a
    message; the socket is left as it was. *)
Theorem closed_connection_is_final :
  forall g g' w,
    reachable g -> ws g = Some w -> readyState w = CLOSED ->
    rtc task g g' ->
    ws g' = Some w /\ connected g' = false /\ outbound g' = outbound g.
Proof.
  intros g g' w R Ew Er Run.
  assert (Ec : connected g = false).
  { pose proof (reachable_flag_follows_socket g R) as I.
    unfold link in I. rewrite Ew in I. cbn in I. now rewrite Er in I. }
  enough (ws g' = Some w /\ connected g' = false) as [E1 E2].
  { unfold outbound. rewrite E1, Ew. auto. }
  revert g' Run. apply rtc_ind_r; [auto |].
  intros g1 g2 _ T [E1 E2]. eapply task_after_close; eassumption.
Qed.

(** *** Before the first dimensions *)

Lemma untransformed_view g g' :
  initialDimensionsSet g' = initialDimensionsSet g ->
  display g' = display g -> height g' = height g ->
  (initialDimensionsSet g = false -> untransformed g) ->
  initialDimensionsSet g' = false -> untransformed g'.
Proof.
  intros Ei Ed Eh I E. unfold untransformed. rewrite Ed, Eh. apply I.
  now rewrite <- Ei.
Qed.

Lemma untransformed_geometry g g' :
  geometry g' = geometry g ->
  (initialDimensionsSet g = false -> untransformed g) ->
  initialDimensionsSet g' = false -> untransformed g'.
Proof.
  intros E. apply untransformed_view.
  - exact (f_equal (fun x => fst (fst x)) E).
  - exact (f_equal (fun x => snd (fst x)) E).
  - exact (f_equal (fun x => snd (snd x)) E).
Qed.

Lemma task_untransformed g g' :
  task g g' ->
  (initialDimensionsSet g = false -> untransformed g) ->
  initialDimensionsSet g' = false -> untransformed g'.
Proof.
  intros T. destruct T as [g w Ew Er | g w data Ew Er | g w Ew Er
    | g w failed Ew Er | g key | g key | g | g boxWidth boxHeight | g | g].
  - apply untransformed_geometry.
    transitivity (geometry (with_readyState OPEN g));
      [kept | unfold with_readyState; now destruct (ws g)].
  - unfold after.
    destruct (onmessage_effect g data) as [r | text | text | r d Hd
                                          | d cw ch D Cw Ch
                                          | d cw ch entry D Cw Ch Hc He];
      cbn [snd]; try (apply untransformed_view; reflexivity).
    + apply untransformed_geometry. kept.
    + intros _ E.
      replace (initialDimensionsSet (after handleResize _)) with true in E
        by (symmetry; kept).
      discriminate.
  - apply untransformed_geometry. unfold with_readyState. now destruct (ws g).
  - apply untransformed_geometry.
    transitivity (geometry (with_readyState CLOSED g));
      [kept | unfold with_readyState; now destruct (ws g)].
  - apply untransformed_geometry. kept.
  - apply untransformed_geometry. kept.
  - apply untransformed_geometry. kept.
  - intros I E.
    assert (Ei : initialDimensionsSet g = false).
    { rewrite <- E. symmetry.
      transitivity (initialDimensionsSet (set_client_box boxWidth boxHeight g));
        [kept | reflexivity]. }
    unfold after. rewrite handleResize_guard by (right; exact Ei).
    exact (I Ei).
  - apply untransformed_geometry. kept.
  - apply untransformed_geometry. kept.
Qed.

(** X11.  In every state the client can reach, as long as no snapshot
    has set the dimensions ([this.initialDimensionsSet] is false) the
    display transform is as the constructor left it, and so is the
    height of the canvas: no CSS box has been assigned, both scale
    factors are 1, and the canvas has the height of [CONFIG], 600.  (The
    width of the canvas may have changed: a snapshot whose width
    converts and whose height does not leaves its width on the canvas
    and the flag down.) *)
Theorem display_untransformed_before_dimensions :
  forall g,
    reachable g -> initialDimensionsSet g = false -> untransformed g.
Proof.
  intros g (pid & env & boxWidth & boxHeight & status & R).
  revert g R.
  apply (rtc_ind_r
           (fun g => initialDimensionsSet g = false -> untransformed g)).
  - intros _. destruct status; split; reflexivity.
  - intros g1 g2 _ T IH. eapply task_untransformed; eassumption.
Qed.

(** *** The flag of the dimensions stays up *)

Lemma task_flag_stays_up g g' :
  task g g' -> initialDimensionsSet g = true ->
  initialDimensionsSet g' = true.
Proof.
  intros T Ei.
  destruct T as [g w Ew Er | g w data Ew Er | g w Ew Er
    | g w failed Ew Er | g key | g key | g | g boxWidth boxHeight | g | g].
  - rewrite <- Ei.
    transitivity (initialDimensionsSet (with_readyState OPEN g));
      [kept | unfold with_readyState; now destruct (ws g)].
  - unfold after.
    destruct (onmessage_effect g data) as [r | text | text | r d Hd
                                          | d cw ch D Cw Ch
                                          | d cw ch entry D Cw Ch Hc He];
      cbn [snd]; try exact Ei.
    + rewrite <- Ei. kept.
    + transitivity (initialDimensionsSet
                      (set_initialDimensionsSet true
                         (set_console (console g ++ [entry])
                            (set_height (reflect_height (number ch))
                               (set_width (reflect_width (number cw))
                                  (set_gameState d g))))));
        [kept | reflexivity].
  - unfold with_readyState. now destruct (ws g).
  - rewrite <- Ei.
    transitivity (initialDimensionsSet (with_readyState CLOSED g));
      [kept | unfold with_readyState; now destruct (ws g)].
  - rewrite <- Ei. kept.
  - rewrite <- Ei. kept.
  - rewrite <- Ei. kept.
  - rewrite <- Ei.
    transitivity (initialDimensionsSet (set_client_box boxWidth boxHeight g));
      [kept | reflexivity].
  - rewrite <- Ei. kept.
  - rewrite <- Ei. kept.
Qed.

(** X12.  Once a snapshot has set the dimensions the flag
    [this.initialDimensionsSet] stays up: no run of the event loop
    lowers it, so from then on the guard of the reconciler depends on
    the snapshot alone. *)
Theorem dimensions_flag_stays_up :
  forall g g',
    initialDimensionsSet g = true -> rtc task g g' ->
    initialDimensionsSet g' = true.
Proof.
  intros g g' Ei Run. revert g' Run. apply rtc_ind_r; [exact Ei |].
  intros g1 g2 _ T IH. eapply task_flag_stays_up; eassumption.
Qed.

(** *** The resolution follows the snapshot *)

Lemma dimensions_unique (v cw ch cw' ch' : value num) :
  dimensions v cw ch -> dimensions v cw' ch' -> cw' = cw /\ ch' = ch.
Proof. intros (Hw & Hh & _) (Hw' & Hh' & _). split; congruence. Qed.

Lemma scene_resolution g g' :
  scene g' = scene g ->
  (forall cw ch, dimensions (gameState g) cw ch ->
     converts cw = true -> converts ch = true -> resolution_of g cw ch) ->
  forall cw ch, dimensions (gameState g') cw ch ->
    converts cw = true -> converts ch = true -> resolution_of g' cw ch.
Proof.
  intros E I cw ch.
  rewrite (f_equal fst E : gameState g' = gameState g).
  unfold resolution_of.
  rewrite (f_equal (fun x => fst (snd x)) E : width g' = width g).
  rewrite (f_equal (fun x => snd (snd x)) E : height g' = height g).
  apply I.
Qed.

Lemma task_resolution g g' :
  task g g' ->
  (forall cw ch, dimensions (gameState g) cw ch ->
     converts cw = true -> converts ch = true -> resolution_of g cw ch) ->
  forall cw ch, dimensions (gameState g') cw ch ->
    converts cw = true -> converts ch = true -> resolution_of g' cw ch.
Proof.
  intros T. destruct T as [g w Ew Er | g w data Ew Er | g w Ew Er
    | g w failed Ew Er | g key | g key | g | g boxWidth boxHeight | g | g].
  - apply scene_resolution.
    transitivity (scene (with_readyState OPEN g));
      [kept | unfold with_readyState; now destruct (ws g)].
  - unfold after.
    destruct (onmessage_effect g data) as [r | text | text | r d Hd
                                          | d cw ch D Cw Ch
                                          | d cw ch entry D Cw Ch Hc He];
      cbn [snd]; try (apply scene_resolution; reflexivity).
    + apply scene_resolution. kept.
    + intros _ cw ch D Cw Ch. right.
      destruct (Hd cw ch D) as [(_ & _ & Ew' & Eh') | (_ & Cw')];
        [split; assumption | congruence].
    + intros _ cw' ch' D' Cw' Ch'.
      destruct (dimensions_unique _ _ _ _ _ D D') as [-> ->]. congruence.
    + intros _ cw' ch' D' _ _.
      replace (gameState (after handleResize _)) with d in D'
        by (symmetry; etransitivity; [kept | reflexivity]).
      destruct (dimensions_unique _ _ _ _ _ D D') as [-> ->].
      left. split; (etransitivity; [kept | reflexivity]).
  - apply scene_resolution. unfold with_readyState. now destruct (ws g).
  - apply scene_resolution.
    transitivity (scene (with_readyState CLOSED g));
      [kept | unfold with_readyState; now destruct (ws g)].
  - apply scene_resolution. kept.
  - apply scene_resolution. kept.
  - apply scene_resolution. kept.
  - apply scene_resolution.
    transitivity (scene (set_client_box boxWidth boxHeight g));
      [kept | reflexivity].
  - apply scene_resolution. kept.
  - apply scene_resolution. kept.
Qed.

(** X13.  In every state the client can reach, the resolution of the
    canvas goes with the snapshot in the store: if the snapshot carries
    both dimensions, truthy and such that their conversion to a number
    does not raise, then the width and the height of the canvas are what
    the canvas reads after the two have been assigned to it, or they are
    [===] to the two. *)
Theorem resolution_follows_snapshot :
  forall g cw ch,
    reachable g -> dimensions (gameState g) cw ch ->
    converts cw = true -> converts ch = true ->
    resolution_of g cw ch.
Proof.
  intros g cw ch (pid & env & boxWidth & boxHeight & status & R).
  revert cw ch. revert g R.
  apply (rtc_ind_r (fun g => forall cw ch, dimensions (gameState g) cw ch ->
                               converts cw = true -> converts ch = true ->
                               resolution_of g cw ch)).
  - intros cw ch (Hw & _). rewrite startGame_gameState in Hw. discriminate.
  - intros g1 g2 _ T IH. eapply task_resolution; eassumption.
Qed.

(** *** The sampler never raises *)

Lemma sendInput_discarded g (b : bool) (action : value num) :
  flag_follows_socket (link g) -> connection_open g = false ->
  when b (sendInput action) g = (Normal tt, g).
Proof.
  intros I Hc. destruct b; [| reflexivity]. now apply sendInput_closed.
Qed.

Lemma tick_closed g :
  flag_follows_socket (link g) -> connection_open g = false ->
  tick g = (Normal tt, g).
Proof.
  intros I Hc. unfold tick. js_step.
  do 3 (erewrite run_bind_normal by (apply sendInput_discarded; assumption);
        js_step).
  now apply sendInput_discarded.
Qed.

(** X14.  In every state the client can reach a tick of the input
    sampler ends normally: the InvalidStateError of [WebSocket.send] on
    a socket that is still CONNECTING is never raised.  While the
    connection is not in the Open state the tick changes nothing,
    whatever keys are held. *)
Theorem sampler_never_raises :
  forall g,
    reachable g ->
    fst (tick g) = Normal tt /\
    (connection_open g = false -> tick g = (Normal tt, g)).
Proof.
  intros g R. pose proof (reachable_flag_follows_socket g R) as I.
  split.
  - destruct (connection_open g) eqn:Ho.
    + apply tick_connected; [exact Ho |].
      unfold connection_open in Ho. unfold link in I.
      destruct (ws g) as [[? [] ?] |]; try discriminate. exact I.
    + now rewrite tick_closed.
  - now apply tick_closed.
Qed.

End ClientInvariants.

(** X9 on the client whose connection has failed: the status reads
    [Status: Disconnected]. *)
Lemma status_text_follows_socket_witness :
  status_follows_socket
    (status_view (disconnected (num := float) 1000 500)%float) /\
  connectionStatus (disconnected (num := float) 1000 500)%float
  = Some "Status: Disconnected".
Proof.
  split.
  - apply (status_text_follows_socket _ (disconnected_reachable _ _)).
  - vm_compute. reflexivity.
Defined.

(** X10 on the client whose connection has failed, with w held: a tick
    later the socket is as it was. *)
Lemma closed_connection_is_final_witness :
  let g := (disconnected (num := float) 1000 500)%float in
  let g' := after tick (after (keydown "w") g) in
  ws g' = ws g /\ connected g' = false /\ outbound g' = outbound g.
Proof.
  intros g g'.
  destruct (closed_connection_is_final g g'
              {| url := "ws://localhost:8000/api/v1/game/ws/player1";
                 readyState := CLOSED; sent := [] |}
              (disconnected_reachable _ _) eq_refl eq_refl)
    as (E1 & E2 & E3).
  - eapply rtc_l; [apply task_keydown |]. apply rtc_once, task_tick.
  - split; [| split]; [| exact E2 | exact E3].
    etransitivity; [exact E1 | reflexivity].
Defined.

(** X11 on the client whose socket has opened, after a snapshot with
    the width 1024 and a height that does not convert: the width is on
    the canvas, the rest is as the constructor left it. *)
Lemma display_untransformed_before_dimensions_witness :
  let data := VObj [("canvas_width", VNum 1024%float);
                    ("canvas_height", VObj [("toString", VNum 1%float)])] in
  let g := after (onmessage (game_state_frame data))
                 (opened (num := float) 1000 500)%float in
  untransformed g /\ width g = 1024%float.
Proof.
  intros data g. split; [| reflexivity].
  apply (display_untransformed_before_dimensions g); [| reflexivity].
  apply (reachable_step (opened 1000 500)%float); [apply opened_reachable |].
  exact (task_message (opened 1000 500)%float
           {| url := "ws://localhost:8000/api/v1/game/ws/player1";
              readyState := OPEN; sent := [] |}
           (game_state_frame data) eq_refl eq_refl).
Defined.

(** X12 on the client that has received a first snapshot, after a
    further frame without dimensions. *)
Lemma dimensions_flag_stays_up_witness :
  let g := (playing (num := float) 1000 500 800 600)%float in
  initialDimensionsSet
    (after (onmessage (game_state_frame (VObj []))) g) = true.
Proof.
  intros g.
  apply (dimensions_flag_stays_up g); [reflexivity |].
  apply rtc_once.
  exact (task_message g
           {| url := "ws://localhost:8000/api/v1/game/ws/player1";
              readyState := OPEN; sent := [] |}
           (game_state_frame (VObj [])) eq_refl eq_refl).
Defined.

(** X13 on the client that has received a first snapshot for a game
    world of 1024 x 768. *)
Lemma resolution_follows_snapshot_witness :
  resolution_of (playing (num := float) 1000 500 1024 768)%float
                (VNum 1024%float) (VNum 768%float).
Proof.
  apply (resolution_follows_snapshot _ _ _ (playing_reachable _ _ _ _));
    [repeat split; vm_compute; reflexivity | reflexivity ..].
Defined.

(** X14 on the client whose socket is still connecting. *)
Lemma sampler_never_raises_witness :
  let g := after (keydown "w") (started (num := float) 1000 500)%float in
  fst (tick g) = Normal tt.
Proof.
  intros g.
  refine (proj1 (sampler_never_raises g _)).
  exact (reachable_step _ _ (started_reachable _ _) (task_keydown _ "w")).
Defined.

(** ** The renderer in every state *)

Section RendererAnywhere.

Context {num : Type} `{JSNumber num} `{Host num}.

Implicit Types (g : PongGame num).

#[local] Instance paints_reflexive : Reflexive (paints (num := num)).
Proof.
  intros g. exists []. rewrite app_nil_r. now destruct g.
Qed.

#[local] Instance paints_transitive : Transitive (paints (num := num)).
Proof.
  intros g1 g2 g3 [l1 ->] [l2 ->]. exists (l1 ++ l2).
  cbn. now rewrite app_assoc.
Qed.

Lemma call_ctx_paints (c : ctx_call num) : steps paints (call_ctx c).
Proof. intros g. now exists [c]. Qed.

Lemma painting_call before1 before2 (c : ctx_call num) :
  respects (painting before1 before2) (call_ctx c).
Proof.
  apply respects_write. intros g1 g2 (E & l & E1 & E2).
  split; [exact E |]. exists (l ++ [c]). cbn.
  now rewrite E1, E2, !app_assoc.
Qed.

Lemma painting_gameState before1 before2 g1 g2 :
  painting before1 before2 g1 g2 -> gameState g1 = gameState g2.
Proof. intros [E _]. exact (f_equal fst E). Qed.

Lemma painting_width before1 before2 g1 g2 :
  painting before1 before2 g1 g2 -> width g1 = width g2.
Proof. intros [E _]. exact (f_equal (fun x => fst (snd x)) E). Qed.

Lemma painting_height before1 before2 g1 g2 :
  painting before1 before2 g1 g2 -> height g1 = height g2.
Proof. intros [E _]. exact (f_equal (fun x => snd (snd x)) E). Qed.

End RendererAnywhere.

(** Decomposes a computation of the renderer into its steps. *)
Ltac paints_steps :=
  repeat match goal with
    | |- @steps _ _ _ (mret _) => apply steps_ret; apply paints_reflexive
    | |- @steps _ _ _ (read _) => apply steps_read; apply paints_reflexive
    | |- @steps _ _ _ (lift _) => apply steps_lift; apply paints_reflexive
    | |- @steps _ _ _ (call_ctx _) => apply call_ctx_paints
    | |- @steps _ _ _ (_ ≫= _) =>
        apply steps_bind; [apply paints_transitive | | intros ?]
    | |- @steps _ _ _ (if ?b then _ else _) => destruct b
    end.

Ltac painting_steps :=
  repeat match goal with
    | |- @respects _ _ _ (mret _) => apply respects_ret
    | |- @respects _ _ _ (lift _) => apply respects_lift
    | |- @respects _ _ _ (read gameState) =>
        apply respects_read; apply painting_gameState
    | |- @respects _ _ _ (read width) =>
        apply respects_read; apply painting_width
    | |- @respects _ _ _ (read height) =>
        apply respects_read; apply painting_height
    | |- @respects _ _ _ (call_ctx _) => apply painting_call
    | |- @respects _ _ _ (_ ≫= _) => apply respects_bind; [| intros ?]
    | |- @respects _ _ _ (if ?b then _ else _) => destruct b
    end.

Section RendererProperties.

Context {num : Type} `{JSNumber num} `{Host num}.

Implicit Types (g : PongGame num).

Lemma render_paints : steps paints (render (num := num)).
Proof.
  unfold render, drawText, drawCenterLine, drawPaddle, drawBall, drawScores,
    context_arc, context_fillRect, context_fillText.
  paints_steps.
Qed.

Lemma render_painting before1 before2 :
  respects (painting before1 before2) (render (num := num)).
Proof.
  unfold render, drawText, drawCenterLine, drawPaddle, drawBall, drawScores,
    context_arc, context_fillRect, context_fillText.
  painting_steps.
Qed.

(** X15.  An iteration of the render loop only paints: in every state,
    whether [render] returns or raises, the state it leaves is the
    state it started from with further calls on the context, after
    those that had been made; and the first of them fill the whole
    canvas with the background colour. *)
Theorem render_only_paints :
  forall g,
    exists rest,
      after render g
      = set_ctx (ctx g ++ background_calls (width g) (height g) ++ rest) g.
Proof.
  intros g. unfold after, render. js_step.
  erewrite run_bind_normal by (apply context_fillRect_runs; reflexivity).
  js_step.
  match goal with
  | |- exists rest, snd (?c ?s) = _ =>
      assert (K : steps paints c);
      [| destruct (K s) as [rest E]; exists rest; rewrite E ]
  end.
  - unfold drawText, drawCenterLine, drawPaddle, drawBall, drawScores,
      context_arc, context_fillRect, context_fillText.
    paints_steps.
  - cbn. now rewrite <- !app_assoc.
Qed.

(** X16.  What an iteration of the render loop paints, and whether it
    raises, depends on the snapshot and on the resolution of the canvas
    only: not on the display transform, on the connection, on the keys
    held or on what has been painted before. *)
Theorem render_depends_on_scene :
  forall g1 g2,
    scene g1 = scene g2 ->
    fst (render g1) = fst (render g2) /\ painted g1 = painted g2.
Proof.
  intros g1 g2 E.
  destruct (render_painting (ctx g1) (ctx g2) g1 g2) as (Hr & _ & l & E1 & E2).
  { split; [exact E |]. exists []. now rewrite !app_nil_r. }
  split; [exact Hr |].
  unfold painted, after. rewrite E1, E2. now rewrite !drop_app_length.
Qed.

End RendererProperties.

(** X16 on the client that holds a snapshot, before and after its
    connection has failed: it goes on painting the snapshot. *)
Lemma render_depends_on_scene_witness :
  let g := (playing (num := float) 1000 500 800 600)%float in
  let g' := after (onerror;; onclose) (with_readyState CLOSED g) in
  fst (render g') = fst (render g) /\ painted g' = painted g.
Proof.
  intros g g'. apply (render_depends_on_scene g' g).
  vm_compute. reflexivity.
Defined.

(** ** The page *)

Section PageProperties.

Context {num : Type} `{JSNumber num} `{Host num}.

Implicit Types (g : PongGame num) (p : Page.state num).

(** *** The page and the game *)

Lemma page_startGame_game pid env boxWidth boxHeight status button :
  Page.game (Page.startGame pid env boxWidth boxHeight status button)
  = startGame pid env boxWidth boxHeight status.
Proof. destruct status, button; vm_compute; reflexivity. Qed.


(** The frame callback: [render], and a further request only if it
    returned. *)
Lemma page_frame p :
  Page.dispatch Page.AnimationFrame p
  = Page.set_animationFrame
      (match fst (render (Page.game p)) with
       | Normal _ => true
       | Throw _ => false
       end)
      (Page.set_game (after render (Page.game p)) p).
Proof.
  unfold Page.dispatch, Page.animate, Page.method, Page.requestAnimationFrame,
    after, mbind, Page.Script_bind.
  cbn. destruct (render (Page.game p)) as [[[] | e] g']; reflexivity.
Qed.

(** A task of the page is a task of the game. *)
Lemma page_task_game p p' :
  Page.task p p' -> task (Page.game p) (Page.game p').
Proof.
  intros [q e He]. destruct e; cbn in He.
  - unfold Page.socket in He.
    destruct (ws (Page.game q)) as [w |] eqn:Ew; [| discriminate].
    cbn in He. destruct (readyState w) eqn:Er; try discriminate.
    exact (task_open _ w Ew Er).
  - unfold Page.socket in He.
    destruct (ws (Page.game q)) as [w |] eqn:Ew; [| discriminate].
    cbn in He. destruct (readyState w) eqn:Er; try discriminate.
    exact (task_message _ w data Ew Er).
  - unfold Page.socket in He.
    destruct (ws (Page.game q)) as [w |] eqn:Ew; [| discriminate].
    cbn in He. destruct (readyState w) eqn:Er; try discriminate.
    exact (task_closing _ w Ew Er).
  - unfold Page.socket in He.
    destruct (ws (Page.game q)) as [w |] eqn:Ew; [| discriminate].
    cbn in He.
    refine (task_close _ w failed Ew _).
    intros Er. rewrite Er in He. discriminate.
  - apply task_keydown.
  - apply task_keyup.
  - apply task_tick.
  - apply task_resize.
  - rewrite page_frame. apply task_frame.
  - apply task_click_reset.
Qed.

Lemma page_reachable_game p : Page.reachable p -> reachable (Page.game p).
Proof.
  intros (pid & env & boxWidth & boxHeight & status & button & R).
  exists pid, env, boxWidth, boxHeight, status.
  rewrite <- (page_startGame_game pid env boxWidth boxHeight status button).
  revert p R. apply rtc_ind_r; [apply rtc_refl |].
  intros p1 p2 _ T IH. eapply rtc_r; [exact IH |]. now apply page_task_game.
Qed.

Lemma page_run_rtc (events : list (Page.event num)) p :
  rtc Page.task p (Page.run events p).
Proof.
  revert p. induction events as [| e events IH]; intros p; [apply rtc_refl |].
  cbn. unfold Page.deliver at 2. destruct (Page.enabled e p) eqn:He.
  - eapply rtc_l; [exact (Page.task_event p e He) | apply IH].
  - apply IH.
Qed.

Lemma page_run_reachable (events : list (Page.event num)) p :
  Page.reachable p -> Page.reachable (Page.run events p).
Proof.
  intros (pid & env & boxWidth & boxHeight & status & button & R).
  exists pid, env, boxWidth, boxHeight, status, button.
  etransitivity; [exact R | apply page_run_rtc].
Qed.

Lemma loaded_reachable (boxWidth boxHeight : num) :
  Page.reachable (loaded boxWidth boxHeight).
Proof.
  unfold Page.reachable, loaded.
  refine (ex_intro _ "player1" (ex_intro _ None (ex_intro _ boxWidth
            (ex_intro _ boxHeight (ex_intro _ (Some "")
               (ex_intro _ true _)))))).
  apply rtc_refl.
Qed.

(** *** The render loop *)

Lemma with_readyState_ctx r g : ctx (with_readyState r g) = ctx g.
Proof. unfold with_readyState. now destruct (ws g). Qed.

(** Nothing but the frame callback paints or asks for a frame. *)
Lemma page_task_without_frame p p' :
  Page.task p p' -> Page.animationFrame p = false ->
  Page.animationFrame p' = false /\ ctx (Page.game p') = ctx (Page.game p).
Proof.
  intros [q e He] Ef.
  destruct e; cbn in He; try congruence;
    unfold Page.dispatch, Page.method;
    cbn [Page.game Page.set_game Page.animationFrame snd];
    (split; [exact Ef |]).
  - rewrite <- (with_readyState_ctx OPEN (Page.game q)). kept.
  - kept.
  - apply with_readyState_ctx.
  - rewrite <- (with_readyState_ctx CLOSED (Page.game q)). kept.
  - kept.
  - kept.
  - kept.
  - kept.
  - fold (after resetGame (Page.game q)). kept.
Qed.

(** X17.  The render loop goes on only as long as [render] returns: a
    frame callback in which [render] returns asks for the next frame;
    one in which [render] raises does not, and from then on, whatever
    the page is delivered, no frame is asked for and nothing more is
    painted on the canvas. *)
Theorem render_loop_stops_on_exception :
  forall p,
    Page.animationFrame p = true ->
    let p1 := Page.dispatch Page.AnimationFrame p in
    (fst (render (Page.game p)) = Normal tt ->
       Page.animationFrame p1 = true) /\
    (forall e, fst (render (Page.game p)) = Throw e ->
       forall p',
         rtc Page.task p1 p' ->
         Page.animationFrame p' = false /\
         ctx (Page.game p') = ctx (Page.game p1)).
Proof.
  intros p Ef p1. subst p1. rewrite page_frame. split.
  - intros ->. reflexivity.
  - intros e ->.
    apply (rtc_ind_r
             (fun p' => Page.animationFrame p' = false /\
                        ctx (Page.game p') = ctx (after render (Page.game p)))).
    + split; reflexivity.
    + intros p1 p2 _ T [IH1 IH2].
      destruct (page_task_without_frame p1 p2 T IH1) as [E1 E2].
      split; [exact E1 | now rewrite E2].
Qed.

(** *** What the client sends *)

#[local] Instance queues_reflexive allowed :
  Reflexive (queues (num := num) allowed).
Proof. intros g. exists []. now rewrite enqueue_nil. Qed.

Lemma enqueue_app (l1 l2 : list (value num)) g :
  enqueue l2 (enqueue l1 g) = enqueue (l1 ++ l2) g.
Proof.
  unfold enqueue. destruct (ws g) as [w |] eqn:E; cbn; [| now rewrite E].
  now rewrite <- app_assoc.
Qed.

#[local] Instance queues_transitive allowed :
  Transitive (queues (num := num) allowed).
Proof.
  intros g1 g2 g3 (l1 & -> & F1) (l2 & -> & F2). exists (l1 ++ l2).
  split; [apply enqueue_app | now apply Forall_app].
Qed.

Lemma queues_outbound allowed g g' :
  queues allowed g g' ->
  Forall allowed (outbound g) -> Forall allowed (outbound g').
Proof.
  intros (l & -> & F) I. unfold outbound, enqueue in *.
  destruct (ws g) as [w |] eqn:E; cbn; [| now rewrite E].
  now apply Forall_app.
Qed.

Lemma queues_weaken (allowed allowed' : value num -> Prop) g g' :
  (forall m, allowed m -> allowed' m) ->
  queues allowed g g' -> queues allowed' g g'.
Proof.
  intros Hw (l & E & F). exists l. split; [exact E |].
  eapply Forall_impl; eassumption.
Qed.

Lemma WebSocket_send_queues (allowed : value num -> Prop) g w m :
  ws g = Some w -> allowed m ->
  queues allowed g (snd (WebSocket_send w m g)).
Proof.
  intros E Hm. unfold WebSocket_send.
  destruct (readyState w) eqn:R; cbn; try reflexivity.
  exists [m]. split; [| now constructor].
  unfold enqueue. rewrite E. now rewrite R.
Qed.

Lemma sendInput_queues (action : string) :
  In action ["UP"; "DOWN"; "LEFT"; "RIGHT"] ->
  steps (num := num) (queues (client_message false))
        (sendInput (VStr action)).
Proof.
  intros Ha g. unfold sendInput. js_step.
  destruct (ws g) as [w |] eqn:E; [| reflexivity].
  destruct (connected g); [| reflexivity].
  apply WebSocket_send_queues; [exact E |].
  unfold client_message, intent. cbn in Ha.
  destruct Ha as [<- | [<- | [<- | [<- | []]]]]; auto.
Qed.

Lemma tick_queues : steps (queues (client_message false)) (tick (num := num)).
Proof.
  unfold tick.
  repeat match goal with
    | |- @steps _ _ _ (sendInput _) => apply sendInput_queues; cbn; tauto
    | |- @steps _ _ _ (read _) => apply steps_read; apply queues_reflexive
    | |- @steps _ _ _ (when _ _) =>
        apply steps_when; [apply queues_reflexive |]
    | |- @steps _ _ _ (_ ≫= _) =>
        apply steps_bind; [apply queues_transitive | | intros ?]
    end.
Qed.

Lemma resetGame_queues :
  steps (queues (client_message true)) (resetGame (num := num)).
Proof.
  intros g. unfold resetGame. js_step.
  destruct (ws g) as [w |] eqn:E; [| reflexivity].
  destruct (connected g); [| reflexivity].
  apply WebSocket_send_queues; [exact E |].
  unfold client_message, reset_message. auto 10.
Qed.

Lemma with_readyState_outbound r g :
  outbound (with_readyState r g) = outbound g.
Proof.
  unfold with_readyState, outbound.
  destruct (ws g) eqn:E; cbn; [reflexivity | now rewrite E].
Qed.

Lemma page_task_messages p p' :
  Page.task p p' ->
  (Page.clickListener p = true -> Page.resetButton p = true) ->
  Forall (client_message (Page.resetButton p)) (outbound (Page.game p)) ->
  Page.resetButton p' = Page.resetButton p /\
  (Page.clickListener p' = true -> Page.resetButton p' = true) /\
  Forall (client_message (Page.resetButton p')) (outbound (Page.game p')).
Proof.
  intros [q e He] Hl I.
  assert (K : forall g', outbound g' = outbound (Page.game q) ->
                Page.resetButton (Page.set_game g' q) = Page.resetButton q /\
                (Page.clickListener (Page.set_game g' q) = true ->
                 Page.resetButton (Page.set_game g' q) = true) /\
                Forall (client_message (Page.resetButton (Page.set_game g' q)))
                       (outbound (Page.game (Page.set_game g' q))))
    by (intros g' E; cbn; rewrite E; auto).
  assert (Q : forall g' allowed,
                (forall m, allowed m ->
                   client_message (Page.resetButton q) m) ->
                queues allowed (Page.game q) g' ->
                Page.resetButton (Page.set_game g' q) = Page.resetButton q /\
                (Page.clickListener (Page.set_game g' q) = true ->
                 Page.resetButton (Page.set_game g' q) = true) /\
                Forall (client_message (Page.resetButton (Page.set_game g' q)))
                       (outbound (Page.game (Page.set_game g' q)))).
  { intros g' allowed Hw Hq. cbn. split; [reflexivity |].
    split; [exact Hl |].
    apply (queues_outbound _ (Page.game q)); [| exact I].
    now apply (queues_weaken allowed). }
  destruct e; cbn in He.
  - apply K. rewrite <- (with_readyState_outbound OPEN (Page.game q)). kept.
  - apply K. kept.
  - apply K. apply with_readyState_outbound.
  - apply K. rewrite <- (with_readyState_outbound CLOSED (Page.game q)). kept.
  - apply K. kept.
  - apply K. kept.
  - apply (Q _ (client_message false)); [| apply tick_queues].
    unfold client_message. intros m. intuition congruence.
  - apply K. kept.
  - rewrite page_frame. cbn. split; [reflexivity |]. split; [exact Hl |].
    replace (outbound (after render (Page.game q)))
      with (outbound (Page.game q)) by (symmetry; kept).
    exact I.
  - apply (Q _ (client_message true)); [| apply resetGame_queues].
    now rewrite (Hl He).
Qed.

(** X18.  In every state the page can reach, each message that has been
    queued on the socket is [{type: 'input', action}] with [action] one
    of UP, DOWN, LEFT and RIGHT, or [{type: 'reset'}]; and on a page
    without the reset button no [reset] message is ever queued. *)
Theorem client_sends_only_its_messages :
  forall p,
    Page.reachable p ->
    Forall (client_message (Page.resetButton p)) (outbound (Page.game p)).
Proof.
  intros p (pid & env & boxWidth & boxHeight & status & button & R).
  enough ((Page.clickListener p = true -> Page.resetButton p = true) /\
          Forall (client_message (Page.resetButton p))
                 (outbound (Page.game p))) as [_ F] by exact F.
  revert p R. apply rtc_ind_r.
  - destruct status, button; split; (discriminate || constructor || auto).
  - intros p1 p2 _ T [IH1 IH2].
    destruct (page_task_messages p1 p2 T IH1 IH2) as (_ & E2 & E3). auto.
Qed.

(** X19.  In every state, also one the event loop cannot reach, the
    methods that send change nothing but the queue of the socket,
    whether [WebSocket.send] raises or not: [resetGame] leaves the state
    as it was or queues the reset message; [sendInput] leaves the state
    as it was or queues its message; and a tick of the sampler queues
    directional intents and nothing else. *)
Theorem sends_touch_only_the_queue :
  forall g,
    (exists msgs,
        after tick g = enqueue msgs g /\
        Forall (client_message false) msgs) /\
    (after resetGame g = g \/
     after resetGame g = enqueue [reset_message] g) /\
    (forall action,
        after (sendInput action) g = g \/
        after (sendInput action) g
        = enqueue [VObj [("type", VStr "input"); ("action", action)]] g).
Proof.
  intros g. split; [exact (tick_queues g) |].
  split; [| intros action]; unfold after, resetGame, sendInput; js_step;
    (destruct (ws g) as [[u r s] |] eqn:E; [| left; reflexivity]);
    (destruct (connected g); [| left; reflexivity]);
    unfold WebSocket_send; destruct r; cbn; try (left; reflexivity);
    right; unfold enqueue; rewrite E; reflexivity.
Qed.

End PageProperties.

(** X17 on the page of player 1: after the frame
    [{type: 'game_state', data: {}}] the next iteration of the render
    loop raises, and a well-formed snapshot that arrives later is not
    painted. *)
Lemma render_loop_stops_on_exception_witness :
  let p := Page.run [Page.SocketOpen;
                     Page.SocketMessage (game_state_frame (VObj []))]
                    (loaded (num := float) 1000 500)%float in
  let p1 := Page.dispatch Page.AnimationFrame p in
  let p' := Page.run [Page.SocketMessage
                        (game_state_frame (sample_snapshot 800 600)%float);
                      Page.AnimationFrame; Page.Resize 640 480;
                      Page.AnimationFrame]%float p1 in
  fst (render (Page.game p)) = Throw TypeError /\
  gameState (Page.game p') = (sample_snapshot 800 600)%float /\
  Page.animationFrame p' = false /\
  ctx (Page.game p') = ctx (Page.game p1).
Proof.
  intros p p1 p'.
  assert (Ef : Page.animationFrame p = true) by (vm_compute; reflexivity).
  assert (Er : fst (render (Page.game p)) = Throw TypeError)
    by (vm_compute; reflexivity).
  split; [exact Er |]. split; [vm_compute; reflexivity |].
  exact (proj2 (render_loop_stops_on_exception p Ef) TypeError Er p'
               (page_run_rtc _ p1)).
Defined.

(** X18 on the page of player 1 after the socket has opened, w has gone
    down, the timer has fired and the reset button has been clicked. *)
Lemma client_sends_only_its_messages_witness :
  let p := Page.run [Page.SocketOpen; Page.KeyDown "w"; Page.Timer;
                     Page.Click]
                    (loaded (num := float) 1000 500)%float in
  Forall (client_message (Page.resetButton p)) (outbound (Page.game p)) /\
  outbound (Page.game p) = [intent "UP"; reset_message].
Proof.
  intros p. split.
  - apply (client_sends_only_its_messages p).
    apply page_run_reachable, loaded_reachable.
  - vm_compute. reflexivity.
Defined.

(** ** The keys and the sampler *)

Section Keys.

Context {num : Type} `{JSNumber num} `{Host num}.

Implicit Types (g : PongGame num).

(** X20.  The keys held are kept as a set of lowercased identifiers,
    whatever [toLowerCase] makes of an identifier (the mapping of A-Z on
    an ASCII identifier, that of the host on any other): a second
    key-down of a key (the auto-repeat of a key that is held, or another
    spelling with the same lowercased identifier) changes nothing; a
    key-up of any such spelling takes the key out of the set; and a
    key-down followed by the key-up of a key that was not held leaves
    the whole state as it was. *)
Theorem key_events_update_a_set :
  forall g key spelling,
    toLowerCase spelling = toLowerCase key ->
    after (keydown spelling) (after (keydown key) g) = after (keydown key) g /\
    pressedKeys (after (keyup spelling) (after (keydown key) g))
    = pressedKeys g ∖ {[ toLowerCase key ]} /\
    (toLowerCase key ∉ pressedKeys g ->
     after (keyup spelling) (after (keydown key) g) = g).
Proof.
  intros g key spelling E.
  unfold after, keydown, keyup, write. cbn [snd]. state_norm. rewrite E.
  assert (E1 : ({[toLowerCase key]} ∪ ({[toLowerCase key]} ∪ pressedKeys g)
                : gset string) = {[toLowerCase key]} ∪ pressedKeys g).
  { apply set_eq. intros x. rewrite !elem_of_union. tauto. }
  assert (E2 : (({[toLowerCase key]} ∪ pressedKeys g) ∖ {[toLowerCase key]}
                : gset string) = pressedKeys g ∖ {[toLowerCase key]}).
  { apply set_eq. intros x. rewrite !elem_of_difference, elem_of_union. tauto. }
  split; [| split].
  - unfold set_pressedKeys. cbn. now rewrite E1.
  - exact E2.
  - intros Hn. unfold set_pressedKeys. cbn. rewrite E2.
    assert (E3 : pressedKeys g ∖ {[toLowerCase key]} = pressedKeys g).
    { apply set_eq. intros x. rewrite elem_of_difference, elem_of_singleton.
      split; [tauto |]. intros Hx. split; [exact Hx |].
      intros ->. contradiction. }
    rewrite E3. now destruct g.
Qed.



(** X22.  The sampler takes the scheme of player 1 for the player id
    [player1] and the scheme of player 2, the arrow keys, for any
    other id: while the connection is open, a tick of a client whose
    id is not [player1] queues the intents of the arrow keys that are
    held, and the keys w, a, s, d send nothing. *)
Theorem sampler_scheme_fallback :
  forall g,
    playerId g <> "player1" ->
    connection_open g = true -> connected g = true ->
    sent_by_tick g
    = (if has (pressedKeys g) "arrowup" then [intent "UP"] else [])
      ++ (if has (pressedKeys g) "arrowdown" then [intent "DOWN"] else [])
      ++ (if has (pressedKeys g) "arrowleft" then [intent "LEFT"] else [])
      ++ (if has (pressedKeys g) "arrowright" then [intent "RIGHT"] else []).
Proof.
  intros g Hp Ho Hc. rewrite (sent_by_tick_connected g Ho Hc). cbv zeta.
  unfold controls_of. apply String.eqb_neq in Hp. rewrite Hp. reflexivity.
Qed.

End Keys.

(** X20 on w, which goes down, repeats as W and goes up as W. *)
Lemma key_events_update_a_set_witness :
  let g := (playing (num := float) 1000 500 800 600)%float in
  after (keydown "W") (after (keydown "w") g) = after (keydown "w") g /\
  after (keyup "W") (after (keydown "w") g) = g.
Proof.
  intros g.
  destruct (key_events_update_a_set g "w" "W" eq_refl) as (E1 & _ & E3).
  split; [exact E1 |]. apply E3.
  apply (bool_decide_eq_false_1 _ (eq_refl : has (pressedKeys g) "w" = false)).
Defined.


(** X22 on a client started with the id [Player1], with w and the up
    arrow held: only the arrow sends. *)
Lemma sampler_scheme_fallback_witness :
  let g := after (keydown "ArrowUp")
             (after (keydown "w")
                (after onopen
                   (with_readyState OPEN
                      (startGame (num := float) "Player1" None 1000 500
                                 (Some ""))%float))) in
  sent_by_tick g = [intent "UP"].
Proof.
  intros g.
  etransitivity;
    [apply (sampler_scheme_fallback g);
       [vm_compute; discriminate | vm_compute; reflexivity ..]
    | vm_compute; reflexivity].
Defined.

(** ** Start-up *)

Section Startup.

Context {num : Type} `{JSNumber num} `{Host num}.


End Startup.
